(** * Tool-augmented chat orchestrator: the [/chat] handler of [src/api.ts],
    the tools of [src/server.ts] and the command-line client of
    [src/client.ts], embedded shallowly.

    The handler is asynchronous JavaScript over module-level mutable state.
    It is modelled as a state-passing computation over the module state
    ([Server]) that also writes a transcript of every effect it performs
    (history pushes, completion requests, tool dispatches).  Everything that
    lives outside the repository (the two LLM providers, the MCP transport,
    the process environment, the JavaScript [JSON] object) is taken from a
    [World] record, over which all theorems quantify.  One request is
    processed at a time; logging calls are left out. *)

From Stdlib Require Import String Ascii List ZArith Lia Bool Arith DecimalString.
From Stdlib Require Import SpecFloat.
Import ListNotations.

Set Implicit Arguments.
Set Warnings "-register-all".

(** ** JavaScript values and runtime helpers *)

(** A JavaScript number: an IEEE 754 double. *)
Definition Number : Type := spec_float.

Definition number_of_Z (z : Z) : Number := binary_normalize 53 1024 z 0 false.

(** [x + y] on numbers. *)
Definition js_add (x y : Number) : Number := SFadd 53 1024 x y.

(** [ToIntegerOrInfinity]: NaN and the zeros give 0, a finite number is
    truncated towards zero. *)
Inductive IntegerOrInfinity : Type :=
| MinusInfinity
| Integer (z : Z)
| PlusInfinity.

Definition ToIntegerOrInfinity (x : Number) : IntegerOrInfinity :=
  match x with
  | S754_nan | S754_zero _ => Integer 0
  | S754_infinity false => PlusInfinity
  | S754_infinity true => MinusInfinity
  | S754_finite sign m e =>
      let magnitude :=
        if (0 <=? e)%Z then (Z.pos m * 2 ^ e)%Z else (Z.pos m / 2 ^ (- e))%Z in
      Integer (if sign then (- magnitude)%Z else magnitude)
  end.

(** Decoded JSON. *)
Inductive Json : Type :=
| JNull
| JBool (b : bool)
| JNum (x : Number)
| JStr (s : string)
| JArr (items : list Json)
| JObj (fields : list (string * Json)).

(** A thrown JavaScript error: [error.message] and, for HTTP client errors,
    [error.response?.data]. *)
Record JsError : Type := mkError {
  message : string;
  response_data : option Json
}.

Definition TypeError (msg : string) : JsError := mkError msg None.

(** Truthiness of the values the code tests. *)
Definition truthy_string (s : string) : bool :=
  match s with EmptyString => false | _ => true end.

Definition truthy_opt (o : option string) : bool :=
  match o with Some s => truthy_string s | None => false end.

Definition truthy_json (j : Json) : bool :=
  match j with
  | JNull => false
  | JBool b => b
  | JNum (S754_zero _) | JNum S754_nan => false
  | JNum _ => true
  | JStr s => truthy_string s
  | JArr _ | JObj _ => true
  end.

(** [a || b] on possibly-undefined strings. *)
Definition js_or (a b : option string) : option string :=
  if truthy_opt a then a else b.

(** [s.toLowerCase()] where the result is only compared with "openai",
    "groq" or "exit", as in [src/api.ts] and [src/client.ts]: the letters
    A-Z are lowered and every other byte is left as it is.  JavaScript
    lowers letters outside ASCII as well, but a text that holds one does not
    lower to any of these three words (the one letter outside ASCII that
    lowers to an ASCII letter is the Kelvin sign, which gives k), so each
    comparison comes out as in JavaScript.  The tools of [src/server.ts],
    which compare lowered texts with each other, take the function from
    their runtime instead. *)
Definition lower_ascii (c : ascii) : ascii :=
  let n := nat_of_ascii c in
  if andb (65 <=? n) (n <=? 90) then ascii_of_nat (n + 32) else c.

Fixpoint toLowerCase (s : string) : string :=
  match s with
  | EmptyString => EmptyString
  | String c r => String (lower_ascii c) (toLowerCase r)
  end.

(** [Array.prototype.slice(start, end)]: a negative index counts from the
    end, every index is clamped to the array. *)
Definition rel_index (len : nat) (i : Z) : nat :=
  if (i <? 0)%Z then Z.to_nat (Z.max (Z.of_nat len + i) 0)
  else Nat.min (Z.to_nat i) len.

Definition rel_index_of (len : nat) (i : IntegerOrInfinity) : nat :=
  match i with
  | MinusInfinity => 0
  | Integer z => rel_index len z
  | PlusInfinity => len
  end.

Definition slice {A : Type} (l : list A) (start : Z) (end_ : option Z) : list A :=
  let len := length l in
  let k := rel_index len start in
  let final := match end_ with Some e => rel_index len e | None => len end in
  firstn (final - k) (skipn k l).

(** [l.slice(start, end)] for two numbers. *)
Definition slice_numbers {A : Type} (l : list A) (start end_ : Number) : list A :=
  let len := length l in
  let k := rel_index_of len (ToIntegerOrInfinity start) in
  let final := rel_index_of len (ToIntegerOrInfinity end_) in
  firstn (final - k) (skipn k l).

(** ** Data model of [src/api.ts] *)

Inductive Role : Type := system | user | assistant | tool.

(** One entry of [message.tool_calls]. *)
Record ToolCall : Type := mkToolCall {
  tc_id : string;
  tc_type : string;
  tc_name : string;        (* toolCall.function.name *)
  tc_arguments : string    (* toolCall.function.arguments, JSON text *)
}.

(** [completion.choices[i].message]: the provider SDKs type its role as
    the constant "assistant". *)
Record AssistantMessage : Type := mkAssistant {
  content : option string;
  tool_calls : option (list ToolCall)
}.

Inductive Message : Type :=
| SystemMsg (text : string)
| UserMsg (text : string)
| AssistantMsg (m : AssistantMessage)
| ToolMsg (tool_call_id : string) (text : string).

Definition role (m : Message) : Role :=
  match m with
  | SystemMsg _ => system
  | UserMsg _ => user
  | AssistantMsg _ => assistant
  | ToolMsg _ _ => tool
  end.

(** An entry of [result.tools] as returned by [client.listTools()]. *)
Record ToolDescriptor : Type := mkTool {
  name : string;
  description : option string;
  inputSchema : Json
}.

(** An entry of [completionBody.tools]. *)
Record ProviderToolSpec : Type := mkSpec {
  spec_type : string;
  fn_name : string;
  fn_description : option string;
  fn_parameters : Json
}.

Record CompletionBody : Type := mkBody {
  cb_model : string;
  cb_messages : list Message;
  cb_tools : option (list ProviderToolSpec)
}.

(** A completion is its list of choices, each carrying one message. *)
Definition Completion : Type := list AssistantMessage.

Record ContentItem : Type := mkItem {
  item_type : string;
  item_text : string
}.

(** What [client.callTool] resolves to; an absent [isError] is [false]. *)
Record ToolResult : Type := mkResult {
  result_content : list ContentItem;
  isError : bool
}.

Inductive LlmClient : Type := OpenAIClient | GroqClient.

Record McpClient : Type := mkClient {
  client_name : string;
  client_version : string
}.

(** [req.body]: every field may be absent.  [prompt] and [model] are
    passed on as they are, only their truthiness is looked at; [provider]
    is the receiver of a method call, so it is kept as the decoded JSON
    value it is. *)
Record Request : Type := mkRequest {
  req_prompt : option string;
  req_provider : option Json;
  req_model : option string
}.

Inductive ResponseBody : Type :=
| ErrorBody (error : string)
| ChatBody (response : option string) (provider : string) (model : string).

Record Response : Type := mkResponse {
  status : nat;
  body : ResponseBody
}.

(** The module-level variables of [src/api.ts]. *)
Record Server : Type := mkServer {
  client : option McpClient;
  tools : list ToolDescriptor;
  openai : option LlmClient;
  groq : option LlmClient;
  messages : list Message
}.

Definition system_prompt : string :=
  "You are a helpful assistant. You can use tools to manage users.".

(** The state right after the module is loaded. *)
Definition boot : Server :=
  mkServer None [] None None [SystemMsg system_prompt].

(** ** The outside world and the transcript of effects *)

(** One entry per effect, in the order the handler performs them; a remote
    call is recorded together with what it answered. *)
Inductive Event : Type :=
| EvConnect (outcome : JsError + unit)
| EvListTools (outcome : JsError + list ToolDescriptor)
| EvPush (m : Message)
| EvComplete (c : LlmClient) (b : CompletionBody) (outcome : JsError + Completion)
| EvCallTool (tool_name : string) (args : Json) (outcome : JsError + ToolResult).

Definition Transcript : Type := list Event.

(** Everything [src/api.ts] reaches outside itself.  A remote party may
    answer differently each time it is asked, so its answer is a function of
    the transcript so far as well as of the request; [inl] is a rejected
    promise or a thrown error. *)
Record World : Type := mkWorld {
  env_OPENAI_API_KEY : option string;
  env_GROQ_API_KEY : option string;
  connect : Transcript -> JsError + unit;
  listTools : Transcript -> JsError + list ToolDescriptor;
  create : Transcript -> LlmClient -> CompletionBody -> JsError + Completion;
  callTool : Transcript -> string -> Json -> JsError + ToolResult;
  JSON_parse : string -> JsError + Json;
  JSON_stringify : Json -> string
}.

Definition json_of_item (i : ContentItem) : Json :=
  JObj [("type"%string, JStr (item_type i)); ("text"%string, JStr (item_text i))].

Definition json_of_content (c : list ContentItem) : Json :=
  JArr (map json_of_item c).

(** ** Control flow: statements that may return or throw *)

Inductive Outcome (A : Type) : Type :=
| Value (a : A)
| Returned (r : Response)
| Thrown (e : JsError).

Arguments Value {A} a.
Arguments Returned {A} r.
Arguments Thrown {A} e.

(** A statement runs on the module state and the transcript; both survive a
    [return] and a [throw], as the mutations of module variables do. *)
Definition M (A : Type) : Type :=
  Server -> Transcript -> Outcome A * Server * Transcript.

Definition ret {A : Type} (a : A) : M A := fun s t => (Value a, s, t).

Definition bind {A B : Type} (c : M A) (k : A -> M B) : M B :=
  fun s t =>
    match c s t with
    | (Value a, s', t') => k a s' t'
    | (Returned r, s', t') => (Returned r, s', t')
    | (Thrown e, s', t') => (Thrown e, s', t')
    end.

Definition return_ {A : Type} (r : Response) : M A := fun s t => (Returned r, s, t).
Definition throw {A : Type} (e : JsError) : M A := fun s t => (Thrown e, s, t).

Declare Scope js_scope.
Delimit Scope js_scope with js.
Notation "x <- c ;; k" := (bind c (fun x => k))
  (at level 61, c at next level, right associativity) : js_scope.
Notation "c ;; k" := (bind c (fun _ => k))
  (at level 61, right associativity) : js_scope.
Open Scope js_scope.

Definition get : M Server := fun s t => (Value s, s, t).
Definition log (e : Event) : M unit := fun s t => (Value tt, s, t ++ [e]).

Definition set_client (c : option McpClient) : M unit :=
  fun s t => (Value tt, mkServer c (tools s) (openai s) (groq s) (messages s), t).
Definition set_tools (ts : list ToolDescriptor) : M unit :=
  fun s t => (Value tt, mkServer (client s) ts (openai s) (groq s) (messages s), t).
Definition set_openai (c : option LlmClient) : M unit :=
  fun s t => (Value tt, mkServer (client s) (tools s) c (groq s) (messages s), t).
Definition set_groq (c : option LlmClient) : M unit :=
  fun s t => (Value tt, mkServer (client s) (tools s) (openai s) c (messages s), t).
Definition set_messages (ms : list Message) : M unit :=
  fun s t => (Value tt, mkServer (client s) (tools s) (openai s) (groq s) ms, t).

(** [messages.push(m)] *)
Definition push (m : Message) : M unit :=
  s <- get ;; set_messages (messages s ++ [m]) ;; log (EvPush m).

(** [await p]: the value of a fulfilled promise, a throw for a rejected one. *)
Definition await {A : Type} (p : JsError + A) : M A :=
  match p with inl e => throw e | inr a => ret a end.

(** A call that returns or throws. *)
Definition call {A : Type} (r : JsError + A) : M A :=
  match r with inl e => throw e | inr a => ret a end.

(** [for (const x of l) body] *)
Fixpoint for_of {A : Type} (l : list A) (body : A -> M unit) : M unit :=
  match l with
  | [] => ret tt
  | x :: rest => body x ;; for_of rest body
  end.

(** [try { block } catch (error) { handler }], for a block every path of
    which ends in [return]. *)
Definition try_catch (block : M Empty_set) (handler : JsError -> Response)
  : Server -> Transcript -> Response * Server * Transcript :=
  fun s t =>
    match block s t with
    | (Value v, _, _) => match v with end
    | (Returned r, s', t') => (r, s', t')
    | (Thrown e, s', t') => (handler e, s', t')
    end.

(** A call to a remote party: the answer comes from the world, the call and
    its answer go to the transcript, a rejection is thrown. *)
Definition remote {A : Type} (ask : Transcript -> JsError + A)
    (ev : JsError + A -> Event) : M A :=
  fun s t =>
    let answer := ask t in
    (match answer with inl e => Thrown e | inr a => Value a end, s, t ++ [ev answer]).

(** ** [src/api.ts] *)

Definition api_client : McpClient := mkClient "api-client" "1.0.0".

(** [initMcpClient]: [client] is assigned before the first [await], so it is
    set even when connecting fails. *)
Definition initMcpClient (w : World) : M unit :=
  (if truthy_opt (env_OPENAI_API_KEY w) then set_openai (Some OpenAIClient) else ret tt) ;;
  (if truthy_opt (env_GROQ_API_KEY w) then set_groq (Some GroqClient) else ret tt) ;;
  set_client (Some api_client) ;;
  remote (connect w) EvConnect ;;
  result <- remote (listTools w) EvListTools ;;
  set_tools result.

(** [[messages[0], ...messages.slice(-9)]] *)
Definition keep_window (ms : list Message) : list Message :=
  match ms with
  | m0 :: _ => m0 :: slice ms (-9) None
  | [] => []
  end.

(** [if (messages.length > 10) messages = [messages[0], ...messages.slice(-9)]] *)
Definition limit_history : M unit :=
  s <- get ;;
  if 10 <? length (messages s) then set_messages (keep_window (messages s))
  else ret tt.

(** The value lines 108-110 leave in [messages], as a function of the value
    they find there. *)
Definition limit (ms : list Message) : list Message :=
  if 10 <? length ms then keep_window ms else ms.

(** The [tools] field of [completionBody]. *)
Definition toProviderSchema (ts : list ToolDescriptor) : list ProviderToolSpec :=
  map (fun tool => mkSpec "function" (name tool) (description tool) (inputSchema tool)) ts.

(** The receiver of [expr.toLowerCase()]: the call throws unless it is a
    string. *)
Definition string_receiver (expr : string) (v : Json) : JsError + string :=
  match v with
  | JStr s => inr s
  | JNull => inl (TypeError "Cannot read properties of null (reading 'toLowerCase')")
  | _ => inl (TypeError (expr ++ ".toLowerCase is not a function"))
  end.

(** [completion.choices[0].message] *)
Definition first_choice (completion : Completion) : M AssistantMessage :=
  match completion with
  | m :: _ => ret m
  | [] => throw (TypeError "Cannot read properties of undefined (reading 'message')")
  end.

(** [model || defaultModel] *)
Definition or_default (o : option string) (d : string) : string :=
  match o with
  | Some m => if truthy_string m then m else d
  | None => d
  end.

(** The body of [for (const toolCall of message.tool_calls)]. *)
Definition run_tool_call (w : World) (toolCall : ToolCall) : M unit :=
  if negb (tc_type toolCall =? "function")%string then ret tt
  else
    args <- await (JSON_parse w (tc_arguments toolCall)) ;;
    result <- remote (fun t => callTool w t (tc_name toolCall) args)
                     (EvCallTool (tc_name toolCall) args) ;;
    push (ToolMsg (tc_id toolCall)
                  (JSON_stringify w (json_of_content (result_content result)))).

Definition not_configured (which : string) : Response :=
  mkResponse 400 (ErrorBody (which ++ " not configured (missing API key)")).

(** Lines 78-100: the client and default model of the selected provider. *)
Definition select_provider (provider : string) : M (LlmClient * string) :=
  let selectedProvider := toLowerCase provider in
  s <- get ;;
  if (selectedProvider =? "openai")%string then
    match openai s with
    | None => return_ (not_configured "OpenAI")
    | Some c => ret (c, "gpt-4o-mini"%string)
    end
  else if (selectedProvider =? "groq")%string then
    match groq s with
    | None => return_ (not_configured "Groq")
    | Some c => ret (c, "llama-3.1-8b-instant"%string)
    end
  else
    return_ (mkResponse 400 (ErrorBody ("Unsupported provider: " ++ provider))).

(** Lines 148-161: the follow-up completion, sent without [tools], and the
    response built from it. *)
Definition final_response (w : World) (llmClient : LlmClient)
    (selectedProvider selectedModel : string) : M Empty_set :=
  s <- get ;;
  let finalBody := mkBody selectedModel (messages s) None in
  finalCompletion <- remote (fun t => create w t llmClient finalBody)
                            (EvComplete llmClient finalBody) ;;
  finalMessage <- first_choice finalCompletion ;;
  let finalContent := content finalMessage in
  push (AssistantMsg finalMessage) ;;
  return_ (mkResponse 200 (ChatBody finalContent selectedProvider selectedModel)).

(** Lines 105-168: the turn proper, once provider and model are chosen. *)
Definition complete_turn (w : World) (llmClient : LlmClient)
    (selectedProvider selectedModel prompt : string) : M Empty_set :=
  push (UserMsg prompt) ;;
  limit_history ;;
  s <- get ;;
  let completionBody :=
    mkBody selectedModel (messages s) (Some (toProviderSchema (tools s))) in
  completion <- remote (fun t => create w t llmClient completionBody)
                       (EvComplete llmClient completionBody) ;;
  message <- first_choice completion ;;
  push (AssistantMsg message) ;;
  match tool_calls message with
  | Some calls =>
      for_of calls (run_tool_call w) ;;
      final_response w llmClient selectedProvider selectedModel
  | None =>
      return_ (mkResponse 200 (ChatBody (content message) selectedProvider selectedModel))
  end.

(** The [try] block of the handler, for a truthy [prompt]. *)
Definition chat_block (w : World) (prompt : string) (provider : Json)
    (model : option string) : M Empty_set :=
  s <- get ;;
  (match client s with None => initMcpClient w | Some _ => ret tt end) ;;
  provider <- call (string_receiver "provider" provider) ;;
  let selectedProvider := toLowerCase provider in
  sel <- select_provider provider ;;
  let llmClient := fst sel in
  let defaultModel := snd sel in
  let selectedModel := or_default model defaultModel in
  complete_turn w llmClient selectedProvider selectedModel prompt.

(** [app.post("/chat", ...)]: the response sent, the module state and the
    transcript after the handler has run. *)
Definition chat (w : World) (req : Request)
  : Server -> Transcript -> Response * Server * Transcript :=
  let provider := match req_provider req with Some p => p | None => JStr "groq" end in
  match req_prompt req with
  | Some prompt =>
      if truthy_string prompt then
        try_catch (chat_block w prompt provider (req_model req))
                  (fun error => mkResponse 500 (ErrorBody (message error)))
      else fun s t => (mkResponse 400 (ErrorBody "Prompt is required"), s, t)
  | None => fun s t => (mkResponse 400 (ErrorBody "Prompt is required"), s, t)
  end.

(** The callback of [app.listen]: [initMcpClient().catch(console.error)]. *)
Definition startup (w : World) : Server :=
  snd (fst (initMcpClient w boot [])).

(** One user turn on a fresh transcript; a session is a list of turns, each
    with the world it met. *)
Definition turn (w : World) (req : Request) (s : Server) : Server :=
  snd (fst (chat w req s [])).

Fixpoint session (turns : list (World * Request)) (s : Server) : Server :=
  match turns with
  | [] => s
  | (w, req) :: rest => session rest (turn w req s)
  end.

(** The states the server can be in when a request arrives. *)
Inductive reachable : Server -> Prop :=
| reach_startup (w : World) : reachable (startup w)
| reach_turn (w : World) (req : Request) (s : Server) :
    reachable s -> reachable (turn w req s).



(** ** Reading decoded JSON as the tools of [src/server.ts] do *)

(** Statements of a [try] block in sequence: the first throw ends it. *)
Definition and_then {A B : Type} (x : JsError + A) (k : A -> JsError + B)
  : JsError + B :=
  match x with inl e => inl e | inr a => k a end.

Notation "'let*' x ':=' c 'in' k" := (and_then c (fun x => k))
  (at level 10, x name, c at level 100, k at level 200).


Fixpoint assoc (key : string) (fields : list (string * Json)) : option Json :=
  match fields with
  | [] => None
  | (k, v) :: rest => if (k =? key)%string then Some v else assoc key rest
  end.

(** [v.key], for a property name that no string, number, boolean or array
    has of its own; [None] is [undefined].  Reading a property of
    [undefined] or [null] throws. *)
Definition read (v : option Json) (key : string) : JsError + option Json :=
  match v with
  | None =>
      inl (TypeError ("Cannot read properties of undefined (reading '" ++ key ++ "')"))
  | Some JNull =>
      inl (TypeError ("Cannot read properties of null (reading '" ++ key ++ "')"))
  | Some (JObj fields) => inr (assoc key fields)
  | Some _ => inr None
  end.

(** [v || []] *)
Definition or_empty (v : option Json) : Json :=
  match v with
  | Some j => if truthy_json j then j else JArr []
  | None => JArr []
  end.

(** The elements of the receiver of [expr.method(...)], which throws unless
    the receiver is an array. *)
Definition elements (expr method : string) (v : Json) : JsError + list Json :=
  match v with
  | JArr items => inr items
  | _ => inl (TypeError (expr ++ "." ++ method ++ " is not a function"))
  end.

(** [items.map(f)] for a callback that may throw: the first throw ends it. *)
Fixpoint map_throwing {A B : Type} (f : A -> JsError + B) (l : list A)
  : JsError + list B :=
  match l with
  | [] => inr []
  | x :: rest =>
      match f x with
      | inl e => inl e
      | inr y =>
          match map_throwing f rest with
          | inl e => inl e
          | inr ys => inr (y :: ys)
          end
      end
  end.

(** [items.filter(keep)] for a callback that may throw. *)
Fixpoint filter_throwing {A : Type} (keep : A -> JsError + bool) (l : list A)
  : JsError + list A :=
  match l with
  | [] => inr []
  | x :: rest =>
      match keep x with
      | inl e => inl e
      | inr kept =>
          match filter_throwing keep rest with
          | inl e => inl e
          | inr xs => inr (if kept then x :: xs else xs)
          end
      end
  end.

(** [a || b] on values that may be undefined. *)
Definition or_value (a b : option Json) : option Json :=
  match a with
  | Some j => if truthy_json j then a else b
  | None => b
  end.

(** [a || b] for a [b] that is defined. *)
Definition or_json (a : option Json) (b : Json) : Json :=
  match a with
  | Some j => if truthy_json j then j else b
  | None => b
  end.

(** [a || b] on the outcomes of two tests, the second of which is only run
    when the first is false. *)
Definition or_else (a b : JsError + bool) : JsError + bool :=
  match a with
  | inl e => inl e
  | inr true => inr true
  | inr false => b
  end.

(** ** The [get-users] tool of [src/server.ts] *)

Module GetUsers.

(** The arguments after schema validation; every one is optional. *)
Record Args : Type := mkArgs {
  limit : option Number;
  offset : option Number;
  search : option string;
  startsWith : option string;
  role : option string;
  id : option string
}.

(** What the tool reaches outside itself: the REST backend, the developer
    token of the environment and the JavaScript built-ins it calls. *)
Record Backend : Type := mkBackend {
  env_DOMO_DEVELOPER_TOKEN : option string;
  axios_get : string -> option string -> JsError + option Json;  (* usersResponse.data *)
  stringify : Json -> string;            (* JSON.stringify(v) *)
  stringify_indented : Json -> string;   (* JSON.stringify(v, null, 2) *)
  String_ : Json -> string;              (* String(v) *)
  toLowerCase : string -> string         (* s.toLowerCase() *)
}.

Definition users_url : string :=
  "https://gwcteq-partner.domo.com/api/content/v3/users/?limit=500&offset=0&active=true".

(** [s.includes(term)] *)
Fixpoint includes (s term : string) : bool :=
  if String.prefix term s then true
  else match s with
       | EmptyString => false
       | String _ rest => includes rest term
       end.

(** [s.split("_")[0]] *)
Fixpoint before_underscore (s : string) : string :=
  match s with
  | EmptyString => EmptyString
  | String c rest =>
      if Ascii.eqb c "_" then EmptyString else String c (before_underscore rest)
  end.

(** [v && test(v.toLowerCase())], as a filter sees it: false for a value
    that is undefined or falsy, the test on the lowered text for a string,
    a TypeError for any other truthy value. *)
Definition lowered_test (b : Backend) (expr : string) (v : option Json)
    (test : string -> bool) : JsError + bool :=
  match v with
  | None => inr false
  | Some (JStr s) => inr (if truthy_string s then test (toLowerCase b s) else false)
  | Some j =>
      if truthy_json j then inl (TypeError (expr ++ ".toLowerCase is not a function"))
      else inr false
  end.

(** [u.key && test(u.key.toLowerCase())] *)
Definition field_test (b : Backend) (u : Json) (key : string)
    (test : string -> bool) : JsError + bool :=
  let* v := read (Some u) key in
  lowered_test b ("u." ++ key) v test.

(** [u.detail?.email] *)
Definition detail_email (u : Json) : JsError + option Json :=
  let* detail := read (Some u) "detail" in
  match detail with
  | None | Some JNull => inr None
  | Some d => read (Some d) "email"
  end.

(** [u.detail?.email && test(u.detail.email.toLowerCase())] *)
Definition detail_test (b : Backend) (u : Json) (test : string -> bool)
  : JsError + bool :=
  let* v := detail_email u in
  lowered_test b "u.detail.email" v test.

(** The callback of the search filter. *)
Definition search_match (b : Backend) (term : string) (u : Json) : JsError + bool :=
  let* nameMatch :=
    or_else (field_test b u "displayName" (fun v => includes v term))
      (or_else (field_test b u "userName" (fun v => includes v term))
               (field_test b u "name" (fun v => includes v term))) in
  let* emailMatch :=
    or_else (field_test b u "email" (fun v => includes v term))
      (or_else (field_test b u "emailAddress" (fun v => includes v term))
               (detail_test b u (fun v => includes v term))) in
  inr (nameMatch || emailMatch).

(** The callback of the startsWith filter. *)
Definition startsWith_match (b : Backend) (term : string) (u : Json)
  : JsError + bool :=
  or_else (field_test b u "displayName" (String.prefix term))
    (or_else (field_test b u "userName" (String.prefix term))
             (field_test b u "name" (String.prefix term))).

(** [u.role && u.role.toLowerCase() === roleTerm] *)
Definition role_match (b : Backend) (roleTerm : string) (u : Json)
  : JsError + bool :=
  field_test b u "role" (fun v => (v =? roleTerm)%string).

(** [String(v)] for a value that may be undefined. *)
Definition to_string (b : Backend) (v : option Json) : string :=
  match v with
  | Some j => String_ b j
  | None => "undefined"%string
  end.

(** [String(u.id) === String(id)] *)
Definition id_match (b : Backend) (id_ : string) (u : Json) : JsError + bool :=
  let* uid := read (Some u) "id" in
  inr (to_string b uid =? id_)%string.

(** The elements of [allUsers] when [allUsers.method(...)] is called:
    reading the method of undefined or null throws, and only an array has
    it. *)
Definition as_array (method : string) (allUsers : option Json)
  : JsError + list Json :=
  match allUsers with
  | None =>
      inl (TypeError ("Cannot read properties of undefined (reading '" ++ method ++ "')"))
  | Some JNull =>
      inl (TypeError ("Cannot read properties of null (reading '" ++ method ++ "')"))
  | Some (JArr items) => inr items
  | Some _ => inl (TypeError ("allUsers." ++ method ++ " is not a function"))
  end.

(** [if (arg) allUsers = allUsers.filter(keep)] *)
Definition filter_when (arg : option string)
    (keep : string -> Json -> JsError + bool) (allUsers : option Json)
  : JsError + option Json :=
  match arg with
  | Some v =>
      if truthy_string v then
        let* items := as_array "filter" allUsers in
        let* kept := filter_throwing (keep v) items in
        inr (Some (JArr kept))
      else inr allUsers
  | None => inr allUsers
  end.

(** [u.detail?.email || u.email || u.emailAddress || ""] *)
Definition rawEmail (u : Json) : JsError + Json :=
  let* detailEmail := detail_email u in
  let* email := read (Some u) "email" in
  let* emailAddress := read (Some u) "emailAddress" in
  inr (or_json detailEmail (or_json email (or_json emailAddress (JStr EmptyString)))).

(** [rawEmail.split("_")[0]], for a [rawEmail] that is truthy or the empty
    string: only a string has [split]. *)
Definition email_of (rawEmail : Json) : JsError + string :=
  match rawEmail with
  | JStr s => inr (before_underscore s)
  | _ => inl (TypeError "rawEmail.split is not a function")
  end.

(** An object literal property; an undefined one is left out, as
    [JSON.stringify] leaves it out. *)
Definition property (key : string) (v : option Json) : list (string * Json) :=
  match v with Some j => [(key, j)] | None => [] end.

(** The callback of [allUsers.map]. *)
Definition simplify (u : Json) : JsError + Json :=
  let* raw := rawEmail u in
  let* email := email_of raw in
  let* id_ := read (Some u) "id" in
  let* displayName := read (Some u) "displayName" in
  let* userName := read (Some u) "userName" in
  let* name_ := read (Some u) "name" in
  let* role_ := read (Some u) "role" in
  inr (JObj (property "id" id_ ++
             property "name" (or_value displayName (or_value userName name_)) ++
             [("email"%string, JStr email)] ++
             property "role" role_)).

Definition page_json (total count : nat) (users : list Json) : Json :=
  JObj [("total"%string, JNum (number_of_Z (Z.of_nat total)));
        ("count"%string, JNum (number_of_Z (Z.of_nat count)));
        ("users"%string, JArr users)].

Definition text_result (text : string) (failed : bool) : ToolResult :=
  mkResult [mkItem "text" text] failed.

(** The [try] block of the handler. *)
Definition try_block (b : Backend) (args : Args) : JsError + ToolResult :=
  let limit_ := match limit args with Some n => n | None => number_of_Z 50 end in
  let offset_ := match offset args with Some n => n | None => number_of_Z 0 end in
  let* allUsers := axios_get b users_url (env_DOMO_DEVELOPER_TOKEN b) in
  let* allUsers :=
    filter_when (search args) (fun v => search_match b (toLowerCase b v)) allUsers in
  let* allUsers :=
    filter_when (startsWith args) (fun v => startsWith_match b (toLowerCase b v))
                allUsers in
  let* allUsers :=
    filter_when (role args) (fun v => role_match b (toLowerCase b v)) allUsers in
  let* allUsers := filter_when (id args) (id_match b) allUsers in
  let* items := as_array "map" allUsers in
  let* simplifiedUsers := map_throwing simplify items in
  let pagedUsers :=
    slice_numbers simplifiedUsers offset_ (js_add offset_ limit_) in
  inr (text_result
         (stringify_indented b
            (page_json (length simplifiedUsers) (length pagedUsers) pagedUsers))
         false).

(** [error.response?.data || ""] *)
Definition error_data (error : JsError) : Json :=
  match response_data error with
  | Some d => if truthy_json d then d else JStr EmptyString
  | None => JStr EmptyString
  end.

(** The text built in the [catch] block. *)
Definition diagnostic (b : Backend) (error : JsError) : string :=
  ("Error fetching users: " ++ message error ++ " - " ++ stringify b (error_data error))%string.

(** The registered handler: [try { ... } catch (error) { ... }]. *)
Definition get_users (b : Backend) (args : Args) : ToolResult :=
  match try_block b args with
  | inr result => result
  | inl error => text_result (diagnostic b error) true
  end.

End GetUsers.

(** ** The [get-collection-documents] tool of [src/server.ts] *)

Module GetCollectionDocuments.

Record Backend : Type := mkBackend {
  env_DOMO_DEVELOPER_TOKEN : option string;
  axios_get : string -> option string -> JsError + option Json;  (* response.data *)
  stringify : Json -> string;
  stringify_indented : Json -> string
}.

(** A content item of this tool carries a description as well. *)
Record Item : Type := mkItem {
  item_type : string;
  item_description : option string;
  item_text : string
}.

Record Result : Type := mkResult {
  result_content : list Item;
  isError : bool
}.

Definition documents_url (collectionId : string) : string :=
  "https://gwcteq-partner.domo.com/api/datastores/v1/collections/"
    ++ collectionId ++ "/documents".

(** [(doc) => ({ id: doc.id, content: doc.content })]; an undefined property
    is left out of the object, as [JSON.stringify] leaves it out. *)
Definition simplify (doc : Json) : JsError + Json :=
  match read (Some doc) "id" with
  | inl e => inl e
  | inr id_ =>
      match read (Some doc) "content" with
      | inl e => inl e
      | inr content_ =>
          inr (JObj (GetUsers.property "id" id_ ++ GetUsers.property "content" content_))
      end
  end.

Definition top5_note : string :=
  "Top 5 documents from the collection, we only show 5 documents because of the limit".

(** The [try] block of the handler. *)
Definition try_block (b : Backend) (collectionId : string) : JsError + Result :=
  match axios_get b (documents_url collectionId) (env_DOMO_DEVELOPER_TOKEN b) with
  | inl e => inl e
  | inr data =>
      match elements "(response.data || [])" "map" (or_empty data) with
      | inl e => inl e
      | inr docs =>
          match map_throwing simplify docs with
          | inl e => inl e
          | inr simplifiedDocuments =>
              let top5 := slice simplifiedDocuments 0 (Some 5%Z) in
              inr (mkResult
                     [mkItem "text" (Some top5_note) (stringify_indented b (JArr top5))]
                     false)
          end
      end
  end.

Definition diagnostic (b : Backend) (collectionId : string) (error : JsError) : string :=
  ("Error fetching documents for collection " ++ collectionId ++ ": "
     ++ message error ++ " - " ++ stringify b (GetUsers.error_data error))%string.

(** The registered handler. *)
Definition get_collection_documents (b : Backend) (collectionId : string) : Result :=
  match try_block b collectionId with
  | inr result => result
  | inl error => mkResult [mkItem "text" None (diagnostic b collectionId error)] true
  end.

End GetCollectionDocuments.

(** ** The [query-collections] tool of [src/server.ts] *)

Module QueryCollections.

Record Args : Type := mkArgs {
  query : string;
  pageSize : option Number;
  pageNumber : option Number
}.

Record Backend : Type := mkBackend {
  env_DOMO_DEVELOPER_TOKEN : option string;
  (* url, payload, token: response.data *)
  axios_post : string -> Json -> option string -> JsError + option Json;
  stringify : Json -> string;
  stringify_indented : Json -> string;
  String_ : Json -> string
}.

Definition collections_url : string :=
  "https://gwcteq-partner.domo.com/api/datastores/v1/collections/query".

Definition payload (args : Args) : Json :=
  JObj [("collectionFilteringList"%string,
         JArr [JObj [("filterType"%string, JStr "nameof");
                     ("typedValue"%string, JStr ("%" ++ query args ++ "%"))]]);
        ("sortBy"%string, JStr "createdOn");
        ("direction"%string, JStr "desc");
        ("pageSize"%string,
         JNum (match pageSize args with Some n => n | None => number_of_Z 100 end));
        ("pageNumber"%string,
         JNum (match pageNumber args with Some n => n | None => number_of_Z 1 end))].

(** [String(v)] for a value that may be undefined. *)
Definition to_key (b : Backend) (v : option Json) : string :=
  match v with
  | Some j => String_ b j
  | None => "undefined"%string
  end.

(** [ownersMap]: a [Map] is observed through [get] only, so it is kept as
    the list of its [set] calls, newest first. *)
Definition OwnersMap : Type := list (string * option Json).

Definition map_set (k : string) (v : option Json) (m : OwnersMap) : OwnersMap :=
  (k, v) :: m.

Fixpoint map_get (k : string) (m : OwnersMap) : option Json :=
  match m with
  | [] => None
  | (k', v) :: rest => if (k' =? k)%string then v else map_get k rest
  end.

(** [owners.forEach((o) => ownersMap.set(String(o.ownerId), o.ownerName))] *)
Fixpoint set_owners (b : Backend) (owners : list Json) (m : OwnersMap)
  : JsError + OwnersMap :=
  match owners with
  | [] => inr m
  | o :: rest =>
      match read (Some o) "ownerId" with
      | inl e => inl e
      | inr ownerId =>
          match read (Some o) "ownerName" with
          | inl e => inl e
          | inr ownerName => set_owners b rest (map_set (to_key b ownerId) ownerName m)
          end
      end
  end.

(** [x || "Unknown"] *)
Definition or_unknown (v : option Json) : Json :=
  match v with
  | Some j => if truthy_json j then j else JStr "Unknown"
  | None => JStr "Unknown"
  end.

(** The callback of [collections.map]. *)
Definition simplify (b : Backend) (ownersMap : OwnersMap) (c : Json) : JsError + Json :=
  match read (Some c) "id" with
  | inl e => inl e
  | inr id_ =>
  match read (Some c) "name" with
  | inl e => inl e
  | inr name_ =>
  match read (Some c) "createdOn" with
  | inl e => inl e
  | inr createdOn =>
  match read (Some c) "owner" with
  | inl e => inl e
  | inr owner =>
      inr (JObj (GetUsers.property "id" id_ ++ GetUsers.property "name" name_ ++
                 GetUsers.property "createdOn" createdOn ++
                 [("ownerName"%string, or_unknown (map_get (to_key b owner) ownersMap))]))
  end end end end.

(** The [try] block of the handler. *)
Definition try_block (b : Backend) (args : Args) : JsError + ToolResult :=
  match axios_post b collections_url (payload args) (env_DOMO_DEVELOPER_TOKEN b) with
  | inl e => inl e
  | inr data =>
  match read data "ownedBy" with
  | inl e => inl e
  | inr ownedBy =>
  match elements "(response.data.ownedBy || [])" "forEach" (or_empty ownedBy) with
  | inl e => inl e
  | inr owners =>
  match set_owners b owners [] with
  | inl e => inl e
  | inr ownersMap =>
  match read data "collections" with
  | inl e => inl e
  | inr collections =>
  match elements "(response.data.collections || [])" "map" (or_empty collections) with
  | inl e => inl e
  | inr cs =>
  match map_throwing (simplify b ownersMap) cs with
  | inl e => inl e
  | inr simplifiedCollections =>
  match read data "totalCollectionCount" with
  | inl e => inl e
  | inr totalCount =>
      inr (GetUsers.text_result
             (stringify_indented b
                (JObj (GetUsers.property "totalCount" totalCount ++
                       [("collections"%string, JArr simplifiedCollections)])))
             false)
  end end end end end end end end.

Definition diagnostic (b : Backend) (error : JsError) : string :=
  ("Error querying collections: " ++ message error ++ " - "
     ++ stringify b (GetUsers.error_data error))%string.

(** The registered handler. *)
Definition query_collections (b : Backend) (args : Args) : ToolResult :=
  match try_block b args with
  | inr result => result
  | inl error => GetUsers.text_result (diagnostic b error) true
  end.

End QueryCollections.

(** ** The [search-dataflows] tool of [src/server.ts] *)

Module SearchDataflows.

Record Args : Type := mkArgs {
  query : string;
  count : option Number;
  offset : option Number
}.

Record Backend : Type := mkBackend {
  env_DOMO_DEVELOPER_TOKEN : option string;
  (* url, payload, token: response.data *)
  axios_post : string -> Json -> option string -> JsError + option Json;
  stringify : Json -> string;
  stringify_indented : Json -> string
}.

Definition search_url : string :=
  "https://gwcteq-partner.domo.com/api/search/v1/query".

Definition payload (args : Args) : Json :=
  JObj [("entities"%string, JArr [JStr "DATAFLOW"]);
        ("filters"%string,
         JArr [JObj [("field"%string, JStr "name_sort");
                     ("filterType"%string, JStr "wildcard");
                     ("query"%string, JStr ("*" ++ query args ++ "*"))]]);
        ("combineResults"%string, JBool true);
        ("query"%string, JStr "*");
        ("count"%string,
         JNum (match count args with Some n => n | None => number_of_Z 100 end));
        ("offset"%string,
         JNum (match offset args with Some n => n | None => number_of_Z 0 end));
        ("sort"%string,
         JObj [("isRelevance"%string, JBool false);
               ("fieldSorts"%string,
                JArr [JObj [("field"%string, JStr "create_date");
                            ("sortOrder"%string, JStr "DESC")]])])].

(** [(ds) => ({ name: ds.name, id: ds.id })] *)
Definition dataset (ds : Json) : JsError + Json :=
  let* name_ := read (Some ds) "name" in
  let* id_ := read (Some ds) "id" in
  inr (JObj (GetUsers.property "name" name_ ++ GetUsers.property "id" id_)).

(** [v?.map(dataset)]: undefined for an undefined or null [v]; any other
    value that is not an array has no [map] to call. *)
Definition datasets (expr : string) (v : option Json) : JsError + option Json :=
  match v with
  | None | Some JNull => inr None
  | Some (JArr items) =>
      let* mapped := map_throwing dataset items in
      inr (Some (JArr mapped))
  | Some _ => inl (TypeError (expr ++ "?.map is not a function"))
  end.

(** The callback of [searchObjects.map]. *)
Definition simplify (obj : Json) : JsError + Json :=
  let* name_ := read (Some obj) "name" in
  let* databaseId := read (Some obj) "databaseId" in
  let* inputs := read (Some obj) "inputDatasets" in
  let* inputDatasets := datasets "obj.inputDatasets" inputs in
  let* outputs := read (Some obj) "outputDatasets" in
  let* outputDatasets := datasets "obj.outputDatasets" outputs in
  inr (JObj (GetUsers.property "name" name_ ++
             GetUsers.property "databaseId" databaseId ++
             GetUsers.property "inputDatasets" inputDatasets ++
             GetUsers.property "outputDatasets" outputDatasets)).

(** The [try] block of the handler. *)
Definition try_block (b : Backend) (args : Args) : JsError + ToolResult :=
  let* data := axios_post b search_url (payload args) (env_DOMO_DEVELOPER_TOKEN b) in
  let* searchObjects := read data "searchObjects" in
  let* objs :=
    elements "(response.data.searchObjects || [])" "map" (or_empty searchObjects) in
  let* simplifiedResults := map_throwing simplify objs in
  let* total := read data "totalResultCount" in
  inr (GetUsers.text_result
         (stringify_indented b
            (JObj (GetUsers.property "total" total ++
                   [("results"%string, JArr simplifiedResults)])))
         false).

Definition diagnostic (b : Backend) (error : JsError) : string :=
  ("Error searching dataflows: " ++ message error ++ " - "
     ++ stringify b (GetUsers.error_data error))%string.

(** The registered handler. *)
Definition search_dataflows (b : Backend) (args : Args) : ToolResult :=
  match try_block b args with
  | inr result => result
  | inl error => GetUsers.text_result (diagnostic b error) true
  end.

End SearchDataflows.

(** ** The [run-dataflow] tool of [src/server.ts] *)

Module RunDataflow.

Record Backend : Type := mkBackend {
  env_DOMO_DEVELOPER_TOKEN : option string;
  axios_post : string -> Json -> option string -> JsError + option Json;
  stringify : Json -> string;
  stringify_indented : Json -> string
}.

(** The text of this tool is what [JSON.stringify] makes of the response
    body, which is undefined for an undefined body. *)
Record Item : Type := mkItem {
  item_type : string;
  item_text : option string
}.

Record Result : Type := mkResult {
  result_content : list Item;
  isError : bool
}.

Definition executions_url (databaseId : string) : string :=
  "https://gwcteq-partner.domo.com/api/dataprocessing/v1/dataflows/"
    ++ databaseId ++ "/executions".

(** The [try] block of the handler. *)
Definition try_block (b : Backend) (databaseId : string) : JsError + Result :=
  let* data :=
    axios_post b (executions_url databaseId) (JObj []) (env_DOMO_DEVELOPER_TOKEN b) in
  inr (mkResult [mkItem "text" (option_map (stringify_indented b) data)] false).

Definition diagnostic (b : Backend) (databaseId : string) (error : JsError) : string :=
  ("Error running dataflow " ++ databaseId ++ ": " ++ message error ++ " - "
     ++ stringify b (GetUsers.error_data error))%string.

(** The registered handler. *)
Definition run_dataflow (b : Backend) (databaseId : string) : Result :=
  match try_block b databaseId with
  | inr result => result
  | inl error => mkResult [mkItem "text" (Some (diagnostic b databaseId error))] true
  end.

End RunDataflow.

(** ** The [search-workflows] tool of [src/server.ts] *)

Module SearchWorkflows.

Record Args : Type := mkArgs {
  query : string;
  count : option Number;
  offset : option Number
}.

Record Backend : Type := mkBackend {
  env_DOMO_DEVELOPER_TOKEN : option string;
  axios_post : string -> Json -> option string -> JsError + option Json;
  stringify : Json -> string;
  stringify_indented : Json -> string
}.

Definition search_url : string :=
  "https://gwcteq-partner.domo.com/api/search/v1/query".

Definition payload (args : Args) : Json :=
  JObj [("query"%string, JStr ("*" ++ query args ++ "*"));
        ("entityList"%string, JArr [JArr [JStr "workflow_model"]]);
        ("count"%string,
         JNum (match count args with Some n => n | None => number_of_Z 1000 end));
        ("offset"%string,
         JNum (match offset args with Some n => n | None => number_of_Z 0 end));
        ("sort"%string,
         JObj [("fieldSorts"%string,
                JArr [JObj [("field"%string, JStr "last_modified");
                            ("sortOrder"%string, JStr "DESC")]]);
               ("isRelevance"%string, JBool false)]);
        ("filters"%string, JArr []);
        ("useEntities"%string, JBool true);
        ("combineResults"%string, JBool true);
        ("facetValueLimit"%string, JNum (number_of_Z 1000));
        ("hideSearchObjects"%string, JBool false)].

(** The callback of [searchObjects.map]. *)
Definition simplify (obj : Json) : JsError + Json :=
  let* uuid := read (Some obj) "uuid" in
  let* name_ := read (Some obj) "name" in
  let* ownedByName := read (Some obj) "ownedByName" in
  let* entityType := read (Some obj) "entityType" in
  let* active := read (Some obj) "active" in
  let* totalVersions := read (Some obj) "totalVersions" in
  let* deployedVersions := read (Some obj) "deployedVersions" in
  let* createDate := read (Some obj) "createDate" in
  let* lastModified := read (Some obj) "lastModified" in
  inr (JObj (GetUsers.property "id" uuid ++
             GetUsers.property "name" name_ ++
             GetUsers.property "ownedName" ownedByName ++
             GetUsers.property "type" entityType ++
             GetUsers.property "active" active ++
             GetUsers.property "totalVersions" totalVersions ++
             GetUsers.property "deployedVersions" deployedVersions ++
             GetUsers.property "createDate" createDate ++
             GetUsers.property "lastModified" lastModified)).

(** The [try] block of the handler. *)
Definition try_block (b : Backend) (args : Args) : JsError + ToolResult :=
  let* data := axios_post b search_url (payload args) (env_DOMO_DEVELOPER_TOKEN b) in
  let* searchObjects := read data "searchObjects" in
  let* objs :=
    elements "(response.data.searchObjects || [])" "map" (or_empty searchObjects) in
  let* simplifiedResults := map_throwing simplify objs in
  let* total := read data "totalResultCount" in
  inr (GetUsers.text_result
         (stringify_indented b
            (JObj (GetUsers.property "total" total ++
                   [("results"%string, JArr simplifiedResults)])))
         false).

Definition diagnostic (b : Backend) (error : JsError) : string :=
  ("Error searching workflows: " ++ message error ++ " - "
     ++ stringify b (GetUsers.error_data error))%string.

(** The registered handler. *)
Definition search_workflows (b : Backend) (args : Args) : ToolResult :=
  match try_block b args with
  | inr result => result
  | inl error => GetUsers.text_result (diagnostic b error) true
  end.

End SearchWorkflows.

(** ** The [get-workflow-model] tool of [src/server.ts] *)

Module GetWorkflowModel.

Record Backend : Type := mkBackend {
  env_DOMO_DEVELOPER_TOKEN : option string;
  axios_get : string -> option string -> JsError + option Json;
  stringify : Json -> string;
  stringify_indented : Json -> string
}.

Definition model_url (workflowId : string) : string :=
  "https://gwcteq-partner.domo.com/api/workflow/v1/models/"
    ++ workflowId ++ "?parts=users".

(** [(v) => ({ version: v.version, createdOn: v.createdOn, active: v.active })] *)
Definition version (v : Json) : JsError + Json :=
  let* version_ := read (Some v) "version" in
  let* createdOn := read (Some v) "createdOn" in
  let* active := read (Some v) "active" in
  inr (JObj (GetUsers.property "version" version_ ++
             GetUsers.property "createdOn" createdOn ++
             GetUsers.property "active" active)).

(** [(p) => ({ name: p.name, permissions: p.permissions })] *)
Definition permission (p : Json) : JsError + Json :=
  let* name_ := read (Some p) "name" in
  let* permissions := read (Some p) "permissions" in
  inr (JObj (GetUsers.property "name" name_ ++
             GetUsers.property "permissions" permissions)).

(** The [try] block of the handler. *)
Definition try_block (b : Backend) (workflowId : string) : JsError + ToolResult :=
  let* data := axios_get b (model_url workflowId) (env_DOMO_DEVELOPER_TOKEN b) in
  let* name_ := read data "name" in
  let* id_ := read data "id" in
  let* createdOn := read data "createdOn" in
  let* updatedOn := read data "updatedOn" in
  let simplifiedBasicInfo :=
    JObj (GetUsers.property "name" name_ ++ GetUsers.property "id" id_ ++
          GetUsers.property "createdOn" createdOn ++
          GetUsers.property "updatedOn" updatedOn) in
  let* versions := read data "versions" in
  let* vs := elements "(response.data.versions || [])" "map" (or_empty versions) in
  let* simplifiedVersions := map_throwing version vs in
  let* userPermissions := read data "userPermissions" in
  let* ps :=
    elements "(response.data.userPermissions || [])" "map" (or_empty userPermissions) in
  let* simplifiedPermissions := map_throwing permission ps in
  inr (GetUsers.text_result
         (stringify_indented b
            (JObj [("basicInfo"%string, simplifiedBasicInfo);
                   ("versions"%string, JArr simplifiedVersions);
                   ("userPermissions"%string, JArr simplifiedPermissions)]))
         false).

Definition diagnostic (b : Backend) (workflowId : string) (error : JsError) : string :=
  ("Error fetching workflow model " ++ workflowId ++ ": " ++ message error ++ " - "
     ++ stringify b (GetUsers.error_data error))%string.

(** The registered handler. *)
Definition get_workflow_model (b : Backend) (workflowId : string) : ToolResult :=
  match try_block b workflowId with
  | inr result => result
  | inl error => GetUsers.text_result (diagnostic b workflowId error) true
  end.

End GetWorkflowModel.

(** ** The command-line client ([src/client.ts])

    [main] keeps in local variables what [src/api.ts] keeps in module
    variables: the MCP client, the listed tools, the OpenAI client and the
    message list.  They are held in a [Server] record whose [groq] field
    stays empty.  The loop over the tool calls is the one of the handler;
    of the console output, the answer line and the error line are kept. *)

Module Cli.

Definition system_prompt : string :=
  "You are a helpful assistant. You can use tools to create users.".

Definition example_client : McpClient := mkClient "example-client" "1.0.0".

(** What a turn prints: [Bot: ...] or, from the [catch], the error. *)
Inductive Line : Type :=
| Bot (answer : option string)
| Failed (error : JsError).

(** The [try] block of the loop body; its value is what [Bot:] shows. *)
Definition turn_block (w : World) : M (option string) :=
  s <- get ;;
  let body := mkBody "gpt-4" (messages s) (Some (toProviderSchema (tools s))) in
  completion <- remote (fun t => create w t OpenAIClient body)
                       (EvComplete OpenAIClient body) ;;
  message <- first_choice completion ;;
  push (AssistantMsg message) ;;
  match tool_calls message with
  | Some calls =>
      for_of calls (run_tool_call w) ;;
      s <- get ;;
      let finalBody := mkBody "gpt-4" (messages s) None in
      finalResponse <- remote (fun t => create w t OpenAIClient finalBody)
                              (EvComplete OpenAIClient finalBody) ;;
      finalMessage <- first_choice finalResponse ;;
      let finalContent := content finalMessage in
      push (AssistantMsg finalMessage) ;;
      ret finalContent
  | None => ret (content message)
  end.

(** One pass of the loop body for an input that is not "exit".  No statement
    of the block returns from [main], so the third case never arises. *)
Definition turn (w : World) (userInput : string) (s : Server)
  : Line * Server * Transcript :=
  match (push (UserMsg userInput) ;; turn_block w) s [] with
  | (Value answer, s', t') => (Bot answer, s', t')
  | (Thrown error, s', t') => (Failed error, s', t')
  | (Returned _, s', t') => (Bot None, s', t')
  end.

(** [while (true)] over the lines typed, each with the world it meets: the
    lines printed, the final state and whether "exit" ended the loop (when
    it did not, the loop waits for more input). *)
Fixpoint loop (inputs : list (World * string)) (s : Server)
  : list Line * Server * bool :=
  match inputs with
  | [] => ([], s, false)
  | (w, userInput) :: rest =>
      if (toLowerCase userInput =? "exit")%string then ([], s, true)
      else
        let '(line, s', _) := turn w userInput s in
        let '(lines, s'', ended) := loop rest s' in
        (line :: lines, s'', ended)
  end.

(** How [main] ends. *)
Inductive Run : Type :=
| Exit1                                   (* process.exit(1): no API key *)
| Rejected (error : JsError)              (* connect or listTools failed *)
| Looped (lines : list Line) (s : Server) (ended : bool).

Definition main (w : World) (inputs : list (World * string)) : Run :=
  if truthy_opt (env_OPENAI_API_KEY w) then
    match connect w [] with
    | inl e => Rejected e
    | inr _ =>
        match listTools w [EvConnect (connect w [])] with
        | inl e => Rejected e
        | inr ts =>
            let '(lines, s, ended) :=
              loop inputs (mkServer (Some example_client) ts (Some OpenAIClient) None
                                    [SystemMsg system_prompt]) in
            Looped lines s ended
        end
    end
  else Exit1.

End Cli.
(** ** Vocabulary of the properties *)

Definition with_messages (s : Server) (ms : list Message) : Server :=
  mkServer (client s) (tools s) (openai s) (groq s) ms.

(** The provider of a request, after the default of the destructuring; it
    names a provider when it is a string. *)
Definition provider_of (req : Request) : Json :=
  match req_provider req with Some p => p | None => JStr "groq" end.

(** A provider the handler can serve: a known name whose client exists. *)
Definition provider_available (s : Server) (p : string) : bool :=
  if (toLowerCase p =? "openai")%string then
    match openai s with Some _ => true | None => false end
  else if (toLowerCase p =? "groq")%string then
    match groq s with Some _ => true | None => false end
  else false.

(** The tool calls the loop does not skip. *)
Definition function_calls (calls : list ToolCall) : list ToolCall :=
  filter (fun c => (tc_type c =? "function")%string) calls.

(** The messages pushed, the completion requests sent and the tools
    dispatched, as the transcript records them. *)
Definition pushes (t : Transcript) : list Message :=
  flat_map (fun e => match e with EvPush m => [m] | _ => [] end) t.

Definition completions (t : Transcript) : list (CompletionBody * (JsError + Completion)) :=
  flat_map (fun e => match e with EvComplete _ b o => [(b, o)] | _ => [] end) t.

Definition dispatches (t : Transcript) : list (string * Json) :=
  flat_map (fun e => match e with EvCallTool n a _ => [(n, a)] | _ => [] end) t.

Definition is_tool (m : Message) : bool :=
  match m with ToolMsg _ _ => true | _ => false end.

Definition tool_ids (ms : list Message) : list string :=
  flat_map (fun m => match m with ToolMsg i _ => [i] | _ => [] end) ms.

(** A tool call that was parsed, dispatched and answered. *)
Record Dispatch : Type := mkDispatch {
  d_call : ToolCall;
  d_args : Json;
  d_result : ToolResult
}.

Definition tool_message (w : World) (d : Dispatch) : Message :=
  ToolMsg (tc_id (d_call d))
          (JSON_stringify w (json_of_content (result_content (d_result d)))).

Definition dispatch_events (w : World) (d : Dispatch) : Transcript :=
  [EvCallTool (tc_name (d_call d)) (d_args d) (inr (d_result d));
   EvPush (tool_message w d)].

(** The history the limit statement leaves when run in state [s]. *)
Definition limited (s : Server) : list Message :=
  messages (snd (fst (limit_history s []))).

Definition chat_ok (answer : option string) (selectedProvider selectedModel : string)
  : Response :=
  mkResponse 200 (ChatBody answer selectedProvider selectedModel).

Definition no_choice : JsError :=
  TypeError "Cannot read properties of undefined (reading 'message')".

Definition surfaced (e : JsError) : Response :=
  mkResponse 500 (ErrorBody (message e)).

Definition prompt_required : Response :=
  mkResponse 400 (ErrorBody "Prompt is required").

(** The outcome of lines 78-100 as a function of the module state. *)
Definition selection (s : Server) (provider : string)
  : Response + (LlmClient * string) :=
  if (toLowerCase provider =? "openai")%string then
    match openai s with
    | None => inl (not_configured "OpenAI")
    | Some c => inr (c, "gpt-4o-mini"%string)
    end
  else if (toLowerCase provider =? "groq")%string then
    match groq s with
    | None => inl (not_configured "Groq")
    | Some c => inr (c, "llama-3.1-8b-instant"%string)
    end
  else inl (mkResponse 400 (ErrorBody ("Unsupported provider: " ++ provider))).


(** [choices[0].message] of an answered request, or the error that the
    request or the property access throws. *)
Definition first_message (answer : JsError + Completion) : JsError + AssistantMessage :=
  match answer with
  | inl e => inl e
  | inr [] => inl no_choice
  | inr (m :: _) => inr m
  end.

(** The stations of a turn: the state once the user message is in, the first
    request and its answer, the history and transcript once the tool calls
    [ds] are served, the follow-up request and its answer. *)
Definition after_user (s : Server) (prompt : string) : Server :=
  with_messages s (limit (messages s ++ [UserMsg prompt])).

Definition first_body (sm : string) (s : Server) (prompt : string) : CompletionBody :=
  mkBody sm (messages (after_user s prompt)) (Some (toProviderSchema (tools s))).

Definition first_answer (w : World) (c : LlmClient) (sm : string) (s : Server)
    (t : Transcript) (prompt : string) : JsError + Completion :=
  create w (t ++ [EvPush (UserMsg prompt)]) c (first_body sm s prompt).

Definition asked_first (w : World) (c : LlmClient) (sm : string) (s : Server)
    (t : Transcript) (prompt : string) : Transcript :=
  t ++ [EvPush (UserMsg prompt);
        EvComplete c (first_body sm s prompt) (first_answer w c sm s t prompt)].

Definition history_served (w : World) (s : Server) (prompt : string)
    (m : AssistantMessage) (ds : list Dispatch) : list Message :=
  messages (after_user s prompt) ++ [AssistantMsg m] ++ map (tool_message w) ds.

Definition tools_served (w : World) (c : LlmClient) (sm : string) (s : Server)
    (t : Transcript) (prompt : string) (m : AssistantMessage) (ds : list Dispatch)
  : Transcript :=
  asked_first w c sm s t prompt ++ [EvPush (AssistantMsg m)]
    ++ flat_map (dispatch_events w) ds.

Definition final_body (w : World) (sm : string) (s : Server) (prompt : string)
    (m : AssistantMessage) (ds : list Dispatch) : CompletionBody :=
  mkBody sm (history_served w s prompt m ds) None.

Definition final_answer (w : World) (c : LlmClient) (sm : string) (s : Server)
    (t : Transcript) (prompt : string) (m : AssistantMessage) (ds : list Dispatch)
  : JsError + Completion :=
  create w (tools_served w c sm s t prompt m ds) c (final_body w sm s prompt m ds).

Definition parsed (w : World) (d : Dispatch) : Prop :=
  JSON_parse w (tc_arguments (d_call d)) = inr (d_args d).

(** The loop threw [e] after serving [ds]: the next call typed "function"
    failed to parse, which leaves no trace, or its dispatch was rejected. *)
Definition failed_at (w : World) (calls : list ToolCall) (ds : list Dispatch)
    (tail : Transcript) (e : JsError) : Prop :=
  exists c,
    nth_error (function_calls calls) (length ds) = Some c /\
    ((tail = [] /\ JSON_parse w (tc_arguments c) = inl e) \/
     (exists a, JSON_parse w (tc_arguments c) = inr a /\
                tail = [EvCallTool (tc_name c) a (inl e)])).

(** The five ways lines 105-168 can end. *)
Inductive turn_run (w : World) (c : LlmClient) (sp sm prompt : string)
    (s : Server) (t : Transcript) : Outcome Empty_set -> Server -> Transcript -> Prop :=
| first_request_fails (e : JsError) :
    first_message (first_answer w c sm s t prompt) = inl e ->
    turn_run w c sp sm prompt s t
      (Thrown e) (after_user s prompt) (asked_first w c sm s t prompt)
| answered_directly (m : AssistantMessage) :
    first_message (first_answer w c sm s t prompt) = inr m ->
    tool_calls m = None ->
    turn_run w c sp sm prompt s t
      (Returned (chat_ok (content m) sp sm))
      (with_messages s (history_served w s prompt m []))
      (tools_served w c sm s t prompt m [])
| tool_step_fails (m : AssistantMessage) (calls : list ToolCall)
    (ds : list Dispatch) (tail : Transcript) (e : JsError) :
    first_message (first_answer w c sm s t prompt) = inr m ->
    tool_calls m = Some calls ->
    map d_call ds = firstn (length ds) (function_calls calls) ->
    Forall (parsed w) ds ->
    failed_at w calls ds tail e ->
    turn_run w c sp sm prompt s t
      (Thrown e)
      (with_messages s (history_served w s prompt m ds))
      (tools_served w c sm s t prompt m ds ++ tail)
| follow_up_fails (m : AssistantMessage) (calls : list ToolCall)
    (ds : list Dispatch) (e : JsError) :
    first_message (first_answer w c sm s t prompt) = inr m ->
    tool_calls m = Some calls ->
    map d_call ds = function_calls calls ->
    Forall (parsed w) ds ->
    first_message (final_answer w c sm s t prompt m ds) = inl e ->
    turn_run w c sp sm prompt s t
      (Thrown e)
      (with_messages s (history_served w s prompt m ds))
      (tools_served w c sm s t prompt m ds
         ++ [EvComplete c (final_body w sm s prompt m ds)
                        (final_answer w c sm s t prompt m ds)])
| follow_up_answers (m : AssistantMessage) (calls : list ToolCall)
    (ds : list Dispatch) (fm : AssistantMessage) :
    first_message (first_answer w c sm s t prompt) = inr m ->
    tool_calls m = Some calls ->
    map d_call ds = function_calls calls ->
    Forall (parsed w) ds ->
    first_message (final_answer w c sm s t prompt m ds) = inr fm ->
    turn_run w c sp sm prompt s t
      (Returned (chat_ok (content fm) sp sm))
      (with_messages s (history_served w s prompt m ds ++ [AssistantMsg fm]))
      (tools_served w c sm s t prompt m ds
         ++ [EvComplete c (final_body w sm s prompt m ds)
                        (final_answer w c sm s t prompt m ds);
             EvPush (AssistantMsg fm)]).

(** What the handler sends for the outcome of its [try] block. *)
Definition response_of (o : Outcome Empty_set) : Response :=
  match o with
  | Value v => match v with end
  | Returned r => r
  | Thrown e => surfaced e
  end.

(** Pairing of a tool call with its answer, for the window claims: an
    assistant message requests the call [id], a tool message answers it. *)
Definition requests (id_ : string) (m : Message) : bool :=
  match m with
  | AssistantMsg a =>
      match tool_calls a with
      | Some calls => existsb (fun c => (tc_id c =? id_)%string) calls
      | None => false
      end
  | _ => false
  end.

Definition answers (id_ : string) (m : Message) : bool :=
  match m with
  | ToolMsg i _ => (i =? id_)%string
  | _ => false
  end.

(** In [window] the request and the answer of call [id] are both present or
    both absent. *)
Definition pair_intact (window : list Message) (id_ : string) : bool :=
  Bool.eqb (existsb (requests id_) window) (existsb (answers id_) window).

(** An eviction from [before] to [after] that separates no pair. *)
Definition pairing_kept (before after : list Message) : Prop :=
  forall id_ : string,
    existsb (requests id_) before = true ->
    existsb (answers id_) before = true ->
    pair_intact after id_ = true.

Definition not_system (m : Message) : Prop := role m <> system.

(** The loop over [calls] meets no throw: the arguments of every call typed
    "function" parse, and no dispatch recorded in the transcript was
    rejected. *)
Definition all_parse (w : World) (calls : list ToolCall) : Prop :=
  Forall (fun c => exists j, JSON_parse w (tc_arguments c) = inr j)
         (function_calls calls).

Definition none_rejected (t : Transcript) : Prop :=
  forall n a e, ~ In (EvCallTool n a (inl e)) t.

(** The tool message that folds result [r] into the history under [id]. *)
Definition folded (w : World) (id_ : string) (r : ToolResult) : Message :=
  ToolMsg id_ (JSON_stringify w (json_of_content (result_content r))).

(** The value of property [key] of a decoded JSON value that is not null. *)
Definition field (v : Json) (key : string) : option Json :=
  match v with
  | JObj fields => assoc key fields
  | _ => None
  end.

Definition field_of (data : option Json) (key : string) : option Json :=
  match data with
  | Some v => field v key
  | None => None
  end.

(** An invocation of one of the seven tools registered in [src/server.ts],
    with the backend it meets. *)
Inductive Invocation : Type :=
| InvokeGetUsers (b : GetUsers.Backend) (args : GetUsers.Args)
| InvokeSearchDataflows (b : SearchDataflows.Backend) (args : SearchDataflows.Args)
| InvokeRunDataflow (b : RunDataflow.Backend) (databaseId : string)
| InvokeQueryCollections (b : QueryCollections.Backend) (args : QueryCollections.Args)
| InvokeGetCollectionDocuments (b : GetCollectionDocuments.Backend) (collectionId : string)
| InvokeSearchWorkflows (b : SearchWorkflows.Backend) (args : SearchWorkflows.Args)
| InvokeGetWorkflowModel (b : GetWorkflowModel.Backend) (workflowId : string).

(** The answer of the REST call the handler makes: a rejection or the body
    of the response. *)
Definition rest_answer (i : Invocation) : JsError + option Json :=
  match i with
  | InvokeGetUsers b _ =>
      GetUsers.axios_get b GetUsers.users_url (GetUsers.env_DOMO_DEVELOPER_TOKEN b)
  | InvokeSearchDataflows b args =>
      SearchDataflows.axios_post b SearchDataflows.search_url
        (SearchDataflows.payload args) (SearchDataflows.env_DOMO_DEVELOPER_TOKEN b)
  | InvokeRunDataflow b databaseId =>
      RunDataflow.axios_post b (RunDataflow.executions_url databaseId) (JObj [])
        (RunDataflow.env_DOMO_DEVELOPER_TOKEN b)
  | InvokeQueryCollections b args =>
      QueryCollections.axios_post b QueryCollections.collections_url
        (QueryCollections.payload args) (QueryCollections.env_DOMO_DEVELOPER_TOKEN b)
  | InvokeGetCollectionDocuments b collectionId =>
      GetCollectionDocuments.axios_get b
        (GetCollectionDocuments.documents_url collectionId)
        (GetCollectionDocuments.env_DOMO_DEVELOPER_TOKEN b)
  | InvokeSearchWorkflows b args =>
      SearchWorkflows.axios_post b SearchWorkflows.search_url
        (SearchWorkflows.payload args) (SearchWorkflows.env_DOMO_DEVELOPER_TOKEN b)
  | InvokeGetWorkflowModel b workflowId =>
      GetWorkflowModel.axios_get b (GetWorkflowModel.model_url workflowId)
        (GetWorkflowModel.env_DOMO_DEVELOPER_TOKEN b)
  end.

(** The error the [try] block of the handler throws, if it throws. *)
Definition error_of {A : Type} (block : JsError + A) : option JsError :=
  match block with inl e => Some e | inr _ => None end.

Definition thrown (i : Invocation) : option JsError :=
  match i with
  | InvokeGetUsers b args => error_of (GetUsers.try_block b args)
  | InvokeSearchDataflows b args => error_of (SearchDataflows.try_block b args)
  | InvokeRunDataflow b databaseId => error_of (RunDataflow.try_block b databaseId)
  | InvokeQueryCollections b args => error_of (QueryCollections.try_block b args)
  | InvokeGetCollectionDocuments b collectionId =>
      error_of (GetCollectionDocuments.try_block b collectionId)
  | InvokeSearchWorkflows b args => error_of (SearchWorkflows.try_block b args)
  | InvokeGetWorkflowModel b workflowId =>
      error_of (GetWorkflowModel.try_block b workflowId)
  end.

(** What the handler returns, seen through its [isError] flag and the type
    and text of its content items. *)
Definition failed (i : Invocation) : bool :=
  match i with
  | InvokeGetUsers b args => isError (GetUsers.get_users b args)
  | InvokeSearchDataflows b args => isError (SearchDataflows.search_dataflows b args)
  | InvokeRunDataflow b databaseId =>
      RunDataflow.isError (RunDataflow.run_dataflow b databaseId)
  | InvokeQueryCollections b args => isError (QueryCollections.query_collections b args)
  | InvokeGetCollectionDocuments b collectionId =>
      GetCollectionDocuments.isError
        (GetCollectionDocuments.get_collection_documents b collectionId)
  | InvokeSearchWorkflows b args => isError (SearchWorkflows.search_workflows b args)
  | InvokeGetWorkflowModel b workflowId =>
      isError (GetWorkflowModel.get_workflow_model b workflowId)
  end.

Definition content_of (i : Invocation) : list (string * option string) :=
  match i with
  | InvokeGetUsers b args =>
      map (fun c => (item_type c, Some (item_text c)))
          (result_content (GetUsers.get_users b args))
  | InvokeSearchDataflows b args =>
      map (fun c => (item_type c, Some (item_text c)))
          (result_content (SearchDataflows.search_dataflows b args))
  | InvokeRunDataflow b databaseId =>
      map (fun c => (RunDataflow.item_type c, RunDataflow.item_text c))
          (RunDataflow.result_content (RunDataflow.run_dataflow b databaseId))
  | InvokeQueryCollections b args =>
      map (fun c => (item_type c, Some (item_text c)))
          (result_content (QueryCollections.query_collections b args))
  | InvokeGetCollectionDocuments b collectionId =>
      map (fun c => (GetCollectionDocuments.item_type c,
                     Some (GetCollectionDocuments.item_text c)))
          (GetCollectionDocuments.result_content
             (GetCollectionDocuments.get_collection_documents b collectionId))
  | InvokeSearchWorkflows b args =>
      map (fun c => (item_type c, Some (item_text c)))
          (result_content (SearchWorkflows.search_workflows b args))
  | InvokeGetWorkflowModel b workflowId =>
      map (fun c => (item_type c, Some (item_text c)))
          (result_content (GetWorkflowModel.get_workflow_model b workflowId))
  end.

(** The diagnostic text the [catch] block of the handler builds. *)
Definition diagnostic_of (i : Invocation) (error : JsError) : string :=
  match i with
  | InvokeGetUsers b _ => GetUsers.diagnostic b error
  | InvokeSearchDataflows b _ => SearchDataflows.diagnostic b error
  | InvokeRunDataflow b databaseId => RunDataflow.diagnostic b databaseId error
  | InvokeQueryCollections b _ => QueryCollections.diagnostic b error
  | InvokeGetCollectionDocuments b collectionId =>
      GetCollectionDocuments.diagnostic b collectionId error
  | InvokeSearchWorkflows b _ => SearchWorkflows.diagnostic b error
  | InvokeGetWorkflowModel b workflowId => GetWorkflowModel.diagnostic b workflowId error
  end.

(** The handler reports a failure: [isError] is set and the content is one
    text item, the diagnostic text of [error]. *)
Definition reports (i : Invocation) (error : JsError) : Prop :=
  failed i = true /\
  content_of i = [("text"%string, Some (diagnostic_of i error))].

(** Bodies a handler cannot decode: no body to read a property of; in the
    place of a list, a value that is neither falsy nor an array, or an
    array with a null element; a body that is not the array of users. *)
Definition no_body (data : option Json) : Prop :=
  data = None \/ data = Some JNull.

Definition not_a_list (v : option Json) : Prop :=
  forall items, or_empty v <> JArr items.

Definition not_an_array (data : option Json) : Prop :=
  forall items, data <> Some (JArr items).

Definition holds_null (v : option Json) : Prop :=
  exists items, or_empty v = JArr items /\ In JNull items.

(** A list the handler maps over that it cannot decode: not a list, or one
    with a null element. *)
Definition bad_list (v : option Json) : Prop :=
  not_a_list v \/ holds_null v.

Definition undecodable (i : Invocation) (data : option Json) : Prop :=
  match i with
  | InvokeGetUsers _ _ =>
      not_an_array data \/ exists items, data = Some (JArr items) /\ In JNull items
  | InvokeSearchDataflows _ _ | InvokeSearchWorkflows _ _ =>
      no_body data \/ bad_list (field_of data "searchObjects")
  | InvokeRunDataflow _ _ => False
  | InvokeQueryCollections _ _ =>
      no_body data \/ bad_list (field_of data "ownedBy") \/
      bad_list (field_of data "collections")
  | InvokeGetCollectionDocuments _ _ => bad_list data
  | InvokeGetWorkflowModel _ _ =>
      no_body data \/ bad_list (field_of data "versions") \/
      bad_list (field_of data "userPermissions")
  end.

(** ** Vocabulary of the further properties *)

(** The completion requests of a transcript all go to client [c] with model
    [mdl]. *)
Definition asks_only (c : LlmClient) (mdl : string) (t : Transcript) : Prop :=
  Forall (fun e => match e with
                   | EvComplete c' b _ => c' = c /\ cb_model b = mdl
                   | _ => True
                   end) t.


(** The catalog [initMcpClient] stores when run from the initial state: the
    listed tools when connecting and listing both succeed, nothing
    otherwise. *)
Definition fetched_catalog (w : World) : list ToolDescriptor :=
  match connect w [] with
  | inl _ => []
  | inr _ =>
      match listTools w [EvConnect (connect w [])] with
      | inr ts => ts
      | inl _ => []
      end
  end.

(** In a transcript every answered tool dispatch is directly followed by the
    push of a tool message holding the serialised content of the answer. *)
Fixpoint folded_in_place (w : World) (t : Transcript) : Prop :=
  match t with
  | [] => True
  | EvCallTool _ _ (inr r) :: rest =>
      match rest with
      | EvPush (ToolMsg _ text) :: rest' =>
          text = JSON_stringify w (json_of_content (result_content r)) /\
          folded_in_place w rest'
      | _ => False
      end
  | _ :: rest => folded_in_place w rest
  end.

(** A dispatch [(name, args)] is the one the loop makes for call [c]. *)
Definition dispatch_of (w : World) (c : ToolCall) (na : string * Json) : Prop :=
  fst na = tc_name c /\ JSON_parse w (tc_arguments c) = inr (snd na).

(** The request with its provider replaced by the name [p]. *)
Definition with_provider (req : Request) (p : string) : Request :=
  mkRequest (req_prompt req) (Some (JStr p)) (req_model req).

(** [get-users] on well-formed users.  A property the filters and the
    simplification can work on is a string or a falsy value. *)
Definition text_or_falsy (v : option Json) : Prop :=
  match v with
  | None | Some (JStr _) => True
  | Some j => truthy_json j = false
  end.

(** [u.detail?.email] of a value that is not null. *)
Definition detail_email_of (u : Json) : option Json :=
  match field u "detail" with
  | None | Some JNull => None
  | Some d => field d "email"
  end.

(** An element of the response on which no callback of the handler throws:
    it is not null, and its names, emails and role are strings or falsy. *)
Definition readable_user (u : Json) : Prop :=
  u <> JNull /\
  text_or_falsy (field u "displayName") /\
  text_or_falsy (field u "userName") /\
  text_or_falsy (field u "name") /\
  text_or_falsy (field u "email") /\
  text_or_falsy (field u "emailAddress") /\
  text_or_falsy (detail_email_of u) /\
  text_or_falsy (field u "role").

(** The test of a filter on a property of a readable user. *)
Definition holds (b : GetUsers.Backend) (v : option Json) (test : string -> bool)
  : bool :=
  match v with
  | Some (JStr s) => truthy_string s && test (GetUsers.toLowerCase b s)
  | _ => false
  end.

Definition matches_search (b : GetUsers.Backend) (term : string) (u : Json) : bool :=
  (holds b (field u "displayName") (fun v => GetUsers.includes v term)
   || (holds b (field u "userName") (fun v => GetUsers.includes v term)
       || holds b (field u "name") (fun v => GetUsers.includes v term)))
  || (holds b (field u "email") (fun v => GetUsers.includes v term)
      || (holds b (field u "emailAddress") (fun v => GetUsers.includes v term)
          || holds b (detail_email_of u) (fun v => GetUsers.includes v term))).

Definition matches_start (b : GetUsers.Backend) (term : string) (u : Json) : bool :=
  holds b (field u "displayName") (String.prefix term)
  || (holds b (field u "userName") (String.prefix term)
      || holds b (field u "name") (String.prefix term)).

Definition has_role (b : GetUsers.Backend) (roleTerm : string) (u : Json) : bool :=
  holds b (field u "role") (fun v => (v =? roleTerm)%string).

Definition has_id (b : GetUsers.Backend) (id_ : string) (u : Json) : bool :=
  (GetUsers.to_string b (field u "id") =? id_)%string.

(** A filter is applied only for an argument that is present and not
    empty. *)
Definition wanted (arg : option string) (test : string -> bool) : bool :=
  match arg with
  | Some v => if truthy_string v then test v else true
  | None => true
  end.

(** A user that passes every filter the arguments ask for. *)
Definition selected (b : GetUsers.Backend) (args : GetUsers.Args) (u : Json) : bool :=
  wanted (GetUsers.search args)
         (fun v => matches_search b (GetUsers.toLowerCase b v) u)
  && (wanted (GetUsers.startsWith args)
             (fun v => matches_start b (GetUsers.toLowerCase b v) u)
      && (wanted (GetUsers.role args)
                 (fun v => has_role b (GetUsers.toLowerCase b v) u)
          && wanted (GetUsers.id args) (fun v => has_id b v u))).

(** The raw email of a readable user: the first truthy of detail.email,
    email and emailAddress, else the empty string. *)
Definition raw_email (u : Json) : Json :=
  or_json (detail_email_of u)
    (or_json (field u "email") (or_json (field u "emailAddress") (JStr EmptyString))).

Definition text_of (v : Json) : string :=
  match v with JStr s => s | _ => EmptyString end.

(** What [get-users] keeps of a readable user. *)
Definition simplified_user (u : Json) : Json :=
  JObj (GetUsers.property "id" (field u "id") ++
        GetUsers.property "name"
          (or_value (field u "displayName")
                    (or_value (field u "userName") (field u "name"))) ++
        [("email"%string, JStr (GetUsers.before_underscore (text_of (raw_email u))))] ++
        GetUsers.property "role" (field u "role")).

Definition limit_of (args : GetUsers.Args) : Number :=
  match GetUsers.limit args with Some n => n | None => number_of_Z 50 end.

Definition offset_of (args : GetUsers.Args) : Number :=
  match GetUsers.offset args with Some n => n | None => number_of_Z 0 end.

(** The result of a successful call that found [all] and returns [page]. *)
Definition users_result (b : GetUsers.Backend) (all page : list Json) : ToolResult :=
  GetUsers.text_result
    (GetUsers.stringify_indented b
       (GetUsers.page_json (length all) (length page) page))
    false.

(** The REST answer of the backend. *)
Definition users_answer (b : GetUsers.Backend) : JsError + option Json :=
  GetUsers.axios_get b GetUsers.users_url (GetUsers.env_DOMO_DEVELOPER_TOKEN b).

(** The arguments with the three text filters in lower case. *)
Definition lower_filters (b : GetUsers.Backend) (args : GetUsers.Args) : GetUsers.Args :=
  GetUsers.mkArgs (GetUsers.limit args) (GetUsers.offset args)
                  (option_map (GetUsers.toLowerCase b) (GetUsers.search args))
                  (option_map (GetUsers.toLowerCase b) (GetUsers.startsWith args))
                  (option_map (GetUsers.toLowerCase b) (GetUsers.role args))
                  (GetUsers.id args).

Definition has_underscore (s : string) : Prop :=
  In "_"%char (list_ascii_of_string s).

(** An element on which the simplification throws: null, or with a raw
    email that is not a string. *)
Definition unreadable_email (u : Json) : Prop :=
  u = JNull \/ forall s, raw_email u <> JStr s.

(** A call of [get-users] that asks for no filter. *)
Definition no_filters (args : GetUsers.Args) : Prop :=
  truthy_opt (GetUsers.search args) = false /\
  truthy_opt (GetUsers.startsWith args) = false /\
  truthy_opt (GetUsers.role args) = false /\
  truthy_opt (GetUsers.id args) = false.

(** The ways an unfiltered call fails: the request is rejected, the body is
    not an array, or the simplification throws on an element. *)
Definition unfiltered_failure (b : GetUsers.Backend) : Prop :=
  match users_answer b with
  | inl _ => True
  | inr (Some (JArr items)) => Exists unreadable_email items
  | inr _ => True
  end.

(** The lowering of the runtime leaves a lowered text alone and keeps a
    text that is not empty from becoming empty. *)
Definition lowering_settles (b : GetUsers.Backend) : Prop :=
  (forall s, GetUsers.toLowerCase b (GetUsers.toLowerCase b s)
             = GetUsers.toLowerCase b s) /\
  (forall s, truthy_string (GetUsers.toLowerCase b s) = truthy_string s).

(** What [get-collection-documents] keeps of a document. *)
Definition simplified_document (doc : Json) : Json :=
  JObj (GetUsers.property "id" (field doc "id") ++
        GetUsers.property "content" (field doc "content")).

(** The result of a successful call that shows [docs]. *)
Definition documents_result (b : GetCollectionDocuments.Backend) (docs : list Json)
  : GetCollectionDocuments.Result :=
  GetCollectionDocuments.mkResult
    [GetCollectionDocuments.mkItem "text" (Some GetCollectionDocuments.top5_note)
       (GetCollectionDocuments.stringify_indented b (JArr docs))]
    false.

(** The ways [get-collection-documents] fails: the request is rejected, the
    body is neither empty nor an array, or an element of the array is null. *)
Definition documents_failure (b : GetCollectionDocuments.Backend)
    (collectionId : string) : Prop :=
  match GetCollectionDocuments.axios_get b
          (GetCollectionDocuments.documents_url collectionId)
          (GetCollectionDocuments.env_DOMO_DEVELOPER_TOKEN b) with
  | inl _ => True
  | inr data =>
      match or_empty data with
      | JArr docs => In JNull docs
      | _ => True
      end
  end.

(** [search-dataflows]: a dataset list the handler can map is absent, null
    or an array without null elements; it is kept as the array of the
    name/id pairs, and left out when absent or null. *)
Definition dataset_list (v : option Json) : Prop :=
  match v with
  | None | Some JNull => True
  | Some (JArr items) => ~ In JNull items
  | Some _ => False
  end.

Definition simplified_dataset (ds : Json) : Json :=
  JObj (GetUsers.property "name" (field ds "name") ++
        GetUsers.property "id" (field ds "id")).

Definition simplified_datasets (v : option Json) : option Json :=
  match v with
  | Some (JArr items) => Some (JArr (map simplified_dataset items))
  | _ => None
  end.

Definition readable_dataflow (obj : Json) : Prop :=
  obj <> JNull /\
  dataset_list (field obj "inputDatasets") /\
  dataset_list (field obj "outputDatasets").

(** What [search-dataflows] keeps of a dataflow. *)
Definition simplified_dataflow (obj : Json) : Json :=
  JObj (GetUsers.property "name" (field obj "name") ++
        GetUsers.property "databaseId" (field obj "databaseId") ++
        GetUsers.property "inputDatasets"
          (simplified_datasets (field obj "inputDatasets")) ++
        GetUsers.property "outputDatasets"
          (simplified_datasets (field obj "outputDatasets"))).

(** The result of a successful [search-dataflows] call. *)
Definition dataflows_result (b : SearchDataflows.Backend)
    (total : option Json) (results : list Json) : ToolResult :=
  GetUsers.text_result
    (SearchDataflows.stringify_indented b
       (JObj (GetUsers.property "total" total ++
              [("results"%string, JArr results)])))
    false.

(** The owner entry an element of [ownedBy] stands for. *)
Definition owner_entry (b : QueryCollections.Backend) (o : Json)
  : string * option Json :=
  (QueryCollections.to_key b (field o "ownerId"), field o "ownerName").

(** What [query-collections] keeps of a collection, given the owners map. *)
Definition simplified_collection (b : QueryCollections.Backend)
    (m : QueryCollections.OwnersMap) (c : Json) : Json :=
  JObj (GetUsers.property "id" (field c "id") ++
        GetUsers.property "name" (field c "name") ++
        GetUsers.property "createdOn" (field c "createdOn") ++
        [("ownerName"%string,
          QueryCollections.or_unknown
            (QueryCollections.map_get
               (QueryCollections.to_key b (field c "owner")) m))]).

(** The result of a successful [query-collections] call. *)
Definition collections_result (b : QueryCollections.Backend)
    (totalCount : option Json) (collections : list Json) : ToolResult :=
  GetUsers.text_result
    (QueryCollections.stringify_indented b
       (JObj (GetUsers.property "totalCount" totalCount ++
              [("collections"%string, JArr collections)])))
    false.

(** The command-line client: the lines typed before the first "exit". *)
Fixpoint typed_before_exit (inputs : list (World * string)) : list string :=
  match inputs with
  | [] => []
  | (_, userInput) :: rest =>
      if (toLowerCase userInput =? "exit")%string then []
      else userInput :: typed_before_exit rest
  end.

(** The texts of the user messages of a history. *)
Definition prompts (ms : list Message) : list string :=
  flat_map (fun m => match m with UserMsg x => [x] | _ => [] end) ms.

(** ** Sample worlds and sessions

    Scripted worlds: the k-th completion request and the k-th tool dispatch
    of a turn get the k-th scripted answer; a script that has run out
    answers with a connection error. *)
Module Scenario.

Local Open Scope string_scope.

Definition connection_error : JsError := mkError "Connection error." None.

Definition scripted {A : Type} (script : list (JsError + A)) (asked : nat)
  : JsError + A :=
  nth asked script (inl connection_error).

Definition quote : string := String (ascii_of_nat 34) EmptyString.

(** The argument texts the sample sessions use, with their decodings. *)
Definition known_texts : list (string * Json) :=
  [ ("{}", JObj []) ].

Fixpoint lookup (text : string) (table : list (string * Json)) : option Json :=
  match table with
  | [] => None
  | (k, v) :: rest => if (k =? text)%string then Some v else lookup text rest
  end.

(** [JSON.parse] on the known texts; a syntax error elsewhere. *)
Definition parse (text : string) : JsError + Json :=
  match lookup text known_texts with
  | Some j => inr j
  | None => inl (mkError "Unexpected token in JSON" None)
  end.

Definition join (sep : string) (parts : list string) : string :=
  String.concat sep parts.

(** A number given by its integer value, and the integer part of a number
    that is not infinite. *)
Definition num (z : Z) : Json := JNum (number_of_Z z).

Definition integer_part (x : Number) : Z :=
  match ToIntegerOrInfinity x with Integer z => z | _ => 0%Z end.

(** [JSON.stringify] without indentation, for texts free of characters that
    need escaping and numbers that are integers. *)
Fixpoint stringify (j : Json) : string :=
  match j with
  | JNull => "null"
  | JBool true => "true"
  | JBool false => "false"
  | JNum x => DecimalString.NilZero.string_of_int (Z.to_int (integer_part x))
  | JStr s => quote ++ s ++ quote
  | JArr items => "[" ++ join "," (map stringify items) ++ "]"
  | JObj fields =>
      "{" ++ join "," (map (fun kv => quote ++ fst kv ++ quote ++ ":" ++ stringify (snd kv)) fields) ++ "}"
  end%string.

Definition get_users_tool : ToolDescriptor :=
  mkTool "get-users" (Some "Get the list of all users from the domo.")
         (JObj [("type"%string, JStr "object")]).

(** A world with a Groq key only, a tool endpoint that lists [get-users],
    and the given scripts for completions and tool dispatches. *)
Definition world (answers : list (JsError + Completion))
    (results : list (JsError + ToolResult)) : World :=
  mkWorld None (Some "gsk-test"%string)
          (fun _ => inr tt)
          (fun _ => inr [get_users_tool])
          (fun t _ _ => scripted answers (length (completions t)))
          (fun t _ _ => scripted results (length (dispatches t)))
          parse stringify.

Definition says (text : string) : AssistantMessage := mkAssistant (Some text) None.

Definition asks (calls : list ToolCall) : AssistantMessage := mkAssistant None (Some calls).

Definition ask (prompt : string) : Request := mkRequest (Some prompt) None None.

(** A turn answered directly. *)
Definition plain_turn (prompt answer : string) : World * Request :=
  (world [inr [says answer]] [], ask prompt).

Definition call_1 : ToolCall := mkToolCall "call_1" "function" "get-users" "{}".

Definition two_users : ToolResult :=
  mkResult [mkItem "text" "total 2, count 2"] false.

(** A turn that runs [get-users] once and then answers. *)
Definition tool_turn (prompt answer : string) : World * Request :=
  (world [inr [asks [call_1]]; inr [says answer]] [inr two_users], ask prompt).

Definition started : Server := startup (world [] []).

(** One tool turn followed by three direct ones: eleven messages. *)
Definition four_turns : list (World * Request) :=
  [tool_turn "Who is there?" "Two users.";
   plain_turn "Thanks." "Welcome.";
   plain_turn "Again?" "Still two.";
   plain_turn "Sure?" "Yes."].

(** The history of the fifth turn once its user message is pushed. *)
Definition split_history : list Message :=
  messages (session four_turns started) ++ [UserMsg "And now?"].

(** The state of the fifth turn at its limit statement. *)
Definition split_state : Server :=
  with_messages (session four_turns started) split_history.

(** Direct turns only. *)
Definition direct_turns (n : nat) : list (World * Request) :=
  repeat (plain_turn "Hello." "Hi.") n.

(** A turn whose assistant message asks for one call that is not typed
    "function". *)
Definition custom_call : ToolCall := mkToolCall "call_2" "custom" "get-users" "{}".

Definition skipping_turn : World * Request :=
  (world [inr [asks [custom_call]]; inr [says "Done."]] [], ask "Who is there?").

(** A turn during which the tool endpoint cannot be reached. *)
Definition unreachable_turn : World * Request :=
  (world [inr [asks [call_1]]; inr [says "Sorry."]] [inl connection_error],
   ask "Who is there?").

(** A turn whose follow-up answer asks for a tool again and has no
    content. *)
Definition insisting_turn : World * Request :=
  (world [inr [asks [call_1]]; inr [asks [call_1]]] [inr two_users; inr two_users],
   ask "Who is there?").

(** A turn whose assistant message mixes calls typed "function" with one
    that is not. *)
Definition call_3 : ToolCall := mkToolCall "call_3" "function" "get-users" "{}".

Definition no_users : ToolResult :=
  mkResult [mkItem "text" "total 0, count 0"] false.

Definition mixed_turn : World * Request :=
  (world [inr [asks [call_1; custom_call; call_3]]; inr [says "Done."]]
         [inr two_users; inr no_users],
   ask "Who is there?").

(** A turn whose second tool dispatch is rejected. *)
Definition interrupted_turn : World * Request :=
  (world [inr [asks [call_1; custom_call; call_3]]; inr [says "Done."]]
         [inr two_users; inl connection_error],
   ask "Who is there?").


(** A turn whose completion request fails. *)
Definition offline_turn : World * Request := (world [] [], ask "Hello.").

(** A REST backend that is down, and a tool endpoint that relays what the
    [get-users] handler returns over it. *)
Definition backend_down : GetUsers.Backend :=
  GetUsers.mkBackend None
    (fun _ _ => inl (mkError "Network Error" None))
    stringify stringify stringify toLowerCase.

Definition no_args : GetUsers.Args :=
  GetUsers.mkArgs None None None None None None.

Definition relayed_turn : World * Request :=
  (world [inr [asks [call_1]]; inr [says "The user service is down."]]
         [inr (GetUsers.get_users backend_down no_args)],
   ask "Who is there?").

(** The response, final state and transcript of a turn taken from the
    state reached at startup. *)
Definition run (turn_ : World * Request) : Response * Server * Transcript :=
  chat (fst turn_) (snd turn_) started [].


(** A REST backend that answers with three users. *)
Definition alice : Json :=
  JObj [("id", num 1); ("displayName", JStr "Alice");
        ("email", JStr "alice@example.com_1"); ("role", JStr "Admin")].

Definition bob : Json :=
  JObj [("id", num 2); ("userName", JStr "bob");
        ("emailAddress", JStr "bob@example.com"); ("role", JStr "Privileged")].

Definition anna : Json :=
  JObj [("id", num 3); ("name", JStr "Anna");
        ("detail", JObj [("email", JStr "anna@example.com_x_y")])].

Definition backend_up : GetUsers.Backend :=
  GetUsers.mkBackend (Some "token")
    (fun _ _ => inr (Some (JArr [alice; bob; anna])))
    stringify stringify stringify toLowerCase.

Definition starting_with_A : GetUsers.Args :=
  GetUsers.mkArgs None None None (Some "A") None None.

(** The numbers 0.5 and 1.5, and a call for the page they delimit. *)
Definition half : Number := S754_finite false 4503599627370496 (-53).

Definition one_and_a_half : Number := S754_finite false 6755399441055744 (-52).

Definition fractional_page : GetUsers.Args :=
  GetUsers.mkArgs (Some one_and_a_half) (Some half) None None None None.

(** A backend whose answer holds a null element, and one whose answer is
    not an array. *)
Definition backend_with_null : GetUsers.Backend :=
  GetUsers.mkBackend (Some "token")
    (fun _ _ => inr (Some (JArr [alice; JNull])))
    stringify stringify stringify toLowerCase.

Definition backend_html : GetUsers.Backend :=
  GetUsers.mkBackend (Some "token")
    (fun _ _ => inr (Some (JStr "<html>Sign in</html>")))
    stringify stringify stringify toLowerCase.

(** A collection of seven documents. *)
Definition document (n : Z) : Json :=
  JObj [("id", num n); ("content", JObj [("n", num n)]); ("syncRequired", JBool false)].

Definition seven_documents : list Json :=
  map document [1; 2; 3; 4; 5; 6; 7]%Z.

Definition documents_backend : GetCollectionDocuments.Backend :=
  GetCollectionDocuments.mkBackend (Some "token")
    (fun _ _ => inr (Some (JArr seven_documents)))
    stringify stringify.

(** Two owner entries for the same id, and a collections service. *)
Definition owner (id_ : Z) (name_ : string) : Json :=
  JObj [("ownerId", num id_); ("ownerName", JStr name_)].

Definition collections_backend : QueryCollections.Backend :=
  QueryCollections.mkBackend (Some "token")
    (fun _ _ _ =>
       inr (Some (JObj [("totalCollectionCount", num 1);
                        ("ownedBy", JArr [owner 7 "Old name"; owner 7 "New name"]);
                        ("collections",
                         JArr [JObj [("id", JStr "c1"); ("name", JStr "events");
                                     ("owner", num 7)]])])))
    stringify stringify stringify.

(** A search service that knows one dataflow with a single input dataset
    and no list of output datasets. *)
Definition rostering : Json :=
  JObj [("name", JStr "rostering"); ("databaseId", num 12);
        ("inputDatasets",
         JArr [JObj [("name", JStr "shifts"); ("id", JStr "d1"); ("rows", num 40)]]);
        ("outputDatasets", JNull)].

Definition dataflows_backend : SearchDataflows.Backend :=
  SearchDataflows.mkBackend (Some "token")
    (fun _ _ _ =>
       inr (Some (JObj [("totalResultCount", num 1);
                        ("searchObjects", JArr [rostering])])))
    stringify stringify.

(** The state of the command-line client before the first line is typed,
    and four lines typed: one answered, one failing, "EXIT", one more. *)
Definition cli_started : Server :=
  mkServer (Some Cli.example_client) [get_users_tool] (Some OpenAIClient) None
           [SystemMsg Cli.system_prompt].

Definition typed : list (World * string) :=
  [(world [inr [says "Hi."]] [], "Hello.");
   (world [] [], "Again?");
   (world [] [], "EXIT");
   (world [inr [says "Never."]] [], "Anyone?")].

End Scenario.

(** ** The sliding window *)

Lemma slice_last9 (A : Type) (l : list A) :
  9 <= length l -> slice l (-9) None = skipn (length l - 9) l.
Proof.
  intros H. unfold slice, rel_index. change (-9 <? 0)%Z with true. cbv iota.
  replace (Z.to_nat (Z.max (Z.of_nat (length l) + -9) 0)) with (length l - 9) by lia.
  apply firstn_all2. rewrite length_skipn. lia.
Qed.

Lemma keep_window_long (m0 : Message) (rest : list Message) :
  10 <= length rest ->
  keep_window (m0 :: rest) = m0 :: skipn (length rest - 9) rest.
Proof.
  intros H. unfold keep_window. rewrite slice_last9 by (simpl; lia).
  f_equal. simpl length.
  replace (S (length rest) - 9) with (S (length rest - 9)) by lia.
  reflexivity.
Qed.

Lemma limit_history_run (s : Server) (t : Transcript) :
  limit_history s t =
  (Value tt,
   if 10 <? length (messages s) then with_messages s (keep_window (messages s)) else s,
   t).
Proof.
  unfold limit_history, bind, get, set_messages, ret, with_messages.
  destruct (10 <? length (messages s)); reflexivity.
Qed.

Lemma limited_limit (s : Server) : limited s = limit (messages s).
Proof.
  unfold limited, limit. rewrite limit_history_run. simpl.
  destruct (10 <? length (messages s)); reflexivity.
Qed.

(** ** Running the statements *)

Ltac splits := repeat match goal with |- _ /\ _ => split end.

Lemma with_messages_same (s : Server) : with_messages s (messages s) = s.
Proof. destruct s; reflexivity. Qed.

Lemma with_messages_twice (s : Server) (a b : list Message) :
  with_messages (with_messages s a) b = with_messages s b.
Proof. reflexivity. Qed.

Lemma push_run (m : Message) (s : Server) (t : Transcript) :
  push m s t = (Value tt, with_messages s (messages s ++ [m]), t ++ [EvPush m]).
Proof. reflexivity. Qed.

Lemma run_tool_call_run (w : World) (c : ToolCall) (s : Server) (t : Transcript) :
  run_tool_call w c s t =
  if (tc_type c =? "function")%string then
    match JSON_parse w (tc_arguments c) with
    | inl e => (Thrown e, s, t)
    | inr args =>
        match callTool w t (tc_name c) args with
        | inl e => (Thrown e, s, t ++ [EvCallTool (tc_name c) args (inl e)])
        | inr r =>
            let d := mkDispatch c args r in
            (Value tt, with_messages s (messages s ++ [tool_message w d]),
             t ++ dispatch_events w d)
        end
    end
  else (Value tt, s, t).
Proof.
  unfold run_tool_call, bind, await, remote, throw, ret.
  destruct (tc_type c =? "function")%string; simpl; [|reflexivity].
  destruct (JSON_parse w (tc_arguments c)) as [e|args]; [reflexivity|].
  destruct (callTool w t (tc_name c) args) as [e|r]; [reflexivity|].
  rewrite push_run. rewrite <- app_assoc. reflexivity.
Qed.

(** What the loop over [message.tool_calls] leaves behind: the calls typed
    "function" are served in order; the loop ends normally once all of them
    are, or throws at the first that fails to parse or to be answered. *)
Lemma tool_loop_spec (w : World) (calls : list ToolCall) :
  forall s t o s' t',
    for_of calls (run_tool_call w) s t = (o, s', t') ->
    exists (ds : list Dispatch) (tail : Transcript),
      s' = with_messages s (messages s ++ map (tool_message w) ds) /\
      t' = t ++ flat_map (dispatch_events w) ds ++ tail /\
      map d_call ds = firstn (length ds) (function_calls calls) /\
      Forall (fun d => JSON_parse w (tc_arguments (d_call d)) = inr (d_args d)) ds /\
      match o with
      | Value _ => tail = [] /\ map d_call ds = function_calls calls
      | Thrown e => failed_at w calls ds tail e
      | Returned _ => False
      end.
Proof.
  induction calls as [|c rest IH]; intros s t o s' t' H.
  - simpl in H. unfold ret in H. inversion H; subst.
    exists [], []. simpl. rewrite !app_nil_r, with_messages_same.
    splits; auto.
  - simpl in H. unfold bind in H. rewrite run_tool_call_run in H.
    unfold failed_at, function_calls. simpl filter. fold (function_calls rest).
    destruct (tc_type c =? "function")%string eqn:Ety.
    + destruct (JSON_parse w (tc_arguments c)) as [e|args] eqn:Eparse.
      * inversion H; subst.
        exists [], []. simpl. rewrite !app_nil_r, with_messages_same.
        splits; auto. exists c. split; auto.
      * destruct (callTool w t (tc_name c) args) as [e|r] eqn:Ecall.
        -- inversion H; subst.
           exists [], [EvCallTool (tc_name c) args (inl e)]. simpl.
           rewrite app_nil_r, with_messages_same.
           splits; auto. exists c. split; auto. right. eauto.
        -- cbv zeta in H.
           apply IH in H. destruct H as (ds & tail & Hs & Ht & Hcalls & Hparse & Ho).
           exists (mkDispatch c args r :: ds), tail.
           rewrite Hs, Ht. unfold with_messages at 1. simpl.
           rewrite <- !app_assoc. simpl.
           splits; auto.
           ++ f_equal. exact Hcalls.
           ++ destruct o as [u|r0|e]; [|exact Ho|exact Ho].
              destruct Ho as [Htl Hall]. split; auto. f_equal. exact Hall.
    + apply IH in H. exact H.
Qed.

Lemma select_provider_run (provider : string) (s : Server) (t : Transcript) :
  select_provider provider s t =
  match selection s provider with
  | inl r => (Returned r, s, t)
  | inr sel => (Value sel, s, t)
  end.
Proof.
  unfold select_provider, selection, bind, get, return_, ret.
  destruct (toLowerCase provider =? "openai")%string.
  - destruct (openai s); reflexivity.
  - destruct (toLowerCase provider =? "groq")%string; [|reflexivity].
    destruct (groq s); reflexivity.
Qed.


Lemma selection_rejects (s : Server) (provider : string) (r : Response) :
  selection s provider = inl r -> status r = 400.
Proof.
  unfold selection, not_configured.
  destruct (toLowerCase provider =? "openai")%string.
  - destruct (openai s); intros H; inversion H; reflexivity.
  - destruct (toLowerCase provider =? "groq")%string.
    + destruct (groq s); intros H; inversion H; reflexivity.
    + intros H; inversion H; reflexivity.
Qed.

Lemma final_response_run (w : World) (c : LlmClient) (sp sm : string)
    (s : Server) (t : Transcript) :
  final_response w c sp sm s t =
  let b := mkBody sm (messages s) None in
  let answer := create w t c b in
  let t1 := t ++ [EvComplete c b answer] in
  match answer with
  | inl e => (Thrown e, s, t1)
  | inr [] => (Thrown no_choice, s, t1)
  | inr (m :: _) =>
      (Returned (chat_ok (content m) sp sm),
       with_messages s (messages s ++ [AssistantMsg m]),
       t1 ++ [EvPush (AssistantMsg m)])
  end.
Proof.
  unfold final_response, bind, get, remote, first_choice. cbv zeta.
  destruct (create w t c (mkBody sm (messages s) None)) as [e|[|m others]];
    reflexivity.
Qed.

Lemma complete_turn_run (w : World) (c : LlmClient) (sp sm prompt : string)
    (s : Server) (t : Transcript) :
  complete_turn w c sp sm prompt s t =
  let s1 := with_messages s (limit (messages s ++ [UserMsg prompt])) in
  let t1 := t ++ [EvPush (UserMsg prompt)] in
  let b := mkBody sm (messages s1) (Some (toProviderSchema (tools s))) in
  let answer := create w t1 c b in
  let t2 := t1 ++ [EvComplete c b answer] in
  match answer with
  | inl e => (Thrown e, s1, t2)
  | inr [] => (Thrown no_choice, s1, t2)
  | inr (m :: _) =>
      let s2 := with_messages s (messages s1 ++ [AssistantMsg m]) in
      let t3 := t2 ++ [EvPush (AssistantMsg m)] in
      match tool_calls m with
      | None => (Returned (chat_ok (content m) sp sm), s2, t3)
      | Some calls =>
          match for_of calls (run_tool_call w) s2 t3 with
          | (Value _, s3, t4) => final_response w c sp sm s3 t4
          | (Returned r, s3, t4) => (Returned r, s3, t4)
          | (Thrown e, s3, t4) => (Thrown e, s3, t4)
          end
      end
  end.
Proof.
  unfold complete_turn. unfold bind at 1. rewrite push_run.
  unfold bind at 1. rewrite limit_history_run.
  unfold bind at 1. unfold get at 1. unfold bind at 1. unfold remote at 1.
  cbv zeta.
  assert (Hs1 : (if 10 <? length (messages (with_messages s (messages s ++ [UserMsg prompt])))
                 then with_messages (with_messages s (messages s ++ [UserMsg prompt]))
                        (keep_window (messages (with_messages s (messages s ++ [UserMsg prompt]))))
                 else with_messages s (messages s ++ [UserMsg prompt]))
                = with_messages s (limit (messages s ++ [UserMsg prompt]))).
  { unfold limit. simpl messages.
    destruct (10 <? length (messages s ++ [UserMsg prompt])); reflexivity. }
  rewrite Hs1. simpl tools.
  destruct (create w (t ++ [EvPush (UserMsg prompt)]) c _) as [e|[|m others]];
    try reflexivity.
  unfold first_choice, ret at 1. unfold bind at 1. unfold bind at 1.
  rewrite push_run. rewrite with_messages_twice.
  destruct (tool_calls m) as [calls|]; [|reflexivity].
  unfold bind.
  destruct (for_of calls (run_tool_call w) _ _) as [[[u|r|e] s3] t4]; reflexivity.
Qed.

Lemma string_receiver_inr (expr : string) (v : Json) (p : string) :
  string_receiver expr v = inr p <-> v = JStr p.
Proof.
  destruct v; simpl; split; intros H; inversion H; reflexivity.
Qed.

Lemma chat_block_run (w : World) (prompt : string) (provider : Json)
    (model : option string) (s : Server) (t : Transcript) :
  client s <> None ->
  chat_block w prompt provider model s t =
  match string_receiver "provider" provider with
  | inl e => (Thrown e, s, t)
  | inr p =>
      match selection s p with
      | inl r => (Returned r, s, t)
      | inr sel =>
          complete_turn w (fst sel) (toLowerCase p)
                        (or_default model (snd sel)) prompt s t
      end
  end.
Proof.
  intros Hc. unfold chat_block. unfold bind at 1. unfold get at 1.
  destruct (client s) as [mc|]; [|congruence].
  unfold bind at 1. unfold ret at 1. unfold bind at 1.
  destruct (string_receiver "provider" provider) as [e|p]; [reflexivity|].
  unfold call, ret at 1. unfold bind at 1.
  rewrite select_provider_run.
  destruct (selection s p) as [r|sel]; reflexivity.
Qed.

Lemma chat_run (w : World) (req : Request) (s : Server) (t : Transcript) :
  client s <> None ->
  chat w req s t =
  match req_prompt req with
  | Some prompt =>
      if truthy_string prompt then
        match string_receiver "provider" (provider_of req) with
        | inl e => (surfaced e, s, t)
        | inr p =>
            match selection s p with
            | inl r => (r, s, t)
            | inr sel =>
                match complete_turn w (fst sel) (toLowerCase p)
                        (or_default (req_model req) (snd sel)) prompt s t with
                | (Value v, _, _) => match v with end
                | (Returned r, s', t') => (r, s', t')
                | (Thrown e, s', t') => (surfaced e, s', t')
                end
            end
        end
      else (prompt_required, s, t)
  | None => (prompt_required, s, t)
  end.
Proof.
  intros Hc. unfold chat. fold (provider_of req).
  destruct (req_prompt req) as [prompt|]; [|reflexivity].
  destruct (truthy_string prompt); [|reflexivity].
  unfold try_catch. rewrite chat_block_run by exact Hc.
  destruct (string_receiver "provider" (provider_of req)) as [e|p]; [reflexivity|].
  destruct (selection s p) as [r|sel]; reflexivity.
Qed.

(** ** The shape of a turn *)

Lemma complete_turn_cases (w : World) (c : LlmClient) (sp sm prompt : string)
    (s : Server) (t : Transcript) (o : Outcome Empty_set) (s' : Server)
    (t' : Transcript) :
  complete_turn w c sp sm prompt s t = (o, s', t') ->
  turn_run w c sp sm prompt s t o s' t'.
Proof.
  rewrite complete_turn_run. cbv zeta.
  fold (after_user s prompt). fold (first_body sm s prompt).
  fold (first_answer w c sm s t prompt).
  replace ((t ++ [EvPush (UserMsg prompt)]) ++
           [EvComplete c (first_body sm s prompt) (first_answer w c sm s t prompt)])
    with (asked_first w c sm s t prompt)
    by (unfold asked_first; rewrite <- app_assoc; reflexivity).
  destruct (first_answer w c sm s t prompt) as [e|[|m others]] eqn:Ea.
  - intros H; inversion H; subst. apply first_request_fails.
    rewrite Ea. reflexivity.
  - intros H; inversion H; subst. apply first_request_fails.
    rewrite Ea. reflexivity.
  - assert (Hm : first_message (first_answer w c sm s t prompt) = inr m)
      by (rewrite Ea; reflexivity).
    destruct (tool_calls m) as [calls|] eqn:Etc.
    + destruct (for_of calls (run_tool_call w) _ _) as [[o1 s3] t4] eqn:Eloop.
      apply tool_loop_spec in Eloop.
      destruct Eloop as (ds & tail & Hs & Ht & Hcalls & Hparse & Ho).
      assert (Hs3 : s3 = with_messages s (history_served w s prompt m ds)).
      { rewrite Hs. unfold history_served, after_user, with_messages. simpl.
        rewrite <- app_assoc. reflexivity. }
      assert (Ht4 : t4 = tools_served w c sm s t prompt m ds ++ tail).
      { rewrite Ht. unfold tools_served. rewrite <- !app_assoc. reflexivity. }
      clear Hs Ht.
      destruct o1 as [u|r|e].
      * destruct Ho as [Htl Hall]. subst tail. rewrite app_nil_r in Ht4.
        rewrite Hs3, Ht4, final_response_run. cbv zeta.
        change (messages (with_messages s (history_served w s prompt m ds)))
          with (history_served w s prompt m ds).
        fold (final_body w sm s prompt m ds).
        fold (final_answer w c sm s t prompt m ds).
        destruct (final_answer w c sm s t prompt m ds) as [e|[|fm others']] eqn:Ef;
          intros H; inversion H; subst.
        -- rewrite <- Ef. eapply follow_up_fails; eauto. rewrite Ef; reflexivity.
        -- rewrite <- Ef. eapply follow_up_fails; eauto. rewrite Ef; reflexivity.
        -- rewrite <- app_assoc. simpl app. rewrite <- Ef.
           rewrite with_messages_twice.
           eapply follow_up_answers; eauto. rewrite Ef; reflexivity.
      * destruct Ho.
      * intros H; inversion H; subst.
        eapply tool_step_fails; eauto.
    + intros H; inversion H; subst.
      replace (messages (after_user s prompt) ++ [AssistantMsg m])
        with (history_served w s prompt m [])
        by (unfold history_served; simpl; reflexivity).
      replace (asked_first w c sm s t prompt ++ [EvPush (AssistantMsg m)])
        with (tools_served w c sm s t prompt m [])
        by (unfold tools_served; simpl; reflexivity).
      apply answered_directly; auto.
Qed.

Lemma turn_run_frame (w : World) (c : LlmClient) (sp sm prompt : string)
    (s : Server) (t : Transcript) (o : Outcome Empty_set) (s' : Server)
    (t' : Transcript) :
  turn_run w c sp sm prompt s t o s' t' ->
  client s' = client s /\ tools s' = tools s /\
  openai s' = openai s /\ groq s' = groq s.
Proof. intros H; inversion H; subst; simpl; auto. Qed.

Lemma chat_cases (w : World) (req : Request) (s : Server) (t : Transcript)
    (resp : Response) (s' : Server) (t' : Transcript) :
  client s <> None ->
  chat w req s t = (resp, s', t') ->
  (s' = s /\ t' = t /\
   (status resp = 400 \/
    exists e, string_receiver "provider" (provider_of req) = inl e /\
              resp = surfaced e)) \/
  (exists prompt sel o p,
      req_prompt req = Some prompt /\ truthy_string prompt = true /\
      (provider_of req = JStr p /\ selection s p = inr sel) /\
      turn_run w (fst sel) (toLowerCase p)
               (or_default (req_model req) (snd sel)) prompt s t o s' t' /\
      resp = response_of o).
Proof.
  intros Hc H. rewrite chat_run in H by exact Hc.
  destruct (req_prompt req) as [prompt|] eqn:Ep;
    [|inversion H; subst; left; auto].
  destruct (truthy_string prompt) eqn:Et;
    [|inversion H; subst; left; auto].
  destruct (string_receiver "provider" (provider_of req)) as [e|p] eqn:Er.
  { inversion H; subst. left. splits; auto. right. eauto. }
  apply string_receiver_inr in Er.
  destruct (selection s p) as [r|sel] eqn:Es.
  - inversion H; subst. left. splits; auto. left. eapply selection_rejects; eauto.
  - destruct (complete_turn w (fst sel) (toLowerCase p)
                (or_default (req_model req) (snd sel)) prompt s t)
      as [[o s1] t1] eqn:Ect.
    apply complete_turn_cases in Ect.
    right. exists prompt, sel, o, p.
    destruct o as [v|r|e]; [destruct v| |]; inversion H; subst; auto.
Qed.

Lemma startup_client (w : World) : client (startup w) <> None.
Proof.
  unfold startup, initMcpClient, bind, remote, set_openai, set_groq,
    set_client, set_tools, ret.
  destruct (truthy_opt (env_OPENAI_API_KEY w));
    destruct (truthy_opt (env_GROQ_API_KEY w)); simpl;
    destruct (connect w []); simpl;
    try destruct (listTools w _); simpl; discriminate.
Qed.

Lemma reachable_client (s : Server) : reachable s -> client s <> None.
Proof.
  induction 1 as [w|w req s Hr IH].
  - apply startup_client.
  - unfold turn.
    destruct (chat w req s []) as [[resp s'] t'] eqn:E. simpl.
    apply chat_cases in E; [|exact IH].
    destruct E as [(Hs & _)|(prompt & sel & o & p & _ & _ & _ & Hrun & _)].
    + subst; exact IH.
    + apply turn_run_frame in Hrun. destruct Hrun as (Hcl & _). congruence.
Qed.

(** ** Reading the transcript *)

Lemma pushes_app (a b : Transcript) : pushes (a ++ b) = pushes a ++ pushes b.
Proof. apply flat_map_app. Qed.

Lemma completions_app (a b : Transcript) :
  completions (a ++ b) = completions a ++ completions b.
Proof. apply flat_map_app. Qed.

Lemma dispatches_app (a b : Transcript) :
  dispatches (a ++ b) = dispatches a ++ dispatches b.
Proof. apply flat_map_app. Qed.

Lemma pushes_served (w : World) (ds : list Dispatch) :
  pushes (flat_map (dispatch_events w) ds) = map (tool_message w) ds.
Proof. induction ds as [|d ds IH]; simpl; [|rewrite IH]; reflexivity. Qed.

Lemma completions_served (w : World) (ds : list Dispatch) :
  completions (flat_map (dispatch_events w) ds) = [].
Proof. induction ds as [|d ds IH]; simpl; auto. Qed.

Lemma dispatches_served (w : World) (ds : list Dispatch) :
  dispatches (flat_map (dispatch_events w) ds) =
  map (fun d => (tc_name (d_call d), d_args d)) ds.
Proof. induction ds as [|d ds IH]; simpl; [|rewrite IH]; reflexivity. Qed.

Lemma tool_ids_app (a b : list Message) : tool_ids (a ++ b) = tool_ids a ++ tool_ids b.
Proof. apply flat_map_app. Qed.

Lemma tool_ids_served (w : World) (ds : list Dispatch) :
  tool_ids (map (tool_message w) ds) = map tc_id (map d_call ds).
Proof. induction ds as [|d ds IH]; simpl; [|rewrite IH]; reflexivity. Qed.

Lemma pushes_tools_served (w : World) (c : LlmClient) (sm : string) (s : Server)
    (prompt : string) (m : AssistantMessage) (ds : list Dispatch) :
  pushes (tools_served w c sm s [] prompt m ds) =
  UserMsg prompt :: AssistantMsg m :: map (tool_message w) ds.
Proof.
  unfold tools_served, asked_first. rewrite !pushes_app, pushes_served. reflexivity.
Qed.

Lemma completions_tools_served (w : World) (c : LlmClient) (sm : string)
    (s : Server) (prompt : string) (m : AssistantMessage) (ds : list Dispatch) :
  completions (tools_served w c sm s [] prompt m ds) =
  [(first_body sm s prompt, first_answer w c sm s [] prompt)].
Proof.
  unfold tools_served, asked_first.
  rewrite !completions_app, completions_served. reflexivity.
Qed.

Lemma dispatches_tools_served (w : World) (c : LlmClient) (sm : string)
    (s : Server) (prompt : string) (m : AssistantMessage) (ds : list Dispatch) :
  dispatches (tools_served w c sm s [] prompt m ds) =
  map (fun d => (tc_name (d_call d), d_args d)) ds.
Proof.
  unfold tools_served, asked_first.
  rewrite !dispatches_app, dispatches_served. reflexivity.
Qed.

(** ** The history across turns *)

Lemma startup_messages (w : World) :
  messages (startup w) = [SystemMsg system_prompt].
Proof.
  unfold startup, initMcpClient, bind, remote, set_openai, set_groq,
    set_client, set_tools, ret.
  destruct (truthy_opt (env_OPENAI_API_KEY w));
    destruct (truthy_opt (env_GROQ_API_KEY w)); simpl;
    destruct (connect w []); simpl;
    try destruct (listTools w _); simpl; reflexivity.
Qed.

Lemma limit_long (m0 : Message) (rest : list Message) :
  10 <= length rest ->
  limit (m0 :: rest) = m0 :: skipn (length rest - 9) rest.
Proof.
  intros H. unfold limit.
  replace (10 <? length (m0 :: rest)) with true
    by (symmetry; apply Nat.ltb_lt; simpl; lia).
  apply keep_window_long. exact H.
Qed.

Lemma limit_short (ms : list Message) : length ms <= 10 -> limit ms = ms.
Proof.
  intros H. unfold limit.
  replace (10 <? length ms) with false by (symmetry; apply Nat.ltb_ge; lia).
  reflexivity.
Qed.

Lemma Forall_skipn_keeps (A : Type) (P : A -> Prop) (n : nat) (l : list A) :
  Forall P l -> Forall P (skipn n l).
Proof.
  intros H. rewrite <- (firstn_skipn n l) in H.
  apply Forall_app in H. tauto.
Qed.

Lemma limit_keeps_system (p u : string) (rest : list Message) :
  Forall not_system rest ->
  exists rest', limit ((SystemMsg p :: rest) ++ [UserMsg u]) = SystemMsg p :: rest' /\
                Forall not_system rest'.
Proof.
  intros Hrest.
  assert (Hall : Forall not_system (rest ++ [UserMsg u])).
  { apply Forall_app. split; [exact Hrest|].
    constructor; [unfold not_system; simpl; discriminate|constructor]. }
  simpl app.
  destruct (Nat.le_gt_cases 10 (length (rest ++ [UserMsg u]))) as [Hlong|Hshort].
  - rewrite limit_long by exact Hlong. eexists; split; [reflexivity|].
    apply Forall_skipn_keeps. exact Hall.
  - rewrite limit_short by (simpl; lia). eauto.
Qed.

(** A turn that gets past the checks pushes the user message first; the
    history it leaves is the limited history followed by every later push,
    none of which is a system message. *)
Lemma turn_run_history (w : World) (c : LlmClient) (sp sm prompt : string)
    (s : Server) (o : Outcome Empty_set) (s' : Server) (t' : Transcript) :
  turn_run w c sp sm prompt s [] o s' t' ->
  exists later,
    pushes t' = UserMsg prompt :: later /\
    messages s' = limit (messages s ++ [UserMsg prompt]) ++ later /\
    Forall not_system later.
Proof.
  assert (Htools : forall ds, Forall not_system (map (tool_message w) ds)).
  { intros ds. apply Forall_forall. intros x Hx. apply in_map_iff in Hx.
    destruct Hx as (d & <- & _). unfold not_system; simpl; discriminate. }
  assert (Hasst : forall a, not_system (AssistantMsg a))
    by (intros a; unfold not_system; simpl; discriminate).
  intros H; inversion H; subst; simpl messages;
    rewrite ?pushes_app, ?pushes_tools_served; unfold history_served, after_user;
    simpl messages.
  - exists []. rewrite app_nil_r. splits; auto.
  - exists [AssistantMsg m]. splits; auto.
  - exists (AssistantMsg m :: map (tool_message w) ds). splits.
    + match goal with
      | Hf : failed_at _ _ _ _ _ |- _ =>
          destruct Hf as (c1 & _ & [(-> & _)|(a & _ & ->)])
      end; simpl; rewrite app_nil_r; reflexivity.
    + reflexivity.
    + constructor; auto.
  - exists (AssistantMsg m :: map (tool_message w) ds). splits.
    + simpl. rewrite app_nil_r. reflexivity.
    + reflexivity.
    + constructor; auto.
  - exists (AssistantMsg m :: map (tool_message w) ds ++ [AssistantMsg fm]). splits.
    + simpl. reflexivity.
    + rewrite <- !app_assoc. reflexivity.
    + constructor; auto. apply Forall_app. split; auto.
Qed.

Lemma reachable_history (s : Server) :
  reachable s ->
  exists rest, messages s = SystemMsg system_prompt :: rest /\
               Forall not_system rest.
Proof.
  induction 1 as [w|w req s Hr IH].
  - exists []. rewrite startup_messages. auto.
  - destruct IH as (rest & Hm & Hrest). unfold turn.
    destruct (chat w req s []) as [[resp s'] t'] eqn:E. simpl.
    apply chat_cases in E; [|apply reachable_client; exact Hr].
    destruct E as [(Hs & _)|(prompt & sel & o & p & _ & _ & _ & Hrun & _)].
    + subst. eauto.
    + apply turn_run_history in Hrun.
      destruct Hrun as (later & _ & Hms & Hlater).
      rewrite Hms, Hm.
      destruct (limit_keeps_system system_prompt prompt Hrest) as (rest' & -> & Hr').
      exists (rest' ++ later). split; [reflexivity|].
      apply Forall_app; auto.
Qed.

Lemma reachable_session (turns : list (World * Request)) :
  forall s, reachable s -> reachable (session turns s).
Proof.
  induction turns as [|[w req] rest IH]; intros s Hs; simpl; auto.
  apply IH. apply reach_turn. exact Hs.
Qed.

Lemma limit_length (ms : list Message) :
  length (limit ms) = if 10 <? length ms then 10 else length ms.
Proof.
  destruct (10 <? length ms) eqn:E.
  - apply Nat.ltb_lt in E. destruct ms as [|m0 rest]; [simpl in E; lia|].
    simpl in E. rewrite limit_long by lia. simpl. rewrite length_skipn. lia.
  - apply Nat.ltb_ge in E. rewrite limit_short by exact E. reflexivity.
Qed.

Lemma completions_asked_first (w : World) (c : LlmClient) (sm : string)
    (s : Server) (prompt : string) :
  completions (asked_first w c sm s [] prompt) =
  [(first_body sm s prompt, first_answer w c sm s [] prompt)].
Proof. reflexivity. Qed.

Lemma first_message_inr (answer : JsError + Completion) (m : AssistantMessage) :
  first_message answer = inr m <-> exists others, answer = inr (m :: others).
Proof.
  destruct answer as [e|[|m' others]]; simpl; split;
    try discriminate; try (intros [? ?]; discriminate).
  - intros H; inversion H; subst. eauto.
  - intros [o H]. inversion H; subst. reflexivity.
Qed.

Lemma turn_run_first (w : World) (c : LlmClient) (sp sm prompt : string)
    (s : Server) (o : Outcome Empty_set) (s' : Server) (t' : Transcript) :
  turn_run w c sp sm prompt s [] o s' t' ->
  hd_error (completions t') =
  Some (first_body sm s prompt, first_answer w c sm s [] prompt).
Proof.
  intros H; inversion H; subst;
    rewrite ?completions_app, ?completions_tools_served; reflexivity.
Qed.

Ltac read_transcript :=
  rewrite ?pushes_app, ?completions_app, ?dispatches_app,
    ?pushes_tools_served, ?completions_tools_served, ?dispatches_tools_served,
    ?completions_asked_first, ?tool_ids_app, ?tool_ids_served.

Lemma reachable_started : reachable Scenario.started.
Proof. apply reach_startup. Qed.

Lemma run_eq (turn_ : World * Request) :
  chat (fst turn_) (snd turn_) Scenario.started [] =
  (fst (fst (Scenario.run turn_)), snd (fst (Scenario.run turn_)),
   snd (Scenario.run turn_)).
Proof. unfold Scenario.run. destruct (chat _ _ _ _) as [[r s] t]. reflexivity. Qed.

Lemma filter_tool_served (w : World) (ds : list Dispatch) :
  filter is_tool (map (tool_message w) ds) = map (tool_message w) ds.
Proof. induction ds as [|d ds IH]; simpl; [|rewrite IH]; reflexivity. Qed.

Lemma dispatched_names (ds : list Dispatch) :
  map fst (map (fun d => (tc_name (d_call d), d_args d)) ds) =
  map tc_name (map d_call ds).
Proof. rewrite !map_map. reflexivity. Qed.

Lemma firstn_succ (A : Type) (l : list A) (n : nat) (x : A) :
  nth_error l n = Some x -> firstn (S n) l = firstn n l ++ [x].
Proof.
  revert n. induction l as [|a l IH]; intros [|n] H; simpl in *;
    try discriminate.
  - inversion H; reflexivity.
  - f_equal. apply IH. exact H.
Qed.

Lemma failed_at_bound (w : World) (calls : list ToolCall) (ds : list Dispatch)
    (tail : Transcript) (e : JsError) :
  failed_at w calls ds tail e -> length ds < length (function_calls calls).
Proof.
  intros (c & Hn & _). apply nth_error_Some. congruence.
Qed.

Lemma failed_at_silent (w : World) (calls : list ToolCall) (ds : list Dispatch)
    (tail : Transcript) (e : JsError) :
  failed_at w calls ds tail e -> pushes tail = [] /\ completions tail = [].
Proof. intros (c & _ & [(-> & _)|(a & _ & ->)]); auto. Qed.

(** The first completion of a turn fixes the message the turn works on. *)
Lemma first_of_turn (w : World) (c : LlmClient) (sp sm prompt : string)
    (s : Server) (o : Outcome Empty_set) (s' : Server) (t' : Transcript)
    (b1 : CompletionBody) (m : AssistantMessage) (others : Completion) :
  turn_run w c sp sm prompt s [] o s' t' ->
  nth_error (completions t') 0 = Some (b1, inr (m :: others)) ->
  b1 = first_body sm s prompt /\
  first_message (first_answer w c sm s [] prompt) = inr m.
Proof.
  intros Hrun H0. pose proof (turn_run_first Hrun) as H1.
  assert (Hhd : hd_error (completions t') = Some (b1, inr (m :: others)))
    by (destruct (completions t'); [discriminate|exact H0]).
  rewrite Hhd in H1. inversion H1 as [[Hb Ha]]. split; reflexivity.
Qed.

(** The first completion request of a turn advertises the adapter's view of
    the catalog, and the turn leaves the catalog as it found it. *)
Lemma first_request_advertises_catalog (w : World) (req : Request) (s : Server)
    (resp : Response) (s' : Server) (t' : Transcript)
    (b : CompletionBody) (o : JsError + Completion) :
  reachable s ->
  chat w req s [] = (resp, s', t') ->
  nth_error (completions t') 0 = Some (b, o) ->
  cb_tools b = Some (toProviderSchema (tools s)) /\ tools s' = tools s.
Proof.
  intros Hr E H0.
  apply chat_cases in E; [|apply reachable_client; exact Hr].
  destruct E as [(_ & Ht & _)|(prompt & sel & out & p & _ & _ & _ & Hrun & _)].
  { subst t'. discriminate. }
  pose proof (turn_run_first Hrun) as H1.
  destruct (turn_run_frame Hrun) as (_ & Htools & _).
  split; [|exact Htools].
  destruct (completions t') as [|x rest]; [discriminate|].
  simpl in H0, H1. inversion H0; subst x. inversion H1; subst b. reflexivity.
Qed.

Lemma limit_keeps_last (ms : list Message) (x : Message) :
  exists front, limit (ms ++ [x]) = front ++ [x].
Proof.
  destruct (Nat.le_gt_cases (length (ms ++ [x])) 10) as [Hshort|Hlong].
  - rewrite limit_short by exact Hshort. eauto.
  - rewrite length_app in Hlong. simpl in Hlong.
    destruct ms as [|m0 rest]; [simpl in Hlong; lia|].
    simpl app. simpl in Hlong.
    rewrite limit_long by (rewrite length_app; simpl; lia).
    rewrite skipn_app.
    replace (length (rest ++ [x]) - 9 - length rest) with 0
      by (rewrite length_app; simpl; lia).
    simpl skipn at 2.
    exists (m0 :: skipn (length (rest ++ [x]) - 9) rest). reflexivity.
Qed.

Lemma in_served (w : World) (ds : list Dispatch) (n : string) (a : Json)
    (r : ToolResult) :
  In (EvCallTool n a (inr r)) (flat_map (dispatch_events w) ds) ->
  exists d, In d ds /\ d_result d = r.
Proof.
  intros H. apply in_flat_map in H. destruct H as (d & Hd & Hin).
  exists d. split; [exact Hd|].
  simpl in Hin. destruct Hin as [H|[H|[]]]; [|discriminate].
  inversion H. reflexivity.
Qed.

Lemma in_tools_served (w : World) (c : LlmClient) (sm : string) (s : Server)
    (prompt : string) (m : AssistantMessage) (ds : list Dispatch)
    (n : string) (a : Json) (r : ToolResult) :
  In (EvCallTool n a (inr r)) (tools_served w c sm s [] prompt m ds) ->
  exists d, In d ds /\ d_result d = r.
Proof.
  unfold tools_served, asked_first. simpl.
  intros [H|[H|[H|H]]]; try discriminate.
  eapply in_served; eauto.
Qed.

(** ** The handlers of [src/server.ts] on a failing backend *)

Lemma read_some (v : Json) (key : string) :
  v <> JNull -> read (Some v) key = inr (field v key).
Proof. destruct v; simpl; intros H; try reflexivity. congruence. Qed.

Lemma read_null (key : string) : exists e, read (Some JNull) key = inl e.
Proof. simpl. eauto. Qed.

Lemma read_no_body (data : option Json) (key : string) :
  no_body data -> exists e, read data key = inl e.
Proof. intros [->| ->]; simpl; eauto. Qed.

Lemma read_body (data : option Json) (key : string) :
  ~ no_body data -> read data key = inr (field_of data key).
Proof.
  unfold no_body. destruct data as [v|]; [|tauto].
  intros H. apply read_some. intros ->. tauto.
Qed.

Lemma no_body_or_body (data : option Json) : no_body data \/ ~ no_body data.
Proof.
  unfold no_body. destruct data as [[]|]; auto;
    right; intros [H|H]; discriminate.
Qed.

Lemma not_a_list_body (data : option Json) (key : string) :
  not_a_list (field_of data key) -> ~ no_body data.
Proof.
  intros H [->| ->]; exact (H [] eq_refl).
Qed.

Lemma elements_not_a_list (expr method : string) (v : option Json) :
  not_a_list v -> exists e, elements expr method (or_empty v) = inl e.
Proof.
  unfold not_a_list. intros H.
  destruct (or_empty v) as [| | | |items|]; simpl; eauto.
  exfalso. exact (H items eq_refl).
Qed.

Lemma filter_when_not_an_array (arg : option string)
    (keep : string -> Json -> JsError + bool) (data : option Json) :
  not_an_array data ->
  (exists e, GetUsers.filter_when arg keep data = inl e) \/
  GetUsers.filter_when arg keep data = inr data.
Proof.
  unfold GetUsers.filter_when. intros H.
  destruct arg as [v|]; [|auto].
  destruct (truthy_string v); [|auto].
  left. destruct data as [[]|]; simpl; eauto.
  exfalso. exact (H items eq_refl).
Qed.

Lemma filter_throwing_fails (A : Type) (keep : A -> JsError + bool) (l : list A)
    (x : A) :
  In x l -> (exists e, keep x = inl e) -> exists e, filter_throwing keep l = inl e.
Proof.
  intros Hin [e He]. induction l as [|y l IH]; [destruct Hin|].
  simpl. destruct Hin as [->|Hin].
  - rewrite He. eauto.
  - destruct (keep y); [eauto|]. destruct (IH Hin) as [e' ->]. eauto.
Qed.

Lemma map_throwing_fails (A B : Type) (f : A -> JsError + B) (l : list A) (x : A) :
  In x l -> (exists e, f x = inl e) -> exists e, map_throwing f l = inl e.
Proof.
  intros Hin [e He]. induction l as [|y l IH]; [destruct Hin|].
  simpl. destruct Hin as [->|Hin].
  - rewrite He. eauto.
  - destruct (f y); [eauto|]. destruct (IH Hin) as [e' ->]. eauto.
Qed.

Lemma filter_when_null (arg : option string)
    (keep : string -> Json -> JsError + bool) (items : list Json) :
  In JNull items ->
  (forall v, exists e, keep v JNull = inl e) ->
  (exists e, GetUsers.filter_when arg keep (Some (JArr items)) = inl e) \/
  GetUsers.filter_when arg keep (Some (JArr items)) = inr (Some (JArr items)).
Proof.
  intros Hin Hkeep. unfold GetUsers.filter_when.
  destruct arg as [v|]; [|auto].
  destruct (truthy_string v); [|auto].
  left. simpl.
  destruct (@filter_throwing_fails _ (keep v) items JNull Hin (Hkeep v)) as [e ->].
  simpl. eauto.
Qed.

Lemma search_match_null (b : GetUsers.Backend) (term : string) :
  exists e, GetUsers.search_match b term JNull = inl e.
Proof. vm_compute. eauto. Qed.

Lemma startsWith_match_null (b : GetUsers.Backend) (term : string) :
  exists e, GetUsers.startsWith_match b term JNull = inl e.
Proof. vm_compute. eauto. Qed.

Lemma role_match_null (b : GetUsers.Backend) (roleTerm : string) :
  exists e, GetUsers.role_match b roleTerm JNull = inl e.
Proof. vm_compute. eauto. Qed.

Lemma id_match_null (b : GetUsers.Backend) (id_ : string) :
  exists e, GetUsers.id_match b id_ JNull = inl e.
Proof. vm_compute. eauto. Qed.

Lemma simplify_null : exists e, GetUsers.simplify JNull = inl e.
Proof. vm_compute. eauto. Qed.

Lemma get_users_not_an_array (b : GetUsers.Backend) (args : GetUsers.Args)
    (data : option Json) :
  GetUsers.axios_get b GetUsers.users_url (GetUsers.env_DOMO_DEVELOPER_TOKEN b)
    = inr data ->
  not_an_array data ->
  exists e, GetUsers.try_block b args = inl e.
Proof.
  intros Ha Hn. unfold GetUsers.try_block. rewrite Ha. cbn [and_then].
  destruct (filter_when_not_an_array (GetUsers.search args)
              (fun v => GetUsers.search_match b (GetUsers.toLowerCase b v)) Hn)
    as [[e ->]| ->]; cbn [and_then]; [eauto|].
  destruct (filter_when_not_an_array (GetUsers.startsWith args)
              (fun v => GetUsers.startsWith_match b (GetUsers.toLowerCase b v)) Hn)
    as [[e ->]| ->]; cbn [and_then]; [eauto|].
  destruct (filter_when_not_an_array (GetUsers.role args)
              (fun v => GetUsers.role_match b (GetUsers.toLowerCase b v)) Hn)
    as [[e ->]| ->]; cbn [and_then]; [eauto|].
  destruct (filter_when_not_an_array (GetUsers.id args) (GetUsers.id_match b) Hn)
    as [[e ->]| ->]; cbn [and_then]; [eauto|].
  destruct data as [[]|]; simpl; eauto.
  exfalso. exact (Hn items eq_refl).
Qed.

(** A step of a [try] block that throws ends the block, whatever follows. *)
Lemma and_then_fails (A B : Type) (x : JsError + A) (k : A -> JsError + B) :
  (exists e, x = inl e) -> exists e, and_then x k = inl e.
Proof. intros [e ->]. simpl. eauto. Qed.

Lemma and_then_later (A B : Type) (x : JsError + A) (k : A -> JsError + B) :
  (forall a, x = inr a -> exists e, k a = inl e) -> exists e, and_then x k = inl e.
Proof. intros H. destruct x as [e|a]; simpl; eauto. Qed.

(** A [try] block that returns has come through every step of it. *)
Ltac through_block H :=
  repeat match type of H with
         | context [match ?x with _ => _ end] => destruct x; try discriminate H
         end;
  inversion H; reflexivity.

(** A handler reports exactly what its [try] block throws: a result that
    comes from the [try] block itself is never marked as an error. *)
Lemma thrown_reported (i : Invocation) :
  match thrown i with
  | Some e => reports i e
  | None => failed i = false
  end.
Proof.
  destruct i; unfold thrown, reports, failed, content_of, diagnostic_of;
    [unfold GetUsers.get_users;
       destruct (GetUsers.try_block b args) as [e|r] eqn:E
    |unfold SearchDataflows.search_dataflows;
       destruct (SearchDataflows.try_block b args) as [e|r] eqn:E
    |unfold RunDataflow.run_dataflow;
       destruct (RunDataflow.try_block b databaseId) as [e|r] eqn:E
    |unfold QueryCollections.query_collections;
       destruct (QueryCollections.try_block b args) as [e|r] eqn:E
    |unfold GetCollectionDocuments.get_collection_documents;
       destruct (GetCollectionDocuments.try_block b collectionId) as [e|r] eqn:E
    |unfold SearchWorkflows.search_workflows;
       destruct (SearchWorkflows.try_block b args) as [e|r] eqn:E
    |unfold GetWorkflowModel.get_workflow_model;
       destruct (GetWorkflowModel.try_block b workflowId) as [e|r] eqn:E];
    simpl; auto.
  - unfold GetUsers.try_block, and_then in E. through_block E.
  - unfold SearchDataflows.try_block, and_then in E. through_block E.
  - unfold RunDataflow.try_block, and_then in E. through_block E.
  - unfold QueryCollections.try_block in E. through_block E.
  - unfold GetCollectionDocuments.try_block in E. through_block E.
  - unfold SearchWorkflows.try_block, and_then in E. through_block E.
  - unfold GetWorkflowModel.try_block, and_then in E. through_block E.
Qed.

(** A rejected REST call is thrown on by the [try] block. *)
Lemma rejection_thrown (i : Invocation) (e : JsError) :
  rest_answer i = inl e -> thrown i = Some e.
Proof.
  destruct i; simpl; intros H;
    [unfold GetUsers.try_block
    |unfold SearchDataflows.try_block
    |unfold RunDataflow.try_block
    |unfold QueryCollections.try_block
    |unfold GetCollectionDocuments.try_block
    |unfold SearchWorkflows.try_block
    |unfold GetWorkflowModel.try_block];
    rewrite H; reflexivity.
Qed.

Lemma get_users_null_element (b : GetUsers.Backend) (args : GetUsers.Args)
    (items : list Json) :
  GetUsers.axios_get b GetUsers.users_url (GetUsers.env_DOMO_DEVELOPER_TOKEN b)
    = inr (Some (JArr items)) ->
  In JNull items ->
  exists e, GetUsers.try_block b args = inl e.
Proof.
  intros Ha Hin. unfold GetUsers.try_block. rewrite Ha. cbn [and_then].
  destruct (@filter_when_null (GetUsers.search args)
              (fun v => GetUsers.search_match b (GetUsers.toLowerCase b v))
              items Hin
              (fun v => search_match_null b (GetUsers.toLowerCase b v)))
    as [[e ->]| ->]; [simpl; eauto|]. cbn [and_then].
  destruct (@filter_when_null (GetUsers.startsWith args)
              (fun v => GetUsers.startsWith_match b (GetUsers.toLowerCase b v))
              items Hin
              (fun v => startsWith_match_null b (GetUsers.toLowerCase b v)))
    as [[e ->]| ->]; [simpl; eauto|]. cbn [and_then].
  destruct (@filter_when_null (GetUsers.role args)
              (fun v => GetUsers.role_match b (GetUsers.toLowerCase b v))
              items Hin
              (fun v => role_match_null b (GetUsers.toLowerCase b v)))
    as [[e ->]| ->]; [simpl; eauto|]. cbn [and_then].
  destruct (@filter_when_null (GetUsers.id args) (GetUsers.id_match b)
              items Hin (id_match_null b))
    as [[e ->]| ->]; [simpl; eauto|]. cbn [and_then GetUsers.as_array].
  destruct (@map_throwing_fails _ _ GetUsers.simplify items JNull Hin
              simplify_null) as [e ->].
  simpl. eauto.
Qed.

Lemma bad_list_body (data : option Json) (key : string) :
  bad_list (field_of data key) -> ~ no_body data.
Proof.
  intros [H|(items & H & Hin)].
  - eapply not_a_list_body; eauto.
  - intros [->| ->]; simpl in H; inversion H; subst; destruct Hin.
Qed.

(** Mapping a callback that throws on null over a list that is no list, or
    holds a null, throws. *)
Lemma bad_list_throws (A B : Type) (expr method : string) (v : option Json)
    (f : Json -> JsError + A) (k : list A -> JsError + B) :
  bad_list v ->
  (exists e, f JNull = inl e) ->
  exists e,
    (let* items := elements expr method (or_empty v) in
     let* mapped := map_throwing f items in
     k mapped) = inl e.
Proof.
  intros [H|(items & H & Hin)] Hf.
  - apply and_then_fails. apply elements_not_a_list. exact H.
  - rewrite H. cbn [elements and_then].
    apply and_then_fails. eapply map_throwing_fails; eauto.
Qed.

Lemma set_owners_null (b : QueryCollections.Backend) (owners : list Json) :
  In JNull owners ->
  forall m, exists e, QueryCollections.set_owners b owners m = inl e.
Proof.
  induction owners as [|o owners IH]; intros Hin m; [destruct Hin|].
  cbn [QueryCollections.set_owners].
  destruct Hin as [->|Hin]; [simpl; eauto|].
  destruct (read (Some o) "ownerId") as [e|ownerId]; [eauto|].
  destruct (read (Some o) "ownerName") as [e|ownerName]; [eauto|].
  apply IH. exact Hin.
Qed.

Ltac throws_here :=
  apply and_then_fails;
  first [ apply read_no_body; assumption
        | apply elements_not_a_list; assumption ].

Ltac throws_later := apply and_then_later; intros ? _.

Lemma error_of_inl (A : Type) (block : JsError + A) :
  (exists e, block = inl e) -> exists e, error_of block = Some e.
Proof. intros [e ->]. simpl. eauto. Qed.

(** A body the handler cannot decode makes the [try] block throw. *)
Lemma undecodable_thrown (i : Invocation) (data : option Json) :
  rest_answer i = inr data -> undecodable i data -> exists e, thrown i = Some e.
Proof.
  destruct i; simpl; intros Ha Hu; apply error_of_inl.
  - destruct Hu as [Hu|(items & -> & Hin)].
    + eapply get_users_not_an_array; eauto.
    + eapply get_users_null_element; eauto.
  - unfold SearchDataflows.try_block. rewrite Ha. cbn [and_then].
    destruct Hu as [Hu|Hu]; [throws_here|].
    rewrite read_body by (eapply bad_list_body; eauto). cbn [and_then].
    apply bad_list_throws; [exact Hu|vm_compute; eauto].
  - destruct Hu.
  - unfold QueryCollections.try_block. rewrite Ha.
    destruct (no_body_or_body data) as [Hb|Hb].
    { destruct (read_no_body "ownedBy" Hb) as [e ->]. eauto. }
    rewrite !read_body by exact Hb.
    destruct Hu as [Hu|[[Hu|(owners & Ho & Hin)]|Hu]]; [tauto| | |].
    + destruct (elements_not_a_list "(response.data.ownedBy || [])" "forEach" Hu)
        as [e ->]. eauto.
    + rewrite Ho. cbn [elements].
      destruct (set_owners_null b owners Hin []) as [e ->]. eauto.
    + destruct (elements _ _ (or_empty (field_of data "ownedBy"))) as [e|owners];
        [eauto|].
      destruct (QueryCollections.set_owners b owners []) as [e|m]; [eauto|].
      destruct Hu as [Hu|(cs & Hc & Hin)].
      * destruct (elements_not_a_list "(response.data.collections || [])" "map" Hu)
          as [e ->]. eauto.
      * rewrite Hc. cbn [elements].
        destruct (@map_throwing_fails _ _ (QueryCollections.simplify b m) cs JNull Hin)
          as [e ->]; [vm_compute; eauto|eauto].
  - unfold GetCollectionDocuments.try_block. rewrite Ha.
    destruct Hu as [Hu|(docs & Hd & Hin)].
    + destruct (elements_not_a_list "(response.data || [])" "map" Hu) as [e ->].
      eauto.
    + rewrite Hd. cbn [elements].
      destruct (@map_throwing_fails _ _ GetCollectionDocuments.simplify docs JNull Hin)
        as [e ->]; [vm_compute; eauto|eauto].
  - unfold SearchWorkflows.try_block. rewrite Ha. cbn [and_then].
    destruct Hu as [Hu|Hu]; [throws_here|].
    rewrite read_body by (eapply bad_list_body; eauto). cbn [and_then].
    apply bad_list_throws; [exact Hu|vm_compute; eauto].
  - unfold GetWorkflowModel.try_block. rewrite Ha. cbn [and_then].
    destruct (no_body_or_body data) as [Hb|Hb]; [throws_here|].
    rewrite !read_body by exact Hb. cbn [and_then].
    destruct Hu as [Hu|[Hu|Hu]]; [tauto| |].
    + apply bad_list_throws; [exact Hu|vm_compute; eauto].
    + throws_later. throws_later.
      apply bad_list_throws; [exact Hu|vm_compute; eauto].
Qed.

(** ** The loop when nothing throws *)

Lemma failed_at_excluded (w : World) (calls : list ToolCall) (ds : list Dispatch)
    (before tail : Transcript) (e : JsError) :
  failed_at w calls ds tail e ->
  all_parse w calls ->
  none_rejected (before ++ tail) ->
  False.
Proof.
  intros (c & Hnext & [(_ & Hbad)|(a & _ & ->)]) Hparse Hnone.
  - apply nth_error_In in Hnext. unfold all_parse in Hparse.
    rewrite Forall_forall in Hparse. destruct (Hparse c Hnext) as [j Hj].
    congruence.
  - apply (Hnone (tc_name c) a e). apply in_or_app. right. left. reflexivity.
Qed.

(** An answered dispatch of a turn is one of the served calls, and its
    result is folded into the history the turn leaves. *)
Lemma served_folded (w : World) (c : LlmClient) (sm : string) (s : Server)
    (prompt : string) (m : AssistantMessage) (ds : list Dispatch)
    (n : string) (a : Json) (r : ToolResult) :
  In (EvCallTool n a (inr r)) (tools_served w c sm s [] prompt m ds) ->
  exists id_,
    In (EvPush (folded w id_ r)) (tools_served w c sm s [] prompt m ds) /\
    In (folded w id_ r) (history_served w s prompt m ds).
Proof.
  intros H. apply in_tools_served in H. destruct H as (d & Hd & Hres).
  exists (tc_id (d_call d)). unfold folded. rewrite <- Hres. split.
  - unfold tools_served. apply in_or_app. right. apply in_or_app. right.
    apply in_flat_map. exists d. split; [exact Hd|]. right. left. reflexivity.
  - unfold history_served. apply in_or_app. right. apply in_or_app. right.
    apply in_map_iff. exists d. split; [reflexivity|exact Hd].
Qed.

Lemma folded_served (w : World) (ds : list Dispatch) (tail : Transcript) :
  folded_in_place w tail ->
  folded_in_place w (flat_map (dispatch_events w) ds ++ tail).
Proof.
  intros H. induction ds as [|d ds IH]; simpl; [exact H|].
  split; [reflexivity|exact IH].
Qed.


(** * The claims *)

(** ** C1: the window and tool-call pairs *)

(** C1, as stated, fails: after a tool turn and three direct turns the user
    message of the fifth turn makes the history twelve long; the limit
    statement keeps the tool message of call_1 and drops the assistant
    message that requested it. *)
Lemma C1_counterexample :
  10 < length (messages Scenario.split_state) /\
  ~ pairing_kept (messages Scenario.split_state) (limited Scenario.split_state).
Proof.
  split.
  - vm_compute. lia.
  - intros H. specialize (H "call_1"%string).
    assert (H1 : pair_intact (limited Scenario.split_state) "call_1" = false)
      by (vm_compute; reflexivity).
    rewrite H in H1; [discriminate| |]; vm_compute; reflexivity.
Qed.

(** C1, amended: for every history longer than 10 the limit statement leaves
    message 0 followed by the last nine messages, chosen by position alone:
    each of the last nine is retained whatever its role and whether or not
    the message it is paired with is retained. *)
Theorem C1_window_by_position (s : Server) :
  10 < length (messages s) ->
  limited s = firstn 1 (messages s) ++ skipn (length (messages s) - 9) (messages s) /\
  length (limited s) = 10 /\
  forall i, length (messages s) - 9 <= i ->
            nth_error (limited s) (i + 10 - length (messages s))
            = nth_error (messages s) i.
Proof.
  intros Hlen. rewrite limited_limit.
  assert (Hw : limit (messages s) =
               firstn 1 (messages s) ++ skipn (length (messages s) - 9) (messages s)).
  { destruct (messages s) as [|m0 rest]; [simpl in Hlen; lia|].
    simpl in Hlen. rewrite limit_long by lia. simpl length.
    replace (S (length rest) - 9) with (S (length rest - 9)) by lia.
    reflexivity. }
  rewrite Hw. splits; auto.
  - rewrite length_app, length_firstn, length_skipn. lia.
  - intros i Hi.
    rewrite nth_error_app2 by (rewrite length_firstn; lia).
    rewrite length_firstn, nth_error_skipn. f_equal. lia.
Qed.

Lemma C1_window_by_position_witness :
  limited Scenario.split_state =
    firstn 1 (messages Scenario.split_state)
      ++ skipn (length (messages Scenario.split_state) - 9)
               (messages Scenario.split_state) /\
  length (limited Scenario.split_state) = 10.
Proof.
  destruct (@C1_window_by_position Scenario.split_state) as (H1 & H2 & _).
  - vm_compute. lia.
  - split; assumption.
Defined.

(** ** C2: where the limit is applied *)

(** C2, as stated, fails: the limit is not applied at every append.  After
    four direct turns the history holds nine messages; the fifth turn pushes
    a user and an assistant message, the second push makes the length 11 and
    nothing is dropped, so the history is not message 0 plus the last nine. *)
Lemma C2_counterexample :
  length (messages (session (Scenario.direct_turns 4) Scenario.started)) = 9 /\
  messages (session (Scenario.direct_turns 5) Scenario.started) =
    messages (session (Scenario.direct_turns 4) Scenario.started)
      ++ [UserMsg "Hello."; AssistantMsg (Scenario.says "Hi.")] /\
  messages (session (Scenario.direct_turns 5) Scenario.started) <>
    limit (messages (session (Scenario.direct_turns 5) Scenario.started)).
Proof.
  splits; try (vm_compute; reflexivity).
  intros H. apply (f_equal (@length Message)) in H. vm_compute in H. discriminate.
Qed.

(** C2, amended: the limit is applied at the append of the user message
    only.  In every state the server can reach the history begins with the
    system message and holds no other system message; a turn either leaves
    the history alone or leaves the limited history (the old history plus
    the user message, cut to message 0 and the last nine when longer than
    10) followed by everything it pushed afterwards, kept whatever the
    length. *)
Theorem C2_limit_at_user_append (s : Server) (w : World) (req : Request) :
  reachable s ->
  (exists rest, messages s = SystemMsg system_prompt :: rest /\
                Forall not_system rest) /\
  (exists rest, messages (turn w req s) = SystemMsg system_prompt :: rest /\
                Forall not_system rest) /\
  (forall resp s' t',
      chat w req s [] = (resp, s', t') ->
      (pushes t' = [] /\ messages s' = messages s) \/
      (exists prompt later,
          pushes t' = UserMsg prompt :: later /\
          messages s' = limit (messages s ++ [UserMsg prompt]) ++ later)) /\
  (forall prompt,
      10 < length (messages s ++ [UserMsg prompt]) ->
      limit (messages s ++ [UserMsg prompt]) =
      SystemMsg system_prompt
        :: skipn (length (messages s) - 8) (messages s ++ [UserMsg prompt])).
Proof.
  intros Hr. splits.
  - apply reachable_history. exact Hr.
  - apply reachable_history. apply reach_turn. exact Hr.
  - intros resp s' t' E.
    apply chat_cases in E; [|apply reachable_client; exact Hr].
    destruct E as [(Hs & Ht & _)|(prompt & sel & o & p & _ & _ & _ & Hrun & _)].
    + left. subst. auto.
    + right. apply turn_run_history in Hrun.
      destruct Hrun as (later & Hp & Hms & _). eauto.
  - intros prompt Hlen.
    destruct (reachable_history Hr) as (rest & Hm & _).
    rewrite Hm in *. simpl app in *. simpl length in *.
    rewrite length_app in Hlen. simpl length in Hlen.
    rewrite limit_long by (rewrite length_app; simpl; lia). f_equal.
    rewrite length_app. simpl length.
    replace (S (length rest) - 8) with (S (length rest + 1 - 9)) by lia.
    reflexivity.
Qed.

Lemma C2_limit_at_user_append_witness :
  limit (messages (session (Scenario.direct_turns 5) Scenario.started)
           ++ [UserMsg "Hello."]) =
  SystemMsg system_prompt
    :: skipn (length (messages (session (Scenario.direct_turns 5) Scenario.started)) - 8)
             (messages (session (Scenario.direct_turns 5) Scenario.started)
                ++ [UserMsg "Hello."]).
Proof.
  apply (C2_limit_at_user_append
           (fst (Scenario.plain_turn "Hello." "Hi."))
           (Scenario.ask "Hello.")
           (reachable_session (Scenario.direct_turns 5)
                              (reach_startup (Scenario.world [] [])))).
  vm_compute. lia.
Defined.

(** ** C3: tool messages of a turn *)

(** C3, as stated, fails: the assistant message of this turn carries one
    tool call, typed "custom"; the loop skips it, so no tool-role message is
    appended although the follow-up completion is requested. *)
Lemma C3_counterexample :
  map snd (completions (snd (Scenario.run Scenario.skipping_turn))) =
    [inr [mkAssistant None (Some [Scenario.custom_call])];
     inr [mkAssistant (Some "Done."%string) None]] /\
  length [Scenario.custom_call] = 1 /\
  filter is_tool (pushes (snd (Scenario.run Scenario.skipping_turn))) = [].
Proof. splits; vm_compute; reflexivity. Qed.

(** C3, amended: in a turn whose assistant message carries tool calls and
    whose follow-up completion request is issued, exactly one tool-role
    message is appended per call typed "function" (other calls are skipped),
    its tool_call_id is the id of that call, the order is the order of the
    calls, and all of them are appended before the follow-up request, whose
    messages are those of the first request, the assistant message and these
    tool messages. *)
Theorem C3_one_tool_message_per_function_call (w : World) (req : Request)
    (s : Server) (resp : Response) (s' : Server) (t' : Transcript)
    (b1 : CompletionBody) (m : AssistantMessage) (others : Completion)
    (calls : list ToolCall) (b2 : CompletionBody) (o2 : JsError + Completion) :
  reachable s ->
  chat w req s [] = (resp, s', t') ->
  nth_error (completions t') 0 = Some (b1, inr (m :: others)) ->
  tool_calls m = Some calls ->
  nth_error (completions t') 1 = Some (b2, o2) ->
  tool_ids (pushes t') = map tc_id (function_calls calls) /\
  length (filter is_tool (pushes t')) = length (function_calls calls) /\
  (exists before c after,
      t' = before ++ EvComplete c b2 o2 :: after /\
      filter is_tool (pushes before) = filter is_tool (pushes t') /\
      filter is_tool (pushes after) = []) /\
  cb_messages b2 = cb_messages b1 ++ AssistantMsg m :: filter is_tool (pushes t').
Proof.
  intros Hr E H0 Hcalls H1.
  apply chat_cases in E; [|apply reachable_client; exact Hr].
  destruct E as [(_ & Ht & _)|(prompt & sel & o & p & Hp & _ & _ & Hrun & Hresp)].
  { subst t'. discriminate. }
  destruct (first_of_turn Hrun H0) as [Hb1 Hm]. subst b1.
  inversion Hrun as [e He|m0 Hm0 Hdirect|m0 calls0 ds tail e Hm0 Hcalls0 Hds Hparse Hfail
                    |m0 calls0 ds e Hm0 Hcalls0 Hds Hparse Hfinal
                    |m0 calls0 ds fm Hm0 Hcalls0 Hds Hparse Hfinal];
    subst o s' t'; try congruence;
    assert (m0 = m) by congruence; subst m0; try congruence;
    assert (calls0 = calls) by congruence; subst calls0;
    revert H1; read_transcript.
  - destruct (failed_at_silent Hfail) as [_ ->]. discriminate.
  - simpl. intros H1. inversion H1; subst b2 o2.
    rewrite ?filter_app, ?tool_ids_app, ?app_nil_r, ?filter_tool_served,
      ?tool_ids_served, ?Hds. splits.
    + reflexivity.
    + rewrite <- Hds, !length_map. reflexivity.
    + exists (tools_served w (fst sel) (or_default (req_model req) (snd sel))
                           s [] prompt m ds), (fst sel), [].
      splits; try reflexivity.
      rewrite pushes_tools_served. simpl. rewrite filter_tool_served. reflexivity.
    + reflexivity.
  - simpl. intros H1. inversion H1; subst b2 o2.
    rewrite ?filter_app, ?tool_ids_app, ?filter_tool_served, ?tool_ids_served, ?Hds.
    simpl. rewrite ?app_nil_r. splits.
    + reflexivity.
    + rewrite <- Hds, !length_map. reflexivity.
    + exists (tools_served w (fst sel) (or_default (req_model req) (snd sel))
                           s [] prompt m ds), (fst sel), [EvPush (AssistantMsg fm)].
      splits; try reflexivity.
      rewrite pushes_tools_served. simpl. rewrite filter_tool_served. reflexivity.
    + reflexivity.
Qed.

Lemma C3_one_tool_message_per_function_call_witness :
  tool_ids (pushes (snd (Scenario.run (Scenario.tool_turn "Who is there?" "Two users."))))
  = map tc_id (function_calls [Scenario.call_1]).
Proof.
  apply (@C3_one_tool_message_per_function_call _ _ _ _ _ _
           (first_body "llama-3.1-8b-instant" Scenario.started "Who is there?")
           (Scenario.asks [Scenario.call_1]) [] [Scenario.call_1]
           (mkBody "llama-3.1-8b-instant"
                   (messages Scenario.started
                      ++ [UserMsg "Who is there?";
                          AssistantMsg (Scenario.asks [Scenario.call_1]);
                          ToolMsg "call_1"
                                  (Scenario.stringify
                                     (json_of_content (result_content Scenario.two_users)))])
                   None)
           (inr [Scenario.says "Two users."])
           reachable_started
           (run_eq (Scenario.tool_turn "Who is there?" "Two users."))).
  - vm_compute. reflexivity.
  - reflexivity.
  - vm_compute. reflexivity.
Defined.

(** ** C4: at most two completion requests *)

(** C4: a turn issues at most two completion requests.  When the first
    response carries no tool calls, no second request is issued.  When it
    carries tool calls and the loop over them meets no throw, the second
    request is issued: it goes out after the loop, without tool schemas,
    with the model of the first and with the messages of the first followed
    by the assistant message and the tool messages.  A second request is
    the last remote call of the turn, whatever tool calls its response
    carries: no tool is dispatched and no completion requested after it.
    When its response has a message, the content of that message, possibly
    absent, is the answer returned, and the message is the last entry of
    the history; when it has none or the request fails, the turn ends with
    status 500. *)
Theorem C4_at_most_two_completions (w : World) (req : Request) (s : Server)
    (resp : Response) (s' : Server) (t' : Transcript) :
  reachable s ->
  chat w req s [] = (resp, s', t') ->
  length (completions t') <= 2 /\
  (forall b1 m others,
      nth_error (completions t') 0 = Some (b1, inr (m :: others)) ->
      tool_calls m = None ->
      completions t' = [(b1, inr (m :: others))]) /\
  (forall b1 m others calls,
      nth_error (completions t') 0 = Some (b1, inr (m :: others)) ->
      tool_calls m = Some calls ->
      all_parse w calls ->
      none_rejected t' ->
      exists o2,
        completions t' =
          [(b1, inr (m :: others));
           (mkBody (cb_model b1)
                   (cb_messages b1 ++ AssistantMsg m :: filter is_tool (pushes t'))
                   None,
            o2)]) /\
  (forall b2 o2,
      nth_error (completions t') 1 = Some (b2, o2) ->
      cb_tools b2 = None /\
      (exists before c after,
          t' = before ++ EvComplete c b2 o2 :: after /\
          o2 = create w before c b2 /\
          dispatches after = [] /\ completions after = []) /\
      match first_message o2 with
      | inr fm =>
          (exists selectedProvider selectedModel,
              resp = mkResponse 200
                       (ChatBody (content fm) selectedProvider selectedModel)) /\
          messages s' = cb_messages b2 ++ [AssistantMsg fm]
      | inl e =>
          resp = mkResponse 500 (ErrorBody (message e)) /\
          messages s' = cb_messages b2
      end).
Proof.
  intros Hr E.
  apply chat_cases in E; [|apply reachable_client; exact Hr].
  destruct E as [(_ & Ht & _)|(prompt & sel & o & p & Hp & _ & _ & Hrun & Hresp)].
  { subst t'. simpl. splits; [lia| | |]; intros; discriminate. }
  set (c := fst sel) in *. set (sm := or_default (req_model req) (snd sel)) in *.
  assert (Hfirst : forall b1 m others,
             nth_error (completions t') 0 = Some (b1, inr (m :: others)) ->
             b1 = first_body sm s prompt /\
             first_message (first_answer w c sm s [] prompt) = inr m /\
             first_answer w c sm s [] prompt = inr (m :: others)).
  { intros b1 m others H0. pose proof (turn_run_first Hrun) as H1.
    assert (Hhd : hd_error (completions t') = Some (b1, inr (m :: others)))
      by (destruct (completions t'); [discriminate|exact H0]).
    rewrite Hhd in H1. injection H1 as Hb Ha.
    rewrite <- Ha. splits; [exact Hb|reflexivity|reflexivity]. }
  inversion Hrun as [e He|m Hm Hdirect|m calls ds tail e Hm Hcalls Hds Hparse Hfail
                    |m calls ds e Hm Hcalls Hds Hparse Hfinal
                    |m calls ds fm Hm Hcalls Hds Hparse Hfinal];
    subst o s' t' resp; read_transcript.
  - simpl. splits; [lia| | |intros; discriminate].
    + intros b1 m others H0 _. destruct (Hfirst b1 m others) as (_ & Hm & _);
        [rewrite completions_asked_first; exact H0|]. congruence.
    + intros b1 m others calls H0 Hc _ _.
      destruct (Hfirst b1 m others) as (_ & Hm & _);
        [rewrite completions_asked_first; exact H0|]. congruence.
  - simpl. splits; [lia| | |intros; discriminate].
    + intros b1 m0 others H0 _.
      destruct (Hfirst b1 m0 others) as (Hb1 & _ & Ha);
        [read_transcript; exact H0|].
      fold c sm. rewrite Ha, Hb1. reflexivity.
    + intros b1 m0 others calls H0 Hc _ _.
      destruct (Hfirst b1 m0 others) as (_ & Hm0 & _);
        [read_transcript; exact H0|]. congruence.
  - assert (Htail : completions tail = [])
      by (destruct (failed_at_silent Hfail); assumption).
    rewrite Htail. simpl. splits; [lia| | |intros; discriminate].
    + intros b1 m0 others H0 Hnone.
      destruct (Hfirst b1 m0 others) as (_ & Hm0 & _);
        [read_transcript; rewrite Htail; exact H0|]. congruence.
    + intros b1 m0 others calls0 H0 Hc Hall Hnone. exfalso.
      destruct (Hfirst b1 m0 others) as (_ & Hm0 & _);
        [read_transcript; rewrite Htail; exact H0|].
      assert (m0 = m) by congruence. subst m0.
      assert (calls0 = calls) by congruence. subst calls0.
      apply (@failed_at_excluded w calls ds (tools_served w c sm s [] prompt m ds)
               tail e Hfail Hall).
      exact Hnone.
  - simpl. splits; [lia| | |].
    + intros b1 m0 others H0 Hnone.
      destruct (Hfirst b1 m0 others) as (_ & Hm0 & _);
        [read_transcript; exact H0|]. congruence.
    + intros b1 m0 others calls0 H0 Hc _ _.
      destruct (Hfirst b1 m0 others) as (Hb1 & Hm0 & Ha);
        [read_transcript; exact H0|].
      assert (m0 = m) by congruence. subst m0 b1.
      exists (final_answer w c sm s [] prompt m ds).
      fold c sm. rewrite Ha, ?app_nil_r, ?filter_app, filter_tool_served.
      reflexivity.
    + intros b2 o2 H. inversion H; subst b2 o2. splits.
      * reflexivity.
      * exists (tools_served w c sm s [] prompt m ds), c, [].
        splits; reflexivity.
      * fold c sm. rewrite Hfinal. split; reflexivity.
  - simpl. splits; [lia| | |].
    + intros b1 m0 others H0 Hnone.
      destruct (Hfirst b1 m0 others) as (_ & Hm0 & _);
        [read_transcript; exact H0|]. congruence.
    + intros b1 m0 others calls0 H0 Hc _ _.
      destruct (Hfirst b1 m0 others) as (Hb1 & Hm0 & Ha);
        [read_transcript; exact H0|].
      assert (m0 = m) by congruence. subst m0 b1.
      exists (final_answer w c sm s [] prompt m ds).
      fold c sm. rewrite Ha, ?filter_app, filter_tool_served. simpl.
      rewrite ?app_nil_r. reflexivity.
    + intros b2 o2 H. inversion H; subst b2 o2. splits.
      * reflexivity.
      * exists (tools_served w c sm s [] prompt m ds), c, [EvPush (AssistantMsg fm)].
        splits; reflexivity.
      * fold c sm. rewrite Hfinal. split; [|reflexivity].
        unfold chat_ok. eauto.
Qed.

Lemma C4_at_most_two_completions_witness :
  length (completions (snd (Scenario.run Scenario.insisting_turn))) <= 2 /\
  (exists o2,
      completions (snd (Scenario.run Scenario.insisting_turn)) =
        [(first_body "llama-3.1-8b-instant" Scenario.started "Who is there?",
          inr [Scenario.asks [Scenario.call_1]]);
         (mkBody "llama-3.1-8b-instant"
                 (messages Scenario.started
                    ++ [UserMsg "Who is there?";
                        AssistantMsg (Scenario.asks [Scenario.call_1]);
                        folded (fst Scenario.insisting_turn) "call_1" Scenario.two_users])
                 None,
          o2)]) /\
  fst (fst (Scenario.run Scenario.insisting_turn)) =
    mkResponse 200 (ChatBody None "groq" "llama-3.1-8b-instant") /\
  length (dispatches (snd (Scenario.run Scenario.insisting_turn))) = 1.
Proof.
  destruct (@C4_at_most_two_completions _ _ _ _ _ _ reachable_started
              (run_eq Scenario.insisting_turn)) as (Hmost & _ & Hsecond & _).
  split; [exact Hmost|]. split; [|split; vm_compute; reflexivity].
  apply (Hsecond (first_body "llama-3.1-8b-instant" Scenario.started "Who is there?")
                 (Scenario.asks [Scenario.call_1]) [] [Scenario.call_1]).
  - vm_compute. reflexivity.
  - reflexivity.
  - repeat constructor. exists (JObj []). vm_compute. reflexivity.
  - intros n a e H. vm_compute in H.
    repeat (destruct H as [H|H]; [discriminate|]). exact H.
Defined.

(** ** C5: failing tool invocations *)

(** C5, as stated, fails: when the tool endpoint cannot be reached the
    promise of [callTool] is rejected; nothing converts the rejection into
    a result, so the turn ends with status 500, no tool-role message is
    appended and no follow-up completion is requested. *)
Lemma C5_counterexample :
  dispatches (snd (Scenario.run Scenario.unreachable_turn)) = [("get-users"%string, JObj [])] /\
  fst (fst (Scenario.run Scenario.unreachable_turn)) =
    mkResponse 500 (ErrorBody "Connection error.") /\
  filter is_tool (pushes (snd (Scenario.run Scenario.unreachable_turn))) = [] /\
  length (completions (snd (Scenario.run Scenario.unreachable_turn))) = 1.
Proof. splits; vm_compute; reflexivity. Qed.

(** C5, amended: each of the seven tool handlers returns a result instead
    of raising: the result has isError set exactly when the try block
    throws, and then its content is the diagnostic text of the error
    thrown.  The try block throws the rejection when the REST call is
    rejected, and it throws when the body of the response is one the
    handler cannot decode.  Every result that [callTool] returns, an error
    result or not, is folded into the history as a tool-role message,
    pushed right after the dispatch and kept in the history the turn
    leaves.  When the arguments of every call typed "function" parse and no
    dispatch is rejected, the loop goes on to the follow-up completion,
    whose messages hold these tool messages.  A rejected dispatch is not
    covered: it is not turned into a result. *)
Theorem C5_tool_failure_folded :
  (forall i, match thrown i with
             | Some e => reports i e
             | None => failed i = false
             end) /\
  (forall i e, rest_answer i = inl e -> thrown i = Some e /\ reports i e) /\
  (forall i data,
      rest_answer i = inr data ->
      undecodable i data ->
      exists e, thrown i = Some e /\ reports i e) /\
  (forall (w : World) (req : Request) (s : Server) (resp : Response)
          (s' : Server) (t' : Transcript),
      reachable s ->
      chat w req s [] = (resp, s', t') ->
      folded_in_place w t' /\
      (forall n a r,
          In (EvCallTool n a (inr r)) t' ->
          exists id_, In (EvPush (folded w id_ r)) t' /\
                      In (folded w id_ r) (messages s')) /\
      (forall b1 m others calls,
          nth_error (completions t') 0 = Some (b1, inr (m :: others)) ->
          tool_calls m = Some calls ->
          all_parse w calls ->
          none_rejected t' ->
          exists b2 o2,
            nth_error (completions t') 1 = Some (b2, o2) /\
            forall n a r,
              In (EvCallTool n a (inr r)) t' ->
              exists id_, In (folded w id_ r) (cb_messages b2))).
Proof.
  split; [exact thrown_reported|]. split; [|split].
  { intros i e H. pose proof (thrown_reported i) as Hi.
    rewrite (rejection_thrown _ H) in Hi.
    split; [exact (rejection_thrown _ H)|exact Hi]. }
  { intros i data Ha Hu. destruct (undecodable_thrown _ Ha Hu) as [e He].
    pose proof (thrown_reported i) as Hi. rewrite He in Hi. eauto. }
  intros w req s resp s' t' Hr E.
  apply chat_cases in E; [|apply reachable_client; exact Hr].
  destruct E as [(_ & Ht & _)|(prompt & sel & o & p & Hp & _ & _ & Hrun & Hresp)].
  { subst t'. splits; [exact I|intros n a r []|intros; discriminate]. }
  set (c := fst sel) in *. set (sm := or_default (req_model req) (snd sel)) in *.
  assert (Hfirst : forall b1 m others,
             nth_error (completions t') 0 = Some (b1, inr (m :: others)) ->
             first_message (first_answer w c sm s [] prompt) = inr m).
  { intros b1 m others H0. exact (proj2 (first_of_turn Hrun H0)). }
  assert (Hin : forall m ds tail n a r,
             In (EvCallTool n a (inr r))
                (tools_served w c sm s [] prompt m ds ++ tail) ->
             (forall n' a' r', ~ In (EvCallTool n' a' (inr r')) tail) ->
             In (EvCallTool n a (inr r)) (tools_served w c sm s [] prompt m ds)).
  { intros m ds tail n a r H Htail. apply in_app_or in H.
    destruct H as [H|H]; [exact H|]. destruct (Htail _ _ _ H). }
  inversion Hrun as [e He|m Hm Hdirect|m calls ds tail e Hm Hcalls Hds Hparse Hfail
                    |m calls ds e Hm Hcalls Hds Hparse Hfinal
                    |m calls ds fm Hm Hcalls Hds Hparse Hfinal];
    subst o s' t'.
  - splits.
    + unfold asked_first. simpl. exact I.
    + intros n a r [H|[H|[]]]; discriminate.
    + intros b1 m others calls H0 Hc _ _.
      rewrite (Hfirst b1 m others H0) in He. discriminate.
  - splits.
    + unfold tools_served, asked_first. simpl. exact I.
    + intros n a r [H|[H|[H|[]]]]; discriminate.
    + intros b1 m0 others calls H0 Hc _ _.
      rewrite (Hfirst b1 m0 others H0) in Hm. congruence.
  - assert (Htail : forall n' a' r', ~ In (EvCallTool n' a' (inr r')) tail).
    { intros n' a' r' H.
      destruct Hfail as (c1 & _ & [(-> & _)|(a1 & _ & ->)]);
        [destruct H|destruct H as [H|[]]; discriminate]. }
    splits.
    + unfold tools_served, asked_first. simpl. rewrite <- ?app_assoc.
      apply folded_served.
      destruct Hfail as (c1 & _ & [(-> & _)|(a1 & _ & ->)]); simpl; auto.
    + intros n a r H. apply Hin in H; [|exact Htail].
      destruct (served_folded H) as (id_ & Hpush & Hhist).
      exists id_. split; [apply in_or_app; left; exact Hpush|exact Hhist].
    + intros b1 m0 others calls0 H0 Hc Hall Hnone. exfalso.
      assert (m0 = m) by (pose proof (Hfirst b1 m0 others H0); congruence).
      subst m0. assert (calls0 = calls) by congruence. subst calls0.
      exact (@failed_at_excluded w calls ds (tools_served w c sm s [] prompt m ds)
               tail e Hfail Hall Hnone).
  - assert (Htail : forall n' a' r',
               ~ In (EvCallTool n' a' (inr r'))
                    [EvComplete c (final_body w sm s prompt m ds)
                                (final_answer w c sm s [] prompt m ds)])
      by (intros n' a' r' [H|[]]; discriminate).
    splits.
    + unfold tools_served, asked_first. simpl. rewrite <- ?app_assoc.
      apply folded_served. simpl. exact I.
    + intros n a r H. apply Hin in H; [|exact Htail].
      destruct (served_folded H) as (id_ & Hpush & Hhist).
      exists id_. split; [apply in_or_app; left; exact Hpush|exact Hhist].
    + intros b1 m0 others calls0 H0 Hc _ _.
      exists (final_body w sm s prompt m ds),
        (final_answer w c sm s [] prompt m ds).
      split; [read_transcript; reflexivity|].
      intros n a r H. apply Hin in H; [|exact Htail].
      destruct (served_folded H) as (id_ & _ & Hhist).
      exists id_. exact Hhist.
  - assert (Htail : forall n' a' r',
               ~ In (EvCallTool n' a' (inr r'))
                    [EvComplete c (final_body w sm s prompt m ds)
                                (final_answer w c sm s [] prompt m ds);
                     EvPush (AssistantMsg fm)])
      by (intros n' a' r' [H|[H|[]]]; discriminate).
    splits.
    + unfold tools_served, asked_first. simpl. rewrite <- ?app_assoc.
      apply folded_served. simpl. exact I.
    + intros n a r H. apply Hin in H; [|exact Htail].
      destruct (served_folded H) as (id_ & Hpush & Hhist).
      exists id_. split; [apply in_or_app; left; exact Hpush|].
      simpl. apply in_or_app. left. exact Hhist.
    + intros b1 m0 others calls0 H0 Hc _ _.
      exists (final_body w sm s prompt m ds),
        (final_answer w c sm s [] prompt m ds).
      split; [read_transcript; reflexivity|].
      intros n a r H. apply Hin in H; [|exact Htail].
      destruct (served_folded H) as (id_ & _ & Hhist).
      exists id_. exact Hhist.
Qed.

Lemma C5_tool_failure_folded_witness :
  reports (InvokeGetUsers Scenario.backend_down Scenario.no_args)
          (mkError "Network Error" None) /\
  (exists e,
      thrown (InvokeGetUsers Scenario.backend_html Scenario.no_args) = Some e /\
      reports (InvokeGetUsers Scenario.backend_html Scenario.no_args) e) /\
  (exists id_,
      In (folded (fst Scenario.relayed_turn) id_
                 (GetUsers.get_users Scenario.backend_down Scenario.no_args))
         (messages (snd (fst (Scenario.run Scenario.relayed_turn))))) /\
  (exists b2 o2,
      nth_error (completions (snd (Scenario.run Scenario.relayed_turn))) 1
        = Some (b2, o2) /\
      exists id_,
        In (folded (fst Scenario.relayed_turn) id_
                   (GetUsers.get_users Scenario.backend_down Scenario.no_args))
           (cb_messages b2)).
Proof.
  destruct C5_tool_failure_folded as (_ & Hrejected & Hundecodable & Hloop).
  destruct (Hloop _ _ _ _ _ _ reachable_started (run_eq Scenario.relayed_turn))
    as (_ & Hfolded & Hnext).
  assert (Hcall : In (EvCallTool "get-users" (JObj [])
                        (inr (GetUsers.get_users Scenario.backend_down Scenario.no_args)))
                     (snd (Scenario.run Scenario.relayed_turn)))
    by (vm_compute; auto 10).
  splits.
  - apply (Hrejected (InvokeGetUsers Scenario.backend_down Scenario.no_args)).
    reflexivity.
  - apply (Hundecodable _ (Some (JStr "<html>Sign in</html>"))); [reflexivity|].
    left. intros items H. discriminate.
  - destruct (Hfolded _ _ _ Hcall) as (id_ & _ & H). eauto.
  - destruct (Hnext (first_body "llama-3.1-8b-instant" Scenario.started "Who is there?")
                    (Scenario.asks [Scenario.call_1]) [] [Scenario.call_1])
      as (b2 & o2 & H2 & Hin).
    + vm_compute. reflexivity.
    + reflexivity.
    + repeat constructor. exists (JObj []). vm_compute. reflexivity.
    + intros n a e H. vm_compute in H.
      repeat (destruct H as [H|H]; [discriminate|]). exact H.
    + exists b2, o2. split; [exact H2|]. exact (Hin _ _ _ Hcall).
Defined.

(** ** C6: unknown or unconfigured provider *)

(** C6: a request that names a provider (its provider is the string [p],
    "groq" when absent) which is unknown or has no client is answered with
    status 400: with the configuration error of lines 78-100 when it
    carries a prompt, with the missing-prompt error when it does not.  The
    module state, history included, is unchanged and the transcript is
    empty: nothing was pushed and no remote party was called. *)
Theorem C6_unavailable_provider_rejected (w : World) (req : Request) (s : Server)
    (p : string) :
  reachable s ->
  provider_of req = JStr p ->
  provider_available s p = false ->
  exists reason,
    selection s p = inl (mkResponse 400 (ErrorBody reason)) /\
    chat w req s [] =
    (if truthy_opt (req_prompt req) then mkResponse 400 (ErrorBody reason)
     else prompt_required,
     s, []).
Proof.
  intros Hr Hname Hp. rewrite chat_run by (apply reachable_client; exact Hr).
  assert (Hsel : exists reason,
             selection s p = inl (mkResponse 400 (ErrorBody reason))).
  { revert Hp. unfold provider_available, selection, not_configured.
    destruct (toLowerCase p =? "openai")%string.
    - destruct (openai s); [discriminate|eauto].
    - destruct (toLowerCase p =? "groq")%string.
      + destruct (groq s); [discriminate|eauto].
      + eauto. }
  destruct Hsel as (reason & Hsel). exists reason. split; [exact Hsel|].
  destruct (req_prompt req) as [prompt|]; [|reflexivity]. simpl.
  destruct (truthy_string prompt); [|reflexivity].
  rewrite Hname. simpl. rewrite Hsel. reflexivity.
Qed.

Lemma C6_unavailable_provider_rejected_witness :
  exists reason,
    selection Scenario.started "unknown" = inl (mkResponse 400 (ErrorBody reason)) /\
    chat (Scenario.world [] [])
         (mkRequest (Some "Hello."%string) (Some (JStr "unknown")) None)
         Scenario.started []
    = (mkResponse 400 (ErrorBody reason), Scenario.started, []).
Proof.
  apply (@C6_unavailable_provider_rejected
           (Scenario.world [] [])
           (mkRequest (Some "Hello."%string) (Some (JStr "unknown")) None)
           Scenario.started "unknown" reachable_started eq_refl).
  vm_compute. reflexivity.
Defined.

(** ** C7: turns answered without tool calls *)

(** C7, as stated, fails on the length: after five direct turns the history
    holds 11 messages; the sixth direct turn, whose single completion asks
    for no tool, leaves it at 11, not 13, because the user append cut it
    back to 10 first. *)
Lemma C7_counterexample :
  length (messages (session (Scenario.direct_turns 5) Scenario.started)) = 11 /\
  length (messages (session (Scenario.direct_turns 6) Scenario.started)) = 11 /\
  map snd (completions
             (snd (chat (fst (Scenario.plain_turn "Hello." "Hi."))
                        (snd (Scenario.plain_turn "Hello." "Hi."))
                        (session (Scenario.direct_turns 5) Scenario.started) [])))
    = [inr [mkAssistant (Some "Hi."%string) None]].
Proof. splits; vm_compute; reflexivity. Qed.

(** C7, amended: in a turn whose completion response has no tool_calls
    field that response is the only completion of the turn and its content
    is the answer returned; the history grows by exactly 2 (user and assistant
    message) when it held at most 9 messages before the turn, and otherwise
    ends at 11, the limit having cut it to 10 at the user append. *)
Theorem C7_direct_answer (w : World) (req : Request) (s : Server)
    (resp : Response) (s' : Server) (t' : Transcript)
    (b : CompletionBody) (m : AssistantMessage) (others : Completion) :
  reachable s ->
  chat w req s [] = (resp, s', t') ->
  nth_error (completions t') 0 = Some (b, inr (m :: others)) ->
  tool_calls m = None ->
  completions t' = [(b, inr (m :: others))] /\
  (exists selectedProvider selectedModel,
      resp = mkResponse 200 (ChatBody (content m) selectedProvider selectedModel)) /\
  (exists prompt, req_prompt req = Some prompt /\
                  pushes t' = [UserMsg prompt; AssistantMsg m]) /\
  length (messages s') =
    (if length (messages s) <=? 9 then length (messages s) + 2 else 11).
Proof.
  intros Hr E H0 Hnone.
  apply chat_cases in E; [|apply reachable_client; exact Hr].
  destruct E as [(_ & Ht & _)|(prompt & sel & o & p & Hp & _ & _ & Hrun & Hresp)].
  { subst t'. discriminate. }
  destruct (first_of_turn Hrun H0) as [Hb Hm].
  inversion Hrun as [e He|m0 Hm0 Hdirect| | |]; subst o s' t'; try congruence.
  assert (m0 = m) by congruence. subst m0.
  revert H0. read_transcript. simpl. intros H0. splits.
  - injection H0 as _ Ha. rewrite Ha, Hb. reflexivity.
  - unfold chat_ok. simpl. eauto.
  - eauto.
  - unfold history_served, after_user. simpl.
    rewrite length_app, limit_length, length_app. simpl.
    destruct (length (messages s) <=? 9) eqn:E9.
    + apply Nat.leb_le in E9.
      replace (10 <? length (messages s) + 1) with false
        by (symmetry; apply Nat.ltb_ge; lia). lia.
    + apply Nat.leb_gt in E9.
      replace (10 <? length (messages s) + 1) with true
        by (symmetry; apply Nat.ltb_lt; lia). lia.
Qed.

Lemma C7_direct_answer_witness :
  length (messages (snd (fst (Scenario.run (Scenario.plain_turn "Hello." "Hi."))))) = 3.
Proof.
  pose proof (@C7_direct_answer _ _ _ _ _ _
                (first_body "llama-3.1-8b-instant" Scenario.started "Hello.")
                (Scenario.says "Hi.") []
                reachable_started
                (run_eq (Scenario.plain_turn "Hello." "Hi."))) as H.
  destruct H as (_ & _ & _ & H); [vm_compute; reflexivity|reflexivity|].
  rewrite H. vm_compute. reflexivity.
Defined.

(** ** C8: the tool catalog adapter *)

(** C8: the adapter yields one function spec per descriptor, in order, each
    typed "function" and carrying the descriptor's name, description and
    argument schema as they are; its output is a function of the descriptor
    list alone, so equal lists give equal outputs and the descriptors can be
    read back from it. *)
Theorem C8_adapter_preserves_descriptors (ts : list ToolDescriptor) :
  length (toProviderSchema ts) = length ts /\
  (forall i, nth_error (toProviderSchema ts) i =
             option_map (fun d => mkSpec "function" (name d) (description d) (inputSchema d))
                        (nth_error ts i)) /\
  map (fun f => mkTool (fn_name f) (fn_description f) (fn_parameters f))
      (toProviderSchema ts) = ts /\
  (forall ts', ts' = ts -> toProviderSchema ts' = toProviderSchema ts).
Proof.
  unfold toProviderSchema. splits.
  - apply length_map.
  - intros i. apply nth_error_map.
  - rewrite map_map. simpl.
    induction ts as [|[n d sch] rest IH]; simpl; [|rewrite IH]; reflexivity.
  - intros ts' ->. reflexivity.
Qed.

(** ** C9: a turn aborted by an exception *)

(** C9: when the handler's try block throws [e], the response is status 500
    carrying [e.message], and the module state is the one at the throw,
    with everything the turn pushed still at the end of the history.  For a
    request that names a provider the throw comes from a completion request
    or a tool step, and the history is the limited history of the user
    append followed by every message pushed before the exception.  For a
    provider that is not a string the throw is the one of line 78: nothing
    was pushed or called and the state is unchanged. *)
Theorem C9_exception_surfaced_history_kept (w : World) (req : Request)
    (s : Server) (prompt : string) (e : JsError) (s' : Server) (t' : Transcript) :
  reachable s ->
  req_prompt req = Some prompt ->
  truthy_string prompt = true ->
  chat_block w prompt (provider_of req) (req_model req) s [] = (Thrown e, s', t') ->
  chat w req s [] = (mkResponse 500 (ErrorBody (message e)), s', t') /\
  (forall p,
      provider_of req = JStr p ->
      exists later,
        pushes t' = UserMsg prompt :: later /\
        messages s' = limit (messages s ++ [UserMsg prompt]) ++ later) /\
  ((forall p, provider_of req <> JStr p) -> s' = s /\ t' = []) /\
  (exists kept, messages s' = kept ++ pushes t').
Proof.
  intros Hr Hp Ht Hblock.
  assert (Hchat : chat w req s [] = (mkResponse 500 (ErrorBody (message e)), s', t')).
  { unfold chat. fold (provider_of req). rewrite Hp, Ht.
    unfold try_catch. rewrite Hblock. reflexivity. }
  split; [exact Hchat|].
  rewrite chat_block_run in Hblock by (apply reachable_client; exact Hr).
  destruct (string_receiver "provider" (provider_of req)) as [e0|p0] eqn:Er.
  { inversion Hblock; subst e0 s' t'. splits.
    - intros p Hname. rewrite Hname in Er. discriminate.
    - auto.
    - exists (messages s). rewrite app_nil_r. reflexivity. }
  apply string_receiver_inr in Er.
  destruct (selection s p0) as [r|sel]; [discriminate|].
  apply complete_turn_cases, turn_run_history in Hblock.
  destruct Hblock as (later & Hpushes & Hms & _).
  splits.
  - eauto.
  - intros Hnone. destruct (Hnone p0 Er).
  - destruct (limit_keeps_last (messages s) (UserMsg prompt)) as (front & Hfront).
    exists front. rewrite Hms, Hpushes, Hfront, <- app_assoc. reflexivity.
Qed.

Lemma C9_exception_surfaced_history_kept_witness :
  chat (fst Scenario.offline_turn) (snd Scenario.offline_turn) Scenario.started [] =
  (mkResponse 500 (ErrorBody (message Scenario.connection_error)),
   after_user Scenario.started "Hello.",
   asked_first (fst Scenario.offline_turn) GroqClient "llama-3.1-8b-instant"
               Scenario.started [] "Hello.").
Proof.
  apply (@C9_exception_surfaced_history_kept
           (fst Scenario.offline_turn) (snd Scenario.offline_turn)
           Scenario.started "Hello." Scenario.connection_error
           (after_user Scenario.started "Hello.")
           (asked_first (fst Scenario.offline_turn) GroqClient "llama-3.1-8b-instant"
                        Scenario.started [] "Hello.")
           reachable_started eq_refl eq_refl).
  vm_compute. reflexivity.
Defined.

(** ** C10: tool calls that are not typed "function" *)

(** C10, as stated, fails on the count: the assistant message of this turn
    carries two calls typed "function" and one typed "custom"; the dispatch
    of the second function call is rejected, the loop ends there, and one
    tool-role message has been appended for two calls typed "function". *)
Lemma C10_counterexample :
  map snd (completions (snd (Scenario.run Scenario.interrupted_turn))) =
    [inr [Scenario.asks [Scenario.call_1; Scenario.custom_call; Scenario.call_3]]] /\
  length (function_calls [Scenario.call_1; Scenario.custom_call; Scenario.call_3]) = 2 /\
  length (filter is_tool (pushes (snd (Scenario.run Scenario.interrupted_turn)))) = 1.
Proof. splits; vm_compute; reflexivity. Qed.

(** C10, amended: a tool call whose type is not "function" is skipped, and
    the calls typed "function" are served in order until one fails.  The
    tool-role messages appended in a turn answer, in order, the first [k]
    calls typed "function", and nothing else.  Either [k] is the number of
    all of them, the tools dispatched are exactly these calls and the
    follow-up completion is requested; or the turn ends with status 500 at
    call number [k] typed "function", whose arguments do not parse (the
    first [k] calls were dispatched) or whose dispatch is rejected (the
    first [k + 1] were).  So the number of tool-role messages equals the
    number of calls typed "function" exactly when the follow-up completion
    is requested, which is the case whenever all arguments parse and no
    dispatch is rejected. *)
Theorem C10_only_function_calls_served (w : World) (req : Request)
    (s : Server) (resp : Response) (s' : Server) (t' : Transcript)
    (b1 : CompletionBody) (m : AssistantMessage) (others : Completion)
    (calls : list ToolCall) :
  reachable s ->
  chat w req s [] = (resp, s', t') ->
  nth_error (completions t') 0 = Some (b1, inr (m :: others)) ->
  tool_calls m = Some calls ->
  exists k,
    tool_ids (pushes t') = map tc_id (firstn k (function_calls calls)) /\
    length (filter is_tool (pushes t')) = k /\
    k <= length (function_calls calls) /\
    (k = length (function_calls calls) <-> length (completions t') = 2) /\
    (all_parse w calls -> none_rejected t' -> k = length (function_calls calls)) /\
    ((k = length (function_calls calls) /\
      map fst (dispatches t') = map tc_name (function_calls calls)) \/
     (exists c e,
         nth_error (function_calls calls) k = Some c /\
         resp = mkResponse 500 (ErrorBody (message e)) /\
         ((JSON_parse w (tc_arguments c) = inl e /\
           map fst (dispatches t') = map tc_name (firstn k (function_calls calls))) \/
          (exists a,
              JSON_parse w (tc_arguments c) = inr a /\
              In (EvCallTool (tc_name c) a (inl e)) t' /\
              map fst (dispatches t') =
                map tc_name (firstn (S k) (function_calls calls)))))).
Proof.
  intros Hr E H0 Hcalls.
  apply chat_cases in E; [|apply reachable_client; exact Hr].
  destruct E as [(_ & Ht & _)|(prompt & sel & o & p & Hp & _ & _ & Hrun & Hresp)].
  { subst t'. discriminate. }
  destruct (first_of_turn Hrun H0) as [Hb1 Hm]. subst b1. clear H0.
  set (c := fst sel) in *. set (sm := or_default (req_model req) (snd sel)) in *.
  assert (Hwhole : forall ds : list Dispatch,
             map d_call ds = function_calls calls ->
             length ds = length (function_calls calls) /\
             firstn (length ds) (function_calls calls) = function_calls calls).
  { intros ds Hds. assert (Hlen : length ds = length (function_calls calls))
      by (rewrite <- Hds, length_map; reflexivity).
    split; [exact Hlen|]. rewrite Hlen. apply firstn_all. }
  inversion Hrun as [e He|m0 Hm0 Hdirect|m0 calls0 ds tail e Hm0 Hcalls0 Hds Hparse Hfail
                    |m0 calls0 ds e Hm0 Hcalls0 Hds Hparse Hfinal
                    |m0 calls0 ds fm Hm0 Hcalls0 Hds Hparse Hfinal];
    subst o s' t' resp; try congruence;
    assert (m0 = m) by congruence; subst m0; try congruence;
    assert (calls0 = calls) by congruence; subst calls0;
    exists (length ds).
  - pose proof (failed_at_bound Hfail) as Hlt.
    destruct (failed_at_silent Hfail) as [Hpt Hct].
    read_transcript. rewrite Hpt, Hct. cbn -[firstn].
    rewrite ?app_nil_r, ?filter_tool_served, ?tool_ids_served, Hds. splits.
    + reflexivity.
    + apply length_map.
    + lia.
    + split; [lia|discriminate].
    + intros Hall Hnone. exfalso.
      exact (@failed_at_excluded w calls ds (tools_served w c sm s [] prompt m ds)
               tail e Hfail Hall Hnone).
    + right. destruct Hfail as (c1 & Hnext & [(-> & Hbad)|(a & Ha & ->)]);
        exists c1, e; splits; auto.
      * left. split; [exact Hbad|].
        simpl. rewrite app_nil_r, dispatched_names, Hds. reflexivity.
      * right. exists a. splits; auto.
        -- do 3 right. apply in_or_app. right. left. reflexivity.
        -- rewrite (firstn_succ _ _ Hnext), !map_app, dispatched_names, Hds.
           reflexivity.
  - destruct (Hwhole ds Hds) as [Hlen Hall].
    read_transcript. simpl.
    rewrite ?app_nil_r, ?filter_tool_served, ?tool_ids_served, ?dispatched_names,
      Hall, Hds. splits.
    + reflexivity.
    + apply length_map.
    + lia.
    + split; auto.
    + auto.
    + left. split; [exact Hlen|rewrite ?dispatched_names, ?Hds; reflexivity].
  - destruct (Hwhole ds Hds) as [Hlen Hall].
    read_transcript. simpl.
    rewrite ?filter_app, ?filter_tool_served, ?tool_ids_served, ?dispatched_names,
      ?app_nil_r, Hall, Hds. splits.
    + reflexivity.
    + simpl. rewrite ?app_nil_r. apply length_map.
    + lia.
    + split; auto.
    + auto.
    + left. split; [exact Hlen|rewrite ?dispatched_names, ?Hds; reflexivity].
Qed.

Lemma C10_only_function_calls_served_witness :
  tool_ids (pushes (snd (Scenario.run Scenario.mixed_turn))) =
    ["call_1"%string; "call_3"%string] /\
  length (filter is_tool (pushes (snd (Scenario.run Scenario.mixed_turn)))) = 2 /\
  map fst (dispatches (snd (Scenario.run Scenario.mixed_turn))) =
    ["get-users"%string; "get-users"%string].
Proof.
  destruct (@C10_only_function_calls_served _ _ _ _ _ _
              (first_body "llama-3.1-8b-instant" Scenario.started "Who is there?")
              (Scenario.asks [Scenario.call_1; Scenario.custom_call; Scenario.call_3])
              [] [Scenario.call_1; Scenario.custom_call; Scenario.call_3]
              reachable_started (run_eq Scenario.mixed_turn))
    as (k & Hids & Hlen & _ & _ & Hthrough & Hcases).
  - vm_compute. reflexivity.
  - reflexivity.
  - assert (Hk : k = 2).
    { apply Hthrough.
      - repeat constructor; exists (JObj []); vm_compute; reflexivity.
      - intros n a e H. vm_compute in H.
        repeat (destruct H as [H|H]; [discriminate|]). exact H. }
    rewrite Hk in Hids, Hlen, Hcases. splits.
    + exact Hids.
    + exact Hlen.
    + destruct Hcases as [(_ & Hd)|(c & e & Hnext & _)]; [exact Hd|discriminate].
Defined.

(** * Further properties of [src/api.ts] *)

Lemma triple_eta (A B C : Type) (x : A * B * C) :
  x = (fst (fst x), snd (fst x), snd x).
Proof. destruct x as [[a b] c]. reflexivity. Qed.



Lemma selection_inr (s : Server) (provider : string) (sel : LlmClient * string) :
  selection s provider = inr sel ->
  (toLowerCase provider = "openai"%string /\ openai s = Some (fst sel) /\
   snd sel = "gpt-4o-mini"%string) \/
  (toLowerCase provider = "groq"%string /\ groq s = Some (fst sel) /\
   snd sel = "llama-3.1-8b-instant"%string).
Proof.
  unfold selection.
  destruct (toLowerCase provider =? "openai")%string eqn:Eo.
  - apply String.eqb_eq in Eo.
    destruct (openai s); intros H; inversion H; subst. left. auto.
  - destruct (toLowerCase provider =? "groq")%string eqn:Eg; [|discriminate].
    apply String.eqb_eq in Eg.
    destruct (groq s); intros H; inversion H; subst. right. auto.
Qed.

Lemma asks_only_turn (w : World) (c : LlmClient) (sp sm prompt : string)
    (s : Server) (o : Outcome Empty_set) (s' : Server) (t' : Transcript) :
  turn_run w c sp sm prompt s [] o s' t' -> asks_only c sm t'.
Proof.
  assert (Hserved : forall m ds,
             asks_only c sm (tools_served w c sm s [] prompt m ds)).
  { intros m ds. unfold asks_only, tools_served, asked_first. simpl.
    repeat constructor. apply Forall_flat_map. apply Forall_forall.
    intros d _. repeat constructor. }
  intros H; inversion H; subst; unfold asks_only in *.
  - unfold asked_first. simpl. repeat constructor.
  - apply Hserved.
  - apply Forall_app. split; [apply Hserved|].
    match goal with
    | Hf : failed_at _ _ _ _ _ |- _ =>
        destruct Hf as (c1 & _ & [(-> & _)|(a & _ & ->)])
    end; repeat constructor.
  - apply Forall_app. split; [apply Hserved|]. repeat constructor.
  - apply Forall_app. split; [apply Hserved|]. repeat constructor.
Qed.

(** A successful response names the provider in lower case and the model
    used: the model of the request when it has one, else "gpt-4o-mini" for
    openai and "llama-3.1-8b-instant" for groq.  Every completion request of
    the turn went to that provider's client with that model. *)
Theorem chat_reports_provider_and_model (w : World) (req : Request) (s : Server)
    (answer : option string) (p mdl : string) (s' : Server) (t' : Transcript) :
  reachable s ->
  chat w req s [] = (mkResponse 200 (ChatBody answer p mdl), s', t') ->
  (exists named, provider_of req = JStr named /\ p = toLowerCase named) /\
  exists c,
    ((p = "openai"%string /\ openai s = Some c /\
      mdl = or_default (req_model req) "gpt-4o-mini") \/
     (p = "groq"%string /\ groq s = Some c /\
      mdl = or_default (req_model req) "llama-3.1-8b-instant")) /\
    asks_only c mdl t'.
Proof.
  intros Hr E.
  apply chat_cases in E; [|apply reachable_client; exact Hr].
  destruct E as [(_ & _ & [H400|(e & _ & H500)])
                |(prompt & sel & o & named & _ & _ & (Hname & Hsel) & Hrun & Hresp)];
    [simpl in H400; discriminate|discriminate|].
  pose proof (asks_only_turn Hrun) as Hasks.
  assert (Hpm : p = toLowerCase named /\
                mdl = or_default (req_model req) (snd sel)).
  { inversion Hrun; subst o; simpl in Hresp; unfold surfaced, chat_ok in Hresp;
      inversion Hresp; auto. }
  destruct Hpm as [Hp Hm]. split; [eauto|].
  exists (fst sel). rewrite Hm, Hp. split; [|exact Hasks].
  destruct (selection_inr _ _ Hsel) as [(Hl & Hc & Hd)|(Hl & Hc & Hd)];
    rewrite Hd; [left|right]; auto.
Qed.

Lemma chat_reports_provider_and_model_witness :
  (exists named,
      provider_of (Scenario.ask "Hello.") = JStr named /\
      "groq"%string = toLowerCase named) /\
  exists c,
    (("groq"%string = "openai"%string /\ openai Scenario.started = Some c /\
      "llama-3.1-8b-instant"%string = or_default None "gpt-4o-mini") \/
     ("groq"%string = "groq"%string /\ groq Scenario.started = Some c /\
      "llama-3.1-8b-instant"%string = or_default None "llama-3.1-8b-instant")) /\
    asks_only c "llama-3.1-8b-instant"
              (snd (Scenario.run (Scenario.plain_turn "Hello." "Hi."))).
Proof.
  apply (@chat_reports_provider_and_model
           (fst (Scenario.plain_turn "Hello." "Hi.")) (Scenario.ask "Hello.")
           Scenario.started (Some "Hi."%string) "groq" "llama-3.1-8b-instant"
           (snd (fst (Scenario.run (Scenario.plain_turn "Hello." "Hi."))))
           (snd (Scenario.run (Scenario.plain_turn "Hello." "Hi.")))
           reachable_started).
  vm_compute. reflexivity.
Defined.

(** The first completion request of a turn carries at most ten messages:
    the system prompt first, the prompt of the request last; and it
    advertises the adapter's view of the catalog. *)
Theorem first_request_window (w : World) (req : Request) (s : Server)
    (resp : Response) (s' : Server) (t' : Transcript)
    (b : CompletionBody) (o : JsError + Completion) :
  reachable s ->
  chat w req s [] = (resp, s', t') ->
  nth_error (completions t') 0 = Some (b, o) ->
  length (cb_messages b) <= 10 /\
  hd_error (cb_messages b) = Some (SystemMsg system_prompt) /\
  (exists prompt front,
      req_prompt req = Some prompt /\ cb_messages b = front ++ [UserMsg prompt]) /\
  cb_tools b = Some (toProviderSchema (tools s)).
Proof.
  intros Hr E H0.
  apply chat_cases in E; [|apply reachable_client; exact Hr].
  destruct E as [(_ & Ht & _)|(prompt & sel & out & p & Hp & _ & _ & Hrun & _)].
  { subst t'. discriminate. }
  pose proof (turn_run_first Hrun) as H1.
  assert (Hb : b = first_body (or_default (req_model req) (snd sel)) s prompt).
  { destruct (completions t') as [|x rest]; [discriminate|].
    simpl in H0, H1. congruence. }
  subst b. unfold first_body, after_user. simpl. splits.
  - rewrite limit_length. destruct (10 <? _) eqn:E10; [lia|].
    apply Nat.ltb_ge in E10. exact E10.
  - destruct (reachable_history Hr) as (rest & Hm & Hrest). rewrite Hm.
    destruct (limit_keeps_system system_prompt prompt Hrest) as (rest' & -> & _).
    reflexivity.
  - destruct (limit_keeps_last (messages s) (UserMsg prompt)) as (front & Hfront).
    exists prompt, front. auto.
  - reflexivity.
Qed.

Lemma first_request_window_witness :
  length (cb_messages (first_body "llama-3.1-8b-instant"
                         (session (Scenario.direct_turns 6) Scenario.started) "Hello."))
  <= 10.
Proof.
  apply (@first_request_window
           (fst (Scenario.plain_turn "Hello." "Hi.")) (Scenario.ask "Hello.")
           (session (Scenario.direct_turns 6) Scenario.started)
           _ _ _ _ (inr [Scenario.says "Hi."])
           (reachable_session (Scenario.direct_turns 6) reachable_started)
           (triple_eta _)).
  vm_compute. reflexivity.
Defined.

Lemma startup_state (w : World) :
  startup w =
  mkServer (Some api_client) (fetched_catalog w)
           (if truthy_opt (env_OPENAI_API_KEY w) then Some OpenAIClient else None)
           (if truthy_opt (env_GROQ_API_KEY w) then Some GroqClient else None)
           [SystemMsg system_prompt].
Proof.
  unfold startup, fetched_catalog, initMcpClient, bind, remote, set_openai,
    set_groq, set_client, set_tools, ret.
  destruct (truthy_opt (env_OPENAI_API_KEY w));
    destruct (truthy_opt (env_GROQ_API_KEY w)); simpl;
    destruct (connect w []); simpl; try reflexivity;
    destruct (listTools w _); reflexivity.
Qed.

Lemma turn_frame (w : World) (req : Request) (s : Server) :
  reachable s ->
  client (turn w req s) = client s /\ tools (turn w req s) = tools s /\
  openai (turn w req s) = openai s /\ groq (turn w req s) = groq s.
Proof.
  intros Hr. unfold turn.
  destruct (chat w req s []) as [[resp s'] t'] eqn:E. simpl.
  apply chat_cases in E; [|apply reachable_client; exact Hr].
  destruct E as [(-> & _)|(prompt & sel & o & p & _ & _ & _ & Hrun & _)]; auto.
  eapply turn_run_frame; eauto.
Qed.

Lemma session_frame (turns : list (World * Request)) :
  forall s, reachable s ->
  client (session turns s) = client s /\ tools (session turns s) = tools s /\
  openai (session turns s) = openai s /\ groq (session turns s) = groq s.
Proof.
  induction turns as [|[w req] rest IH]; intros s Hr; simpl; auto.
  destruct (turn_frame w req Hr) as (H1 & H2 & H3 & H4).
  destruct (IH (turn w req s) (reach_turn w req Hr)) as (I1 & I2 & I3 & I4).
  splits; congruence.
Qed.

(** Whatever happens in a session, the catalog and the provider clients are
    those set at startup: the catalog is the list fetched then, empty when
    connecting or listing failed, and no turn fetches it again; a provider
    has a client exactly when its key was set in the environment. *)
Theorem configuration_fixed_at_startup (w : World) (turns : list (World * Request)) :
  tools (session turns (startup w)) = fetched_catalog w /\
  client (session turns (startup w)) = Some api_client /\
  openai (session turns (startup w)) =
    (if truthy_opt (env_OPENAI_API_KEY w) then Some OpenAIClient else None) /\
  groq (session turns (startup w)) =
    (if truthy_opt (env_GROQ_API_KEY w) then Some GroqClient else None).
Proof.
  destruct (session_frame turns (reach_startup w)) as (H1 & H2 & H3 & H4).
  rewrite H1, H2, H3, H4, startup_state. simpl. auto.
Qed.



(** Tool results are folded in one at a time: in every turn each answered
    dispatch is directly followed by the push of its tool message, so no
    second tool is dispatched and no completion is requested while a result
    is not yet in the history. *)
Theorem tool_results_folded_in_place (w : World) (req : Request) (s : Server)
    (resp : Response) (s' : Server) (t' : Transcript) :
  reachable s ->
  chat w req s [] = (resp, s', t') ->
  folded_in_place w t'.
Proof.
  intros Hr E.
  apply chat_cases in E; [|apply reachable_client; exact Hr].
  destruct E as [(_ & -> & _)|(prompt & sel & o & p & _ & _ & _ & Hrun & _)];
    [exact I|].
  inversion Hrun as [e He|m Hm Hdirect|m calls ds tail e Hm Hcalls Hds Hparse Hfail
                    |m calls ds e Hm Hcalls Hds Hparse Hfinal
                    |m calls ds fm Hm Hcalls Hds Hparse Hfinal];
    subst o s' t'; unfold tools_served, asked_first; simpl;
    rewrite <- ?app_assoc; try apply folded_served; simpl; auto.
  destruct Hfail as (c1 & _ & [(-> & _)|(a & _ & ->)]); simpl; auto.
Qed.

Lemma tool_results_folded_in_place_witness :
  folded_in_place (fst (Scenario.tool_turn "Who is there?" "Two users."))
                  (snd (Scenario.run (Scenario.tool_turn "Who is there?" "Two users."))).
Proof.
  exact (@tool_results_folded_in_place _ _ _ _ _ _ reachable_started
           (run_eq (Scenario.tool_turn "Who is there?" "Two users."))).
Defined.

Lemma dispatch_of_served (w : World) (ds : list Dispatch) :
  Forall (parsed w) ds ->
  Forall2 (dispatch_of w) (map d_call ds)
          (map (fun d => (tc_name (d_call d), d_args d)) ds).
Proof.
  induction 1 as [|d ds Hd Hds IH]; simpl; constructor; auto.
  split; [reflexivity|exact Hd].
Qed.

(** Each tool is dispatched under the function name of its call and with the
    JSON decoding of the call's argument text: the dispatches of a turn
    match, one by one and in order, the first calls typed "function". *)
Theorem dispatches_decode_calls (w : World) (req : Request) (s : Server)
    (resp : Response) (s' : Server) (t' : Transcript)
    (b1 : CompletionBody) (m : AssistantMessage) (others : Completion)
    (calls : list ToolCall) :
  reachable s ->
  chat w req s [] = (resp, s', t') ->
  nth_error (completions t') 0 = Some (b1, inr (m :: others)) ->
  tool_calls m = Some calls ->
  Forall2 (dispatch_of w)
          (firstn (length (dispatches t')) (function_calls calls))
          (dispatches t').
Proof.
  intros Hr E H0 Hcalls.
  apply chat_cases in E; [|apply reachable_client; exact Hr].
  destruct E as [(_ & Ht & _)|(prompt & sel & o & p & Hp & _ & _ & Hrun & Hresp)].
  { subst t'. discriminate. }
  destruct (first_of_turn Hrun H0) as [Hb1 Hm]. subst b1. clear H0.
  assert (Hserved : forall ds : list Dispatch,
             Forall (parsed w) ds ->
             map d_call ds = firstn (length ds) (function_calls calls) ->
             Forall2 (dispatch_of w)
                     (firstn (length ds) (function_calls calls))
                     (map (fun d => (tc_name (d_call d), d_args d)) ds)).
  { intros ds Hps Hds. rewrite <- Hds. apply dispatch_of_served. exact Hps. }
  assert (Hwhole : forall ds : list Dispatch,
             map d_call ds = function_calls calls ->
             map d_call ds = firstn (length ds) (function_calls calls)).
  { intros ds Hds. rewrite <- Hds. symmetry. apply firstn_all2.
    rewrite length_map. lia. }
  inversion Hrun as [e He|m0 Hm0 Hdirect|m0 calls0 ds tail e Hm0 Hcalls0 Hds Hparse Hfail
                    |m0 calls0 ds e Hm0 Hcalls0 Hds Hparse Hfinal
                    |m0 calls0 ds fm Hm0 Hcalls0 Hds Hparse Hfinal];
    subst o s' t'; try congruence;
    assert (m0 = m) by congruence; subst m0; try congruence;
    assert (calls0 = calls) by congruence; subst calls0;
    rewrite !dispatches_app, dispatches_tools_served.
  - destruct Hfail as (c1 & Hnext & [(-> & _)|(a & Ha & ->)]); simpl.
    + rewrite app_nil_r, length_map. apply Hserved; auto.
    + rewrite length_app, length_map. simpl.
      replace (length ds + 1) with (S (length ds)) by lia.
      rewrite (firstn_succ _ _ Hnext).
      apply Forall2_app; [apply Hserved; auto|].
      constructor; [|constructor]. split; [reflexivity|exact Ha].
  - simpl. rewrite app_nil_r, length_map. apply Hserved; auto.
  - simpl. rewrite app_nil_r, length_map. apply Hserved; auto.
Qed.

Lemma dispatches_decode_calls_witness :
  Forall2 (dispatch_of (fst (Scenario.tool_turn "Who is there?" "Two users.")))
          (firstn (length (dispatches
                             (snd (Scenario.run (Scenario.tool_turn "Who is there?" "Two users.")))))
                  (function_calls [Scenario.call_1]))
          (dispatches (snd (Scenario.run (Scenario.tool_turn "Who is there?" "Two users.")))).
Proof.
  apply (@dispatches_decode_calls _ _ _ _ _ _
           (first_body "llama-3.1-8b-instant" Scenario.started "Who is there?")
           (Scenario.asks [Scenario.call_1]) [] [Scenario.call_1]
           reachable_started
           (run_eq (Scenario.tool_turn "Who is there?" "Two users."))).
  - vm_compute. reflexivity.
  - reflexivity.
Defined.

Lemma lower_ascii_idem (c : ascii) : lower_ascii (lower_ascii c) = lower_ascii c.
Proof. destruct c as [[] [] [] [] [] [] [] []]; reflexivity. Qed.

Lemma toLowerCase_idem (s : string) : toLowerCase (toLowerCase s) = toLowerCase s.
Proof.
  induction s as [|c s IH]; simpl; [reflexivity|].
  rewrite lower_ascii_idem, IH. reflexivity.
Qed.

(** The provider name is matched without regard to letter case: a request
    naming a provider that can be served is handled exactly as the request
    naming it in lower case. *)
Theorem provider_case_insensitive (w : World) (req : Request) (s : Server)
    (p : string) :
  reachable s ->
  provider_of req = JStr p ->
  provider_available s p = true ->
  chat w req s [] = chat w (with_provider req (toLowerCase p)) s [].
Proof.
  intros Hr Hname Ha.
  rewrite !chat_run by (apply reachable_client; exact Hr).
  unfold with_provider. simpl req_prompt. simpl req_model.
  change (provider_of (mkRequest (req_prompt req) (Some (JStr (toLowerCase p)))
                                 (req_model req)))
    with (JStr (toLowerCase p)).
  rewrite Hname. simpl string_receiver. cbv iota.
  assert (Hsel : selection s (toLowerCase p) = selection s p).
  { revert Ha. unfold provider_available, selection. rewrite toLowerCase_idem.
    destruct (toLowerCase p =? "openai")%string; [reflexivity|].
    destruct (toLowerCase p =? "groq")%string; [reflexivity|discriminate]. }
  rewrite Hsel, toLowerCase_idem. reflexivity.
Qed.

Lemma provider_case_insensitive_witness :
  chat (fst (Scenario.plain_turn "Hello." "Hi."))
       (mkRequest (Some "Hello."%string) (Some (JStr "GROQ")) None)
       Scenario.started [] =
  chat (fst (Scenario.plain_turn "Hello." "Hi."))
       (with_provider (mkRequest (Some "Hello."%string) (Some (JStr "GROQ")) None)
                      "groq")
       Scenario.started [].
Proof.
  apply (@provider_case_insensitive
           (fst (Scenario.plain_turn "Hello." "Hi."))
           (mkRequest (Some "Hello."%string) (Some (JStr "GROQ")) None)
           Scenario.started "GROQ" reachable_started eq_refl).
  vm_compute. reflexivity.
Defined.

(** * Further properties of the [get-users] tool *)

Lemma lowered_test_holds (b : GetUsers.Backend) (expr : string) (v : option Json)
    (test : string -> bool) :
  text_or_falsy v -> GetUsers.lowered_test b expr v test = inr (holds b v test).
Proof.
  destruct v as [j|]; [|reflexivity].
  destruct j as [|flag|x|text|items|fields]; simpl; intros H;
    try discriminate; try (rewrite H; reflexivity); reflexivity.
Qed.

Lemma field_test_holds (b : GetUsers.Backend) (u : Json) (key : string)
    (test : string -> bool) :
  u <> JNull ->
  text_or_falsy (field u key) ->
  GetUsers.field_test b u key test = inr (holds b (field u key) test).
Proof.
  intros Hu Ht. unfold GetUsers.field_test. rewrite read_some by exact Hu.
  simpl. apply lowered_test_holds. exact Ht.
Qed.

Lemma detail_email_read (u : Json) :
  u <> JNull -> GetUsers.detail_email u = inr (detail_email_of u).
Proof.
  intros Hu. unfold GetUsers.detail_email, detail_email_of.
  rewrite read_some by exact Hu. simpl.
  destruct (field u "detail") as [d|]; [|reflexivity].
  destruct d; reflexivity.
Qed.

Lemma detail_test_holds (b : GetUsers.Backend) (u : Json) (test : string -> bool) :
  u <> JNull ->
  text_or_falsy (detail_email_of u) ->
  GetUsers.detail_test b u test = inr (holds b (detail_email_of u) test).
Proof.
  intros Hu Ht. unfold GetUsers.detail_test. rewrite detail_email_read by exact Hu.
  simpl. apply lowered_test_holds. exact Ht.
Qed.

Lemma or_else_values (x y : bool) : or_else (inr x) (inr y) = inr (x || y).
Proof. destruct x; reflexivity. Qed.

Lemma search_match_readable (b : GetUsers.Backend) (term : string) (u : Json) :
  readable_user u ->
  GetUsers.search_match b term u = inr (matches_search b term u).
Proof.
  intros (Hu & H1 & H2 & H3 & H4 & H5 & H6 & _).
  unfold GetUsers.search_match, matches_search.
  rewrite !field_test_holds, detail_test_holds by assumption.
  rewrite !or_else_values. reflexivity.
Qed.

Lemma startsWith_match_readable (b : GetUsers.Backend) (term : string) (u : Json) :
  readable_user u ->
  GetUsers.startsWith_match b term u = inr (matches_start b term u).
Proof.
  intros (Hu & H1 & H2 & H3 & _).
  unfold GetUsers.startsWith_match, matches_start.
  rewrite !field_test_holds by assumption.
  rewrite !or_else_values. reflexivity.
Qed.

Lemma role_match_readable (b : GetUsers.Backend) (roleTerm : string) (u : Json) :
  readable_user u ->
  GetUsers.role_match b roleTerm u = inr (has_role b roleTerm u).
Proof.
  intros (Hu & _ & _ & _ & _ & _ & _ & H7).
  unfold GetUsers.role_match, has_role. apply field_test_holds; assumption.
Qed.

Lemma id_match_readable (b : GetUsers.Backend) (id_ : string) (u : Json) :
  readable_user u ->
  GetUsers.id_match b id_ u = inr (has_id b id_ u).
Proof.
  intros (Hu & _). unfold GetUsers.id_match, has_id.
  rewrite read_some by exact Hu. reflexivity.
Qed.

Lemma or_json_text (v : option Json) (fallback : Json) :
  text_or_falsy v ->
  (exists s, fallback = JStr s) ->
  exists s, or_json v fallback = JStr s.
Proof.
  intros Hv Hf. destruct v as [j|]; [|exact Hf].
  destruct j as [|flag|x|text|items|fields]; simpl in *;
    try discriminate; try (rewrite Hv; exact Hf); try exact Hf.
  destruct (truthy_string text); eauto.
Qed.

Lemma raw_email_text (u : Json) :
  readable_user u -> exists s, raw_email u = JStr s.
Proof.
  intros (_ & _ & _ & _ & H4 & H5 & H6 & _). unfold raw_email.
  repeat (apply or_json_text; [assumption|]). eauto.
Qed.

Lemma rawEmail_read (u : Json) :
  u <> JNull -> GetUsers.rawEmail u = inr (raw_email u).
Proof.
  intros Hu. unfold GetUsers.rawEmail, raw_email.
  rewrite detail_email_read, !read_some by exact Hu. reflexivity.
Qed.

Lemma simplify_readable (u : Json) :
  readable_user u -> GetUsers.simplify u = inr (simplified_user u).
Proof.
  intros Hr. destruct (raw_email_text Hr) as [raw Hraw].
  destruct Hr as (Hu & _).
  unfold GetUsers.simplify, simplified_user.
  rewrite rawEmail_read, !read_some by exact Hu. simpl and_then.
  rewrite Hraw. reflexivity.
Qed.

Lemma filter_throwing_ok (A : Type) (keep : A -> JsError + bool) (g : A -> bool)
    (l : list A) :
  Forall (fun x => keep x = inr (g x)) l ->
  filter_throwing keep l = inr (filter g l).
Proof.
  induction 1 as [|x l Hx Hl IH]; simpl; [reflexivity|].
  rewrite Hx, IH. reflexivity.
Qed.

Lemma Forall_filter (A : Type) (P : A -> Prop) (g : A -> bool) (l : list A) :
  Forall P l -> Forall P (filter g l).
Proof.
  intros H. apply Forall_forall. intros x Hx. apply filter_In in Hx.
  rewrite Forall_forall in H. apply H. tauto.
Qed.

Lemma filter_when_users (arg : option string)
    (keep : string -> Json -> JsError + bool) (g : string -> Json -> bool)
    (us : list Json) :
  (forall v u, readable_user u -> keep v u = inr (g v u)) ->
  Forall readable_user us ->
  GetUsers.filter_when arg keep (Some (JArr us)) =
  inr (Some (JArr (filter (fun u => wanted arg (fun v => g v u)) us))).
Proof.
  intros Hkeep Hus. unfold GetUsers.filter_when, wanted.
  assert (Hall : filter (fun _ : Json => true) us = us)
    by (clear; induction us as [|u us IH]; simpl; [|rewrite IH]; reflexivity).
  destruct arg as [v|]; [|rewrite Hall; reflexivity].
  destruct (truthy_string v); [|rewrite Hall; reflexivity].
  simpl. rewrite (@filter_throwing_ok _ (keep v) (g v)); [reflexivity|].
  apply Forall_forall. intros u Hu. apply Hkeep.
  rewrite Forall_forall in Hus. auto.
Qed.

Lemma filter_filter (A : Type) (p q : A -> bool) (l : list A) :
  filter q (filter p l) = filter (fun x => p x && q x) l.
Proof.
  induction l as [|x l IH]; simpl; [reflexivity|].
  destruct (p x); simpl; [destruct (q x)|]; rewrite ?IH; reflexivity.
Qed.

Lemma map_throwing_ok (A B : Type) (f : A -> JsError + B) (g : A -> B)
    (l : list A) :
  Forall (fun x => f x = inr (g x)) l -> map_throwing f l = inr (map g l).
Proof.
  induction 1 as [|x l Hx Hl IH]; simpl; [reflexivity|].
  rewrite Hx, IH. reflexivity.
Qed.

Lemma get_users_on_readable (b : GetUsers.Backend) (args : GetUsers.Args)
    (us : list Json) :
  users_answer b = inr (Some (JArr us)) ->
  Forall readable_user us ->
  GetUsers.get_users b args =
  users_result b
    (map simplified_user (filter (selected b args) us))
    (slice_numbers (map simplified_user (filter (selected b args) us))
                   (offset_of args) (js_add (offset_of args) (limit_of args))).
Proof.
  unfold users_answer. intros Ha Hus.
  unfold GetUsers.get_users, GetUsers.try_block. rewrite Ha. cbn [and_then].
  rewrite (@filter_when_users (GetUsers.search args) _
             (fun v => matches_search b (GetUsers.toLowerCase b v)))
    by (auto using search_match_readable).
  cbn [and_then].
  rewrite (@filter_when_users (GetUsers.startsWith args) _
             (fun v => matches_start b (GetUsers.toLowerCase b v)))
    by (auto using startsWith_match_readable, Forall_filter).
  cbn [and_then].
  rewrite (@filter_when_users (GetUsers.role args) _
             (fun v => has_role b (GetUsers.toLowerCase b v)))
    by (auto using role_match_readable, Forall_filter).
  cbn [and_then].
  rewrite (@filter_when_users (GetUsers.id args) _ (has_id b))
    by (auto using id_match_readable, Forall_filter).
  cbn [and_then GetUsers.as_array].
  rewrite !filter_filter. fold (selected b args).
  rewrite (@map_throwing_ok _ _ GetUsers.simplify simplified_user).
  - reflexivity.
  - apply Forall_forall. intros u Hu. apply simplify_readable.
    apply filter_In in Hu. rewrite Forall_forall in Hus. apply Hus. tauto.
Qed.

(** On an array of readable users the four filters act as one: the users
    found are those that pass every filter whose argument is present and
    not empty, simplified, in the order of the response; the page is the
    slice from [offset] to [offset + limit] of them, and the result, never
    an error, reports the number found and the number on the page. *)
Theorem get_users_filters_compose (b : GetUsers.Backend) (args : GetUsers.Args)
    (us : list Json) :
  users_answer b = inr (Some (JArr us)) ->
  Forall readable_user us ->
  GetUsers.get_users b args =
  users_result b
    (map simplified_user (filter (selected b args) us))
    (slice_numbers (map simplified_user (filter (selected b args) us))
                   (offset_of args) (js_add (offset_of args) (limit_of args))).
Proof. exact (@get_users_on_readable b args us). Qed.

Lemma three_readable_users :
  Forall readable_user [Scenario.alice; Scenario.bob; Scenario.anna].
Proof.
  repeat constructor; try discriminate; exact I.
Qed.

Lemma get_users_filters_compose_witness :
  GetUsers.get_users Scenario.backend_up Scenario.starting_with_A =
  users_result Scenario.backend_up
    (map simplified_user [Scenario.alice; Scenario.anna])
    (map simplified_user [Scenario.alice; Scenario.anna]).
Proof.
  rewrite (@get_users_filters_compose Scenario.backend_up Scenario.starting_with_A
             [Scenario.alice; Scenario.bob; Scenario.anna] eq_refl
             three_readable_users).
  reflexivity.
Defined.

Lemma filter_when_inactive (arg : option string)
    (keep : string -> Json -> JsError + bool) (data : option Json) :
  truthy_opt arg = false -> GetUsers.filter_when arg keep data = inr data.
Proof.
  unfold GetUsers.filter_when. destruct arg as [v|]; [|reflexivity].
  simpl. intros ->. reflexivity.
Qed.

Lemma simplify_throws (u : Json) :
  (exists e, GetUsers.simplify u = inl e) <-> unreadable_email u.
Proof.
  unfold unreadable_email.
  assert (Hnull : u = JNull \/ u <> JNull)
    by (destruct u; auto; right; discriminate).
  destruct Hnull as [->|Hu].
  { split; [intros _; left; reflexivity|intros _; vm_compute; eauto]. }
  unfold GetUsers.simplify. rewrite rawEmail_read, !read_some by exact Hu.
  cbn [and_then]. remember (raw_email u) as raw eqn:Eraw.
  destruct raw as [|flag|x|text|items|fields]; cbn [GetUsers.email_of and_then];
    split;
    try (intros _; right; intros s0; discriminate);
    try (intros _; solve [eauto]).
  - intros [e He]. discriminate.
  - intros [H|H]; [contradiction|destruct (H text eq_refl)].
Qed.

Lemma map_throwing_throws (A B : Type) (f : A -> JsError + B) (l : list A) :
  (exists e, map_throwing f l = inl e) <-> Exists (fun x => exists e, f x = inl e) l.
Proof.
  induction l as [|x l IH]; simpl.
  - split; [intros [e H]; discriminate|intros H; inversion H].
  - destruct (f x) as [e|y] eqn:Ex.
    + split; [intros _; left; eauto|eauto].
    + destruct (map_throwing f l) as [e|ys].
      * split; [intros _; right; apply IH; eauto|eauto].
      * split; [intros [e H]; discriminate|].
        intros H. inversion H as [? ? [e He]|? ? Hl]; subst; [congruence|].
        apply IH in Hl. destruct Hl as [e He]. discriminate.
Qed.

(** A null element makes [get-users] fail whatever the arguments: the first
    callback that meets it throws.  A call without filters fails exactly
    when the request is rejected, the body is not an array, or an element
    is null or has, as its first truthy email, a value that is not a
    string. *)
Theorem get_users_error_cases (b : GetUsers.Backend) (args : GetUsers.Args) :
  (forall items,
      users_answer b = inr (Some (JArr items)) ->
      In JNull items ->
      exists e,
        GetUsers.try_block b args = inl e /\
        GetUsers.get_users b args
          = GetUsers.text_result (GetUsers.diagnostic b e) true) /\
  (no_filters args ->
   (isError (GetUsers.get_users b args) = true <-> unfiltered_failure b)).
Proof.
  split.
  - unfold users_answer. intros items Ha Hin.
    destruct (@get_users_null_element b args items Ha Hin) as [e He]. exists e.
    split; [exact He|]. unfold GetUsers.get_users. rewrite He. reflexivity.
  - intros (H1 & H2 & H3 & H4).
    unfold unfiltered_failure, users_answer, GetUsers.get_users, GetUsers.try_block.
    destruct (GetUsers.axios_get b GetUsers.users_url
                (GetUsers.env_DOMO_DEVELOPER_TOKEN b)) as [e|data];
      [simpl; tauto|].
    cbn [and_then].
    do 4 (rewrite filter_when_inactive by assumption; cbn [and_then]).
    destruct data as [[|flag|x|text|items|fields]|]; try (simpl; tauto).
    cbn [GetUsers.as_array and_then].
    destruct (map_throwing GetUsers.simplify items) as [e|simplified] eqn:Emap.
    + simpl. split; [intros _|reflexivity].
      assert (Hex : exists e, map_throwing GetUsers.simplify items = inl e) by eauto.
      apply map_throwing_throws in Hex.
      apply Exists_exists in Hex. destruct Hex as (u & Hu & He).
      apply Exists_exists. exists u. split; [exact Hu|].
      apply simplify_throws. exact He.
    + simpl. split; [discriminate|]. intros Hex. exfalso.
      apply Exists_exists in Hex. destruct Hex as (u & Hu & Hbad).
      apply simplify_throws in Hbad.
      destruct (@map_throwing_fails _ _ GetUsers.simplify items u Hu Hbad) as [e He].
      congruence.
Qed.

Lemma get_users_error_cases_witness :
  (exists e,
      GetUsers.try_block Scenario.backend_with_null Scenario.starting_with_A = inl e /\
      GetUsers.get_users Scenario.backend_with_null Scenario.starting_with_A
        = GetUsers.text_result (GetUsers.diagnostic Scenario.backend_with_null e)
                               true) /\
  isError (GetUsers.get_users Scenario.backend_with_null Scenario.no_args) = true.
Proof.
  destruct (get_users_error_cases Scenario.backend_with_null Scenario.starting_with_A)
    as [Hnull _].
  destruct (get_users_error_cases Scenario.backend_with_null Scenario.no_args)
    as [_ Hiff].
  split.
  - apply (Hnull [Scenario.alice; JNull]); [reflexivity|right; left; reflexivity].
  - apply Hiff; [repeat split|].
    unfold unfiltered_failure. simpl.
    apply Exists_cons_tl. apply Exists_cons_hd. left. reflexivity.
Defined.

Lemma slice_numbers_window (A : Type) (l : list A) (start end_ : Number) :
  exists k n, slice_numbers l start end_ = firstn n (skipn k l).
Proof. unfold slice_numbers. eauto. Qed.

Lemma window_within (A : Type) (l : list A) (k n : nat) :
  l = firstn k l ++ firstn n (skipn k l) ++ skipn n (skipn k l).
Proof. rewrite firstn_skipn, firstn_skipn. reflexivity. Qed.

(** The page [get-users] returns is a run of consecutive entries of the
    users found, whatever numbers limit and offset are: the users found are
    the simplified readable users that pass the filters, in the order of
    the response, and every user on the page is one of them. *)
Theorem get_users_page_sound (b : GetUsers.Backend) (args : GetUsers.Args)
    (us : list Json) :
  users_answer b = inr (Some (JArr us)) ->
  Forall readable_user us ->
  exists before page after,
    GetUsers.get_users b args =
      users_result b (map simplified_user (filter (selected b args) us)) page /\
    map simplified_user (filter (selected b args) us) = before ++ page ++ after /\
    length page <= length (filter (selected b args) us) /\
    length (filter (selected b args) us) <= length us /\
    Forall (fun su => exists u, In u us /\ selected b args u = true /\
                                su = simplified_user u) page.
Proof.
  intros Ha Hus.
  rewrite (@get_users_on_readable b args us Ha Hus).
  set (all := map simplified_user (filter (selected b args) us)).
  destruct (slice_numbers_window all (offset_of args)
              (js_add (offset_of args) (limit_of args))) as (k & n & Hpage).
  rewrite Hpage.
  exists (firstn k all), (firstn n (skipn k all)), (skipn n (skipn k all)).
  splits.
  - reflexivity.
  - apply window_within.
  - rewrite length_firstn, length_skipn. unfold all. rewrite length_map. lia.
  - apply filter_length_le.
  - apply Forall_forall. intros su Hsu.
    assert (Hin : In su all).
    { rewrite (window_within all k n). apply in_or_app. right.
      apply in_or_app. left. exact Hsu. }
    unfold all in Hin. apply in_map_iff in Hin. destruct Hin as (u & <- & Hu).
    apply filter_In in Hu. destruct Hu as [Hin Hsel]. eauto.
Qed.

Lemma get_users_page_sound_witness :
  exists before page after,
    GetUsers.get_users Scenario.backend_up Scenario.fractional_page =
      users_result Scenario.backend_up
        (map simplified_user
           (filter (selected Scenario.backend_up Scenario.fractional_page)
                   [Scenario.alice; Scenario.bob; Scenario.anna])) page /\
    map simplified_user
        (filter (selected Scenario.backend_up Scenario.fractional_page)
                [Scenario.alice; Scenario.bob; Scenario.anna])
      = before ++ page ++ after /\
    length page <=
      length (filter (selected Scenario.backend_up Scenario.fractional_page)
                     [Scenario.alice; Scenario.bob; Scenario.anna]) /\
    length (filter (selected Scenario.backend_up Scenario.fractional_page)
                   [Scenario.alice; Scenario.bob; Scenario.anna]) <= 3 /\
    Forall (fun su => exists u,
                In u [Scenario.alice; Scenario.bob; Scenario.anna] /\
                selected Scenario.backend_up Scenario.fractional_page u = true /\
                su = simplified_user u) page.
Proof.
  exact (@get_users_page_sound Scenario.backend_up Scenario.fractional_page
           [Scenario.alice; Scenario.bob; Scenario.anna] eq_refl
           three_readable_users).
Defined.

Lemma slice_window (A : Type) (l : list A) (o n : Z) :
  (0 <= o)%Z -> (0 <= n)%Z ->
  slice l o (Some (o + n)%Z) = firstn (Z.to_nat n) (skipn (Z.to_nat o) l).
Proof.
  intros Ho Hn. unfold slice, rel_index.
  replace (o <? 0)%Z with false by (symmetry; apply Z.ltb_ge; lia).
  replace (o + n <? 0)%Z with false by (symmetry; apply Z.ltb_ge; lia).
  destruct (Nat.le_gt_cases (length l) (Z.to_nat o)) as [Hout|Hin].
  - rewrite (skipn_all2 l Hout).
    rewrite (skipn_all2 l) by lia. rewrite !firstn_nil. reflexivity.
  - replace (Nat.min (Z.to_nat o) (length l)) with (Z.to_nat o) by lia.
    destruct (Nat.le_gt_cases (Z.to_nat n) (length l - Z.to_nat o)) as [Hfit|Hover].
    + f_equal. lia.
    + rewrite !firstn_all2 by (rewrite length_skipn; lia). reflexivity.
Qed.

Lemma slice_numbers_integers (A : Type) (l : list A) (start end_ : Number)
    (k e : Z) :
  ToIntegerOrInfinity start = Integer k ->
  ToIntegerOrInfinity end_ = Integer e ->
  (0 <= k <= e)%Z ->
  slice_numbers l start end_ = firstn (Z.to_nat (e - k)) (skipn (Z.to_nat k) l).
Proof.
  intros Hs He Hke. unfold slice_numbers. rewrite Hs, He. simpl rel_index_of.
  replace e with (k + (e - k))%Z at 1 by lia.
  apply (@slice_window A l k (e - k)%Z); lia.
Qed.

Lemma add_to_zero (x : Number) :
  ToIntegerOrInfinity (js_add (number_of_Z 0) x) = ToIntegerOrInfinity x.
Proof. destruct x as [[]|[]| |sign m e]; reflexivity. Qed.

(** The window of the page is set by the integer parts of [offset] and of
    [offset + limit], not by [limit]: when they are [k] and [e] with
    0 <= k <= e, the page is what is left of the users found after skipping
    [k], cut to [e - k].  When no offset is given, the integer part of
    [offset + limit] is the one of [limit]. *)
Theorem get_users_page_window (b : GetUsers.Backend) (args : GetUsers.Args)
    (us : list Json) (k e : Z) :
  users_answer b = inr (Some (JArr us)) ->
  Forall readable_user us ->
  ToIntegerOrInfinity (offset_of args) = Integer k ->
  ToIntegerOrInfinity (js_add (offset_of args) (limit_of args)) = Integer e ->
  (0 <= k <= e)%Z ->
  GetUsers.get_users b args =
    users_result b
      (map simplified_user (filter (selected b args) us))
      (firstn (Z.to_nat (e - k))
              (skipn (Z.to_nat k)
                     (map simplified_user (filter (selected b args) us)))) /\
  (GetUsers.offset args = None ->
   k = 0%Z /\ ToIntegerOrInfinity (limit_of args) = Integer e).
Proof.
  intros Ha Hus Hk He Hke. split.
  - rewrite (@get_users_on_readable b args us Ha Hus).
    rewrite (@slice_numbers_integers _ _ _ _ k e Hk He Hke). reflexivity.
  - intros Hnone. unfold offset_of in Hk, He. rewrite Hnone in Hk, He.
    rewrite add_to_zero in He. split; [|exact He].
    vm_compute in Hk. congruence.
Qed.

Lemma get_users_page_window_witness :
  GetUsers.get_users Scenario.backend_up Scenario.fractional_page =
    users_result Scenario.backend_up
      (map simplified_user [Scenario.alice; Scenario.bob; Scenario.anna])
      (map simplified_user [Scenario.alice; Scenario.bob]).
Proof.
  destruct (@get_users_page_window Scenario.backend_up Scenario.fractional_page
              [Scenario.alice; Scenario.bob; Scenario.anna] 0 2 eq_refl
              three_readable_users eq_refl eq_refl) as [H _].
  - lia.
  - rewrite H. reflexivity.
Defined.

Lemma filter_when_lower (b : GetUsers.Backend) (arg : option string)
    (keep : string -> Json -> JsError + bool) (data : option Json) :
  lowering_settles b ->
  GetUsers.filter_when (option_map (GetUsers.toLowerCase b) arg)
                       (fun v => keep (GetUsers.toLowerCase b v)) data =
  GetUsers.filter_when arg (fun v => keep (GetUsers.toLowerCase b v)) data.
Proof.
  intros [Hidem Htruthy].
  unfold GetUsers.filter_when. destruct arg as [v|]; simpl; [|reflexivity].
  rewrite Htruthy, Hidem. reflexivity.
Qed.

(** The text filters of [get-users] do not depend on the letter case of
    their arguments: with a lowering that leaves lowered texts alone, as
    the one of the runtime does, search, startsWith and role given in any
    case select what their lowered forms select, whatever the response. *)
Theorem get_users_filters_ignore_case (b : GetUsers.Backend) (args : GetUsers.Args) :
  lowering_settles b ->
  GetUsers.get_users b (lower_filters b args) = GetUsers.get_users b args.
Proof.
  intros Hl.
  unfold GetUsers.get_users, GetUsers.try_block, lower_filters.
  simpl GetUsers.limit. simpl GetUsers.offset. simpl GetUsers.search.
  simpl GetUsers.startsWith. simpl GetUsers.role. simpl GetUsers.id.
  destruct (GetUsers.axios_get b GetUsers.users_url
              (GetUsers.env_DOMO_DEVELOPER_TOKEN b)) as [e|data]; [reflexivity|].
  cbn [and_then].
  rewrite (@filter_when_lower b (GetUsers.search args) (GetUsers.search_match b))
    by exact Hl.
  destruct (GetUsers.filter_when (GetUsers.search args) _ data) as [e|d1];
    [reflexivity|]. cbn [and_then].
  rewrite (@filter_when_lower b (GetUsers.startsWith args)
             (GetUsers.startsWith_match b)) by exact Hl.
  destruct (GetUsers.filter_when (GetUsers.startsWith args) _ d1) as [e|d2];
    [reflexivity|]. cbn [and_then].
  rewrite (@filter_when_lower b (GetUsers.role args) (GetUsers.role_match b))
    by exact Hl.
  reflexivity.
Qed.

Lemma ascii_lowering_settles : lowering_settles Scenario.backend_up.
Proof.
  split; intros s; simpl.
  - apply toLowerCase_idem.
  - destruct s; reflexivity.
Qed.

Lemma get_users_filters_ignore_case_witness :
  GetUsers.get_users Scenario.backend_up
    (lower_filters Scenario.backend_up Scenario.starting_with_A) =
  GetUsers.get_users Scenario.backend_up Scenario.starting_with_A.
Proof.
  exact (@get_users_filters_ignore_case Scenario.backend_up Scenario.starting_with_A
           ascii_lowering_settles).
Defined.

Lemma before_underscore_clean (s : string) :
  ~ has_underscore (GetUsers.before_underscore s).
Proof.
  unfold has_underscore. induction s as [|c s IH]; simpl; [tauto|].
  destruct (Ascii.eqb c "_") eqn:E; simpl; [tauto|].
  intros [H|H]; [|exact (IH H)].
  subst c. rewrite Ascii.eqb_refl in E. discriminate.
Qed.

Lemma before_underscore_prefix (s : string) :
  exists rest, s = (GetUsers.before_underscore s ++ rest)%string.
Proof.
  induction s as [|c s [rest IH]]; simpl; [exists EmptyString; reflexivity|].
  destruct (Ascii.eqb c "_"); simpl.
  - eexists. reflexivity.
  - exists rest. f_equal. exact IH.
Qed.

Lemma before_underscore_same (s : string) :
  ~ has_underscore s -> GetUsers.before_underscore s = s.
Proof.
  unfold has_underscore. induction s as [|c s IH]; simpl; [reflexivity|].
  intros H. destruct (Ascii.eqb c "_") eqn:E.
  - apply Ascii.eqb_eq in E. subst c. tauto.
  - f_equal. apply IH. tauto.
Qed.

Lemma email_of_simplified (u su : Json) :
  GetUsers.simplify u = inr su ->
  exists raw,
    GetUsers.rawEmail u = inr (JStr raw) /\
    field su "email" = Some (JStr (GetUsers.before_underscore raw)).
Proof.
  unfold GetUsers.simplify.
  destruct (GetUsers.rawEmail u) as [e|raw] eqn:Eraw; [discriminate|].
  cbn [and_then].
  destruct raw as [|flag|x|text|items|fields]; try discriminate.
  cbn [GetUsers.email_of and_then].
  destruct (read (Some u) "id") as [e|id_]; [discriminate|].
  destruct (read (Some u) "displayName") as [e|displayName]; [discriminate|].
  destruct (read (Some u) "userName") as [e|userName]; [discriminate|].
  destruct (read (Some u) "name") as [e|name_]; [discriminate|].
  destruct (read (Some u) "role") as [e|role_]; [discriminate|].
  cbn [and_then]. intros H. inversion H; subst su. exists text.
  split; [reflexivity|].
  destruct id_ as [j1|];
    destruct (or_value displayName (or_value userName name_)) as [j2|];
    reflexivity.
Qed.

(** The email of a simplified user is the raw email (the first truthy of
    detail.email, email and emailAddress, else empty) up to its first
    underscore: whenever the simplification returns, the raw email is a
    string, the email kept holds no underscore, the raw email begins with
    it, and a raw email without underscore is kept whole. *)
Theorem simplified_email_without_suffix (u su : Json) :
  GetUsers.simplify u = inr su ->
  exists raw email,
    GetUsers.rawEmail u = inr (JStr raw) /\
    field su "email" = Some (JStr email) /\
    ~ has_underscore email /\
    (exists rest, raw = (email ++ rest)%string) /\
    (~ has_underscore raw -> email = raw).
Proof.
  intros H. destruct (@email_of_simplified u su H) as (raw & Hraw & Hemail).
  exists raw, (GetUsers.before_underscore raw). splits; auto.
  - apply before_underscore_clean.
  - apply before_underscore_prefix.
  - apply before_underscore_same.
Qed.

Lemma simplified_email_without_suffix_witness :
  exists raw email,
    GetUsers.rawEmail Scenario.anna = inr (JStr raw) /\
    field (simplified_user Scenario.anna) "email" = Some (JStr email) /\
    ~ has_underscore email /\
    (exists rest, raw = (email ++ rest)%string) /\
    (~ has_underscore raw -> email = raw).
Proof.
  exact (@simplified_email_without_suffix Scenario.anna
           (simplified_user Scenario.anna) eq_refl).
Defined.

(** * Further tools of [src/server.ts] *)

Lemma null_in_or_out (l : list Json) : In JNull l \/ ~ In JNull l.
Proof.
  induction l as [|x l [IH|IH]]; [right; intros []|left; right; exact IH|].
  destruct x; try (right; intros [H|H]; [discriminate|exact (IH H)]).
  left. left. reflexivity.
Qed.

Lemma simplify_document_ok (docs : list Json) :
  ~ In JNull docs ->
  map_throwing GetCollectionDocuments.simplify docs =
  inr (map simplified_document docs).
Proof.
  intros H. apply map_throwing_ok. apply Forall_forall. intros d Hd.
  assert (Hn : d <> JNull) by (intros ->; exact (H Hd)).
  unfold GetCollectionDocuments.simplify. rewrite !read_some by exact Hn.
  reflexivity.
Qed.

Lemma slice_first (A : Type) (l : list A) (n : nat) :
  slice l 0 (Some (Z.of_nat n)) = firstn n l.
Proof.
  rewrite <- (Nat2Z.id n) at 2.
  exact (@slice_window A l 0%Z (Z.of_nat n) (Z.le_refl 0) (Nat2Z.is_nonneg n)).
Qed.

(** [get-collection-documents] shows at most five documents: when the body
    of the response is an array without null elements (an absent or empty
    body counts as the empty array), the result is not an error and lists
    the first five documents in the order of the response, each reduced to
    its id and content. *)
Theorem documents_top_five (b : GetCollectionDocuments.Backend)
    (collectionId : string) (data : option Json) (docs : list Json) :
  GetCollectionDocuments.axios_get b
    (GetCollectionDocuments.documents_url collectionId)
    (GetCollectionDocuments.env_DOMO_DEVELOPER_TOKEN b) = inr data ->
  or_empty data = JArr docs ->
  ~ In JNull docs ->
  GetCollectionDocuments.get_collection_documents b collectionId =
    documents_result b (firstn 5 (map simplified_document docs)) /\
  length (firstn 5 (map simplified_document docs)) <= 5.
Proof.
  intros Ha Hd Hn. split; [|rewrite length_firstn; lia].
  unfold GetCollectionDocuments.get_collection_documents,
    GetCollectionDocuments.try_block.
  rewrite Ha, Hd. simpl elements. cbv iota.
  rewrite simplify_document_ok by exact Hn. cbv iota zeta.
  change 5%Z with (Z.of_nat 5). rewrite slice_first. reflexivity.
Qed.

Lemma documents_top_five_witness :
  GetCollectionDocuments.get_collection_documents Scenario.documents_backend "c1" =
    documents_result Scenario.documents_backend
      (firstn 5 (map simplified_document Scenario.seven_documents)) /\
  length (firstn 5 (map simplified_document Scenario.seven_documents)) <= 5.
Proof.
  apply (@documents_top_five Scenario.documents_backend "c1"
           (Some (JArr Scenario.seven_documents)) Scenario.seven_documents
           eq_refl eq_refl).
  vm_compute. intros H.
  repeat (destruct H as [H|H]; [discriminate|]). exact H.
Defined.

(** [get-collection-documents] reports an error exactly when the request is
    rejected, the body is neither empty nor an array, or an element of the
    array is null. *)
Theorem documents_error_iff (b : GetCollectionDocuments.Backend)
    (collectionId : string) :
  GetCollectionDocuments.isError
    (GetCollectionDocuments.get_collection_documents b collectionId) = true
  <-> documents_failure b collectionId.
Proof.
  unfold documents_failure, GetCollectionDocuments.get_collection_documents,
    GetCollectionDocuments.try_block.
  destruct (GetCollectionDocuments.axios_get b _ _) as [e|data]; [simpl; tauto|].
  destruct (or_empty data) as [| | | |docs|] eqn:Ed; simpl elements; cbv iota;
    try (simpl; tauto).
  split.
  - intros H.
    destruct (null_in_or_out docs) as [Hin|Hout]; [exact Hin|].
    rewrite simplify_document_ok in H by exact Hout. discriminate.
  - intros Hin.
    destruct (@map_throwing_fails _ _ GetCollectionDocuments.simplify docs JNull Hin)
      as [e ->]; [|reflexivity].
    unfold GetCollectionDocuments.simplify. simpl. eauto.
Qed.

Lemma set_owners_ok (b : QueryCollections.Backend) (owners : list Json) :
  ~ In JNull owners ->
  forall m,
    QueryCollections.set_owners b owners m =
    inr (rev (map (owner_entry b) owners) ++ m).
Proof.
  induction owners as [|o owners IH]; intros Hn m; [reflexivity|].
  assert (Ho : o <> JNull) by (intros ->; apply Hn; left; reflexivity).
  assert (Hrest : ~ In JNull owners) by (intros H; apply Hn; right; exact H).
  cbn [QueryCollections.set_owners]. rewrite !read_some by exact Ho.
  rewrite IH by exact Hrest. simpl. rewrite <- app_assoc. reflexivity.
Qed.

(** The owners map keeps the last entry of an owner id: after the entries
    [owners] and then [o] are set, looking up the id of [o] gives the name
    of [o], and looking up any other id gives what it gave before [o]. *)
Theorem owners_last_entry_wins (b : QueryCollections.Backend)
    (owners : list Json) (o : Json) (k : string) :
  ~ In JNull owners ->
  o <> JNull ->
  exists m m',
    QueryCollections.set_owners b owners [] = inr m /\
    QueryCollections.set_owners b (owners ++ [o]) [] = inr m' /\
    QueryCollections.map_get k m' =
      (if (QueryCollections.to_key b (field o "ownerId") =? k)%string
       then field o "ownerName"
       else QueryCollections.map_get k m).
Proof.
  intros Hn Ho.
  assert (Hn' : ~ In JNull (owners ++ [o])).
  { intros H. apply in_app_or in H. destruct H as [H|[H|[]]]; [exact (Hn H)|].
    exact (Ho H). }
  exists (rev (map (owner_entry b) owners) ++ []),
    (rev (map (owner_entry b) (owners ++ [o])) ++ []).
  splits.
  - apply set_owners_ok. exact Hn.
  - apply set_owners_ok. exact Hn'.
  - rewrite map_app, rev_app_distr. reflexivity.
Qed.

Lemma owners_last_entry_wins_witness :
  exists m m',
    QueryCollections.set_owners Scenario.collections_backend
      [Scenario.owner 7 "Old name"] [] = inr m /\
    QueryCollections.set_owners Scenario.collections_backend
      ([Scenario.owner 7 "Old name"] ++ [Scenario.owner 7 "New name"]) [] = inr m' /\
    QueryCollections.map_get "7" m' =
      (if (QueryCollections.to_key Scenario.collections_backend
             (field (Scenario.owner 7 "New name") "ownerId") =? "7")%string
       then field (Scenario.owner 7 "New name") "ownerName"
       else QueryCollections.map_get "7" m).
Proof.
  apply (@owners_last_entry_wins Scenario.collections_backend
           [Scenario.owner 7 "Old name"] (Scenario.owner 7 "New name") "7").
  - intros [H|[]]. discriminate.
  - discriminate.
Defined.

Lemma simplify_collection_ok (b : QueryCollections.Backend)
    (m : QueryCollections.OwnersMap) (cs : list Json) :
  ~ In JNull cs ->
  map_throwing (QueryCollections.simplify b m) cs =
  inr (map (simplified_collection b m) cs).
Proof.
  intros H. apply map_throwing_ok. apply Forall_forall. intros c Hc.
  assert (Hn : c <> JNull) by (intros ->; exact (H Hc)).
  unfold QueryCollections.simplify. rewrite !read_some by exact Hn.
  reflexivity.
Qed.

(** [query-collections] on a well-formed answer: when the body is an object
    whose ownedBy and collections are arrays without null elements (a
    missing or empty one counts as the empty array), the result is not an
    error; it lists one entry per collection, in order, with id, name and
    creation date as they came and the owner name looked up in the map of
    the owner entries, "Unknown" when the owner has no entry or no name. *)
Theorem query_collections_result (b : QueryCollections.Backend)
    (args : QueryCollections.Args) (fields : list (string * Json))
    (owners cs : list Json) :
  QueryCollections.axios_post b QueryCollections.collections_url
    (QueryCollections.payload args) (QueryCollections.env_DOMO_DEVELOPER_TOKEN b)
  = inr (Some (JObj fields)) ->
  or_empty (assoc "ownedBy" fields) = JArr owners ->
  or_empty (assoc "collections" fields) = JArr cs ->
  ~ In JNull owners ->
  ~ In JNull cs ->
  QueryCollections.query_collections b args =
  collections_result b (assoc "totalCollectionCount" fields)
    (map (simplified_collection b (rev (map (owner_entry b) owners))) cs).
Proof.
  intros Ha Ho Hc Hno Hnc.
  unfold QueryCollections.query_collections, QueryCollections.try_block.
  rewrite Ha. cbn [read]. rewrite Ho, Hc. cbn [elements].
  rewrite set_owners_ok by exact Hno. rewrite app_nil_r.
  rewrite simplify_collection_ok by exact Hnc. reflexivity.
Qed.

Lemma query_collections_result_witness :
  QueryCollections.query_collections Scenario.collections_backend
    (QueryCollections.mkArgs "events" None None) =
  collections_result Scenario.collections_backend (Some (Scenario.num 1))
    [JObj [("id"%string, JStr "c1"); ("name"%string, JStr "events");
           ("ownerName"%string, JStr "New name")]].
Proof.
  rewrite (@query_collections_result Scenario.collections_backend
             (QueryCollections.mkArgs "events" None None)
             _ [Scenario.owner 7 "Old name"; Scenario.owner 7 "New name"]
             [JObj [("id"%string, JStr "c1"); ("name"%string, JStr "events");
                    ("owner"%string, Scenario.num 7)]]
             eq_refl eq_refl eq_refl).
  - vm_compute. reflexivity.
  - intros H. repeat (destruct H as [H|H]; [discriminate|]). exact H.
  - intros H. repeat (destruct H as [H|H]; [discriminate|]). exact H.
Defined.

Lemma dataset_ok (items : list Json) :
  ~ In JNull items ->
  map_throwing SearchDataflows.dataset items = inr (map simplified_dataset items).
Proof.
  intros H. apply map_throwing_ok. apply Forall_forall. intros ds Hds.
  assert (Hn : ds <> JNull) by (intros ->; exact (H Hds)).
  unfold SearchDataflows.dataset. rewrite !read_some by exact Hn. reflexivity.
Qed.

Lemma datasets_ok (expr : string) (v : option Json) :
  dataset_list v -> SearchDataflows.datasets expr v = inr (simplified_datasets v).
Proof.
  destruct v as [[|flag|x|text|items|fields]|]; cbn [dataset_list]; intros H;
    try contradiction; try reflexivity.
  cbn [SearchDataflows.datasets simplified_datasets].
  rewrite dataset_ok by exact H. reflexivity.
Qed.

Lemma simplify_dataflow_ok (objs : list Json) :
  Forall readable_dataflow objs ->
  map_throwing SearchDataflows.simplify objs = inr (map simplified_dataflow objs).
Proof.
  intros H. apply map_throwing_ok. apply Forall_forall. intros obj Hobj.
  rewrite Forall_forall in H. destruct (H obj Hobj) as (Hn & Hin & Hout).
  unfold SearchDataflows.simplify. rewrite !read_some by exact Hn.
  cbn [and_then]. rewrite !datasets_ok by assumption. reflexivity.
Qed.

(** [search-dataflows] on a well-formed answer: when the body is an object
    whose searchObjects is an array (a missing or empty one counts as the
    empty array) of values that are not null and whose dataset lists are
    absent, null or arrays without null elements, the result is not an
    error; it lists one entry per dataflow, in order, with name and
    databaseId as they came and each dataset list reduced to the name and
    id of its datasets, a list that is absent or null being left out. *)
Theorem search_dataflows_result (b : SearchDataflows.Backend)
    (args : SearchDataflows.Args) (fields : list (string * Json))
    (objs : list Json) :
  SearchDataflows.axios_post b SearchDataflows.search_url
    (SearchDataflows.payload args) (SearchDataflows.env_DOMO_DEVELOPER_TOKEN b)
  = inr (Some (JObj fields)) ->
  or_empty (assoc "searchObjects" fields) = JArr objs ->
  Forall readable_dataflow objs ->
  SearchDataflows.search_dataflows b args =
  dataflows_result b (assoc "totalResultCount" fields)
    (map simplified_dataflow objs).
Proof.
  intros Ha Ho Hobjs.
  unfold SearchDataflows.search_dataflows, SearchDataflows.try_block.
  rewrite Ha. cbn [read and_then]. rewrite Ho. cbn [elements and_then].
  rewrite simplify_dataflow_ok by exact Hobjs. reflexivity.
Qed.

Lemma search_dataflows_result_witness :
  SearchDataflows.search_dataflows Scenario.dataflows_backend
    (SearchDataflows.mkArgs "roster" None None) =
  dataflows_result Scenario.dataflows_backend (Some (Scenario.num 1))
    [JObj [("name"%string, JStr "rostering"); ("databaseId"%string, Scenario.num 12);
           ("inputDatasets"%string,
            JArr [JObj [("name"%string, JStr "shifts"); ("id"%string, JStr "d1")]])]].
Proof.
  rewrite (@search_dataflows_result Scenario.dataflows_backend
             (SearchDataflows.mkArgs "roster" None None)
             _ [Scenario.rostering] eq_refl eq_refl).
  - reflexivity.
  - repeat constructor; try discriminate.
    intros H. repeat (destruct H as [H|H]; [discriminate|]). exact H.
Defined.

(** * The command-line client *)

Lemma prompts_app (a b : list Message) : prompts (a ++ b) = prompts a ++ prompts b.
Proof. apply flat_map_app. Qed.

Lemma prompts_served (w : World) (ds : list Dispatch) :
  prompts (map (tool_message w) ds) = [].
Proof. induction ds as [|d ds IH]; simpl; auto. Qed.

(** The [try] block of the client only appends, and appends no user
    message. *)
Lemma turn_block_appends (w : World) (s : Server) (t : Transcript)
    (o : Outcome (option string)) (s' : Server) (t' : Transcript) :
  Cli.turn_block w s t = (o, s', t') ->
  exists later, s' = with_messages s (messages s ++ later) /\ prompts later = [].
Proof.
  unfold Cli.turn_block. unfold bind at 1. unfold get at 1. cbv zeta.
  unfold bind at 1. unfold remote at 1.
  destruct (create w t OpenAIClient _) as [e|[|m others]].
  - intros H; inversion H; subst. exists []. rewrite app_nil_r, with_messages_same. auto.
  - unfold first_choice, throw. unfold bind at 1.
    intros H; inversion H; subst. exists []. rewrite app_nil_r, with_messages_same. auto.
  - unfold first_choice, ret at 1. unfold bind at 1. unfold bind at 1.
    rewrite push_run.
    destruct (tool_calls m) as [calls|].
    + unfold bind at 1.
      destruct (for_of calls (run_tool_call w) _ _) as [[o1 s3] t3] eqn:Eloop.
      apply tool_loop_spec in Eloop.
      destruct Eloop as (ds & tail & Hs & _ & _ & _ & Ho).
      simpl messages in Hs. rewrite with_messages_twice, <- app_assoc in Hs.
      destruct o1 as [u|r|e]; [| destruct Ho |].
      * unfold bind at 1. unfold get at 1. cbv zeta.
        unfold bind at 1. unfold remote at 1.
        destruct (create w t3 OpenAIClient _) as [e|[|fm others']].
        -- intros H; inversion H; subst.
           exists ([AssistantMsg m] ++ map (tool_message w) ds).
           split; [reflexivity|]. rewrite prompts_app, prompts_served. reflexivity.
        -- unfold first_choice, throw. unfold bind at 1.
           intros H; inversion H; subst.
           exists ([AssistantMsg m] ++ map (tool_message w) ds).
           split; [reflexivity|]. rewrite prompts_app, prompts_served. reflexivity.
        -- unfold first_choice, ret at 1. unfold bind at 1. unfold bind at 1.
           rewrite push_run. unfold ret.
           intros H; inversion H; subst.
           exists ([AssistantMsg m] ++ map (tool_message w) ds ++ [AssistantMsg fm]).
           split.
           ++ simpl. rewrite <- !app_assoc. reflexivity.
           ++ rewrite !prompts_app, prompts_served. reflexivity.
      * intros H; inversion H; subst.
        exists ([AssistantMsg m] ++ map (tool_message w) ds).
        split; [reflexivity|]. rewrite prompts_app, prompts_served. reflexivity.
    + unfold ret. intros H; inversion H; subst.
      exists [AssistantMsg m]. split; reflexivity.
Qed.

Lemma cli_turn_appends (w : World) (userInput : string) (s : Server)
    (line : Cli.Line) (s' : Server) (t' : Transcript) :
  Cli.turn w userInput s = (line, s', t') ->
  exists later,
    messages s' = messages s ++ UserMsg userInput :: later /\ prompts later = [].
Proof.
  unfold Cli.turn. unfold bind at 1. rewrite push_run.
  destruct (Cli.turn_block w _ _) as [[o s1] t1] eqn:Eb.
  apply turn_block_appends in Eb. destruct Eb as (later & Hs & Hp).
  intros H. exists later. split; [|exact Hp].
  assert (s' = s1) by (destruct o; inversion H; reflexivity). subst s'.
  rewrite Hs. simpl. rewrite <- app_assoc. reflexivity.
Qed.

(** The client never drops a message: after any number of lines typed,
    whatever failed on the way, the history is the old history followed by
    what was added, the user messages added are exactly the lines typed
    before the first "exit", in order, and each of them was answered by one
    printed line. *)
Theorem cli_history_append_only (inputs : list (World * string)) :
  forall (s : Server) (lines : list Cli.Line) (s' : Server) (ended : bool),
    Cli.loop inputs s = (lines, s', ended) ->
    exists added,
      messages s' = messages s ++ added /\
      prompts added = typed_before_exit inputs /\
      length lines = length (typed_before_exit inputs).
Proof.
  induction inputs as [|[w userInput] rest IH]; intros s lines s' ended H.
  - inversion H; subst. exists []. rewrite app_nil_r. auto.
  - simpl in H. simpl typed_before_exit.
    destruct (toLowerCase userInput =? "exit")%string.
    + inversion H; subst. exists []. rewrite app_nil_r. auto.
    + destruct (Cli.turn w userInput s) as [[line s1] t1] eqn:Et.
      destruct (Cli.loop rest s1) as [[lines1 s2] ended1] eqn:El.
      inversion H; subst.
      apply cli_turn_appends in Et. destruct Et as (later & Hs1 & Hp).
      destruct (IH _ _ _ _ El) as (added & Hs2 & Hpa & Hlen).
      exists (UserMsg userInput :: later ++ added). splits.
      * rewrite Hs2, Hs1, <- app_assoc. reflexivity.
      * simpl. rewrite prompts_app, Hp, Hpa. reflexivity.
      * simpl. rewrite Hlen. reflexivity.
Qed.

(** Typing "exit", in any letter case, ends the loop at once: the lines
    printed and the state are those of the input before it, no provider and
    no tool is called for it, and nothing typed after it is read. *)
Theorem cli_exit_ends_session (pre post : list (World * string)) (w : World)
    (userInput : string) (s : Server) :
  toLowerCase userInput = "exit"%string ->
  Cli.loop (pre ++ (w, userInput) :: post) s =
  (fst (fst (Cli.loop pre s)), snd (fst (Cli.loop pre s)), true).
Proof.
  intros Hexit. revert s.
  induction pre as [|[w1 x1] pre IH]; intros s; simpl.
  - rewrite Hexit. reflexivity.
  - destruct (toLowerCase x1 =? "exit")%string; [reflexivity|].
    destruct (Cli.turn w1 x1 s) as [[line s1] t1].
    rewrite IH. destruct (Cli.loop pre s1) as [[lines s2] ended]. reflexivity.
Qed.

Lemma cli_history_append_only_witness :
  exists added,
    messages (snd (fst (Cli.loop Scenario.typed Scenario.cli_started))) =
      messages Scenario.cli_started ++ added /\
    prompts added = typed_before_exit Scenario.typed /\
    length (fst (fst (Cli.loop Scenario.typed Scenario.cli_started))) =
      length (typed_before_exit Scenario.typed).
Proof.
  exact (@cli_history_append_only Scenario.typed Scenario.cli_started _ _ _
           (triple_eta _)).
Defined.

Lemma cli_exit_ends_session_witness :
  Cli.loop (firstn 2 Scenario.typed
              ++ (Scenario.world [] [], "EXIT"%string) :: skipn 3 Scenario.typed)
           Scenario.cli_started =
  (fst (fst (Cli.loop (firstn 2 Scenario.typed) Scenario.cli_started)),
   snd (fst (Cli.loop (firstn 2 Scenario.typed) Scenario.cli_started)), true).
Proof.
  apply (@cli_exit_ends_session (firstn 2 Scenario.typed) (skipn 3 Scenario.typed)
           (Scenario.world [] []) "EXIT" Scenario.cli_started).
  reflexivity.
Defined.
